(** * Shutter API examples: time-locked commit/reveal applications

    A shallow embedding of the three React applications of the repository

    - the single-party encrypt/decrypt application (module [Message]),
    - the two-party Rock-Paper-Scissors game (module [Game]),
    - the hello-world variant with a Base64 stand-in (module [HelloWorld]),

    together with the helpers they import ([Utils], [Api], [Viem]).

    Execution model.  JavaScript numbers that hold Unix timestamps and
    countdowns are integral ([Math.floor], sums of integers) and are
    modelled as [Z]; a [number | null] is an [option Z].  A JavaScript
    string is represented by its UTF-8 encoding, a byte string ([string]);
    every string without a lone surrogate has one.  An [async] handler is a computation in the [Task]
    monad: it reads the state of the render that created it (its closure,
    the argument [snap]), writes the component store with the [set...]
    operations, awaits external collaborators taken from an environment
    [Env], and records each awaited call in a trace.  A rejected promise is
    the result [Rejected].  Every handler runs to completion before the
    next user event or timer tick is processed. *)

From Stdlib Require Import ZArith NArith String Ascii List Bool Lia.
Import ListNotations.

Local Open Scope string_scope.
Local Open Scope Z_scope.

(* ================================================================== *)
(** * JavaScript values *)

(** [!!s] for a string: only the empty string is falsy. *)
Definition truthy_string (s : string) : bool :=
  match s with
  | EmptyString => false
  | String _ _ => true
  end.

(** [!!n] for a [number | null] holding an integer: [null] and [0] are falsy. *)
Definition truthy_number (n : option Z) : bool :=
  match n with
  | None => false
  | Some z => negb (z =? 0)
  end.

(** The message of a thrown [Error]. *)
Definition Exn := string.

(** Settled state of a promise. *)
Inductive Result (A : Type) : Type :=
| Resolved (a : A)
| Rejected (e : Exn).

Arguments Resolved {A} a.
Arguments Rejected {A} e.

(* ================================================================== *)
(** * viem: [stringToHex] and [hexToString] *)

Module Viem.

(** Modelled from the spec: the codec functions [stringToHex] and
    [hexToString] are imported from the viem package, which is not part of
    the sources.  The spec describes them as the pure conversion between
    UTF-8 text and the hex encoding expected by the encryption primitive;
    the library implements them as [bytesToHex] of the platform's
    [TextEncoder] and as the platform's [TextDecoder] on [hexToBytes].
    With a string represented by its UTF-8 encoding the encoder is the
    identity; the decoder drops a leading byte order mark and replaces
    every malformed sequence by U+FFFD. *)
Definition nibbleToChar (n : N) : ascii :=
  match n with
  | 0 => "0" | 1 => "1" | 2 => "2" | 3 => "3"
  | 4 => "4" | 5 => "5" | 6 => "6" | 7 => "7"
  | 8 => "8" | 9 => "9" | 10 => "a" | 11 => "b"
  | 12 => "c" | 13 => "d" | 14 => "e" | _ => "f"
  end%N%char.

(** Modelled from the spec: two lower-case hex digits per byte. *)
Fixpoint hexOfBytes (bytes : string) : string :=
  match bytes with
  | EmptyString => EmptyString
  | String b rest =>
      String (nibbleToChar (N_of_ascii b / 16))
        (String (nibbleToChar (N_of_ascii b mod 16)) (hexOfBytes rest))
  end.

(** Modelled from the spec: [bytesToHex], the hex digits behind the [0x] marker. *)
Definition bytesToHex (bytes : string) : string :=
  "0x" ++ hexOfBytes bytes.

(** Modelled from the spec: value of a hex digit, either case; [None] for
    any other character. *)
Definition charCodeToBase16 (c : ascii) : option N :=
  let n := N_of_ascii c in
  if ((48 <=? n) && (n <=? 57))%N then Some (n - 48)%N
  else if ((65 <=? n) && (n <=? 70))%N then Some (n - 55)%N
  else if ((97 <=? n) && (n <=? 102))%N then Some (n - 87)%N
  else None.

(** Modelled from the spec: decoding of the digits two by two; an invalid
    digit makes the decoder throw. *)
Fixpoint bytesOfHex (digits : string) : option string :=
  match digits with
  | EmptyString => Some EmptyString
  | String _ EmptyString => None
  | String l (String r rest) =>
      match charCodeToBase16 l, charCodeToBase16 r, bytesOfHex rest with
      | Some hi, Some lo, Some bytes =>
          Some (String (ascii_of_N (hi * 16 + lo)) bytes)
      | _, _, _ => None
      end
  end.

(** [hex.slice(2)] *)
Definition slice2 (hex : string) : string :=
  match hex with
  | String _ (String _ rest) => rest
  | _ => EmptyString
  end.

(** Modelled from the spec: [hexToBytes] drops the marker, pads an odd
    number of digits with a leading zero and decodes. *)
Definition hexToBytes (hex : string) : option string :=
  let hexString := slice2 hex in
  let hexString :=
    if Nat.odd (String.length hexString) then String "0" hexString
    else hexString in
  bytesOfHex hexString.

(** Modelled from the spec: a byte between two bounds, as the UTF-8
    decoder tests a continuation byte. *)
Definition inRange (lower upper : N) (b : ascii) : bool :=
  ((lower <=? N_of_ascii b) && (N_of_ascii b <=? upper))%N.

(** Modelled from the spec: the bounds of the byte that follows a lead
    byte: narrower after E0, ED, F0 and F4, to exclude overlong forms,
    surrogates and code points above U+10FFFF. *)
Definition lowerBoundary (lead : N) : N :=
  (if lead =? 224 then 160 else if lead =? 240 then 144 else 128)%N.

Definition upperBoundary (lead : N) : N :=
  (if lead =? 237 then 159 else if lead =? 244 then 143 else 191)%N.

(** Modelled from the spec: U+FFFD in UTF-8, the bytes EF BF BD. *)
Definition replacement (rest : string) : string :=
  String (ascii_of_N 239) (String (ascii_of_N 191) (String (ascii_of_N 189) rest)).

(** Modelled from the spec: the UTF-8 decoder of [TextDecoder] in its
    default replacement mode, with the decoded string given in UTF-8
    again.  A well-formed sequence is copied; a malformed or truncated one
    gives one U+FFFD, and the byte that broke it is decoded anew. *)
Fixpoint utf8Decode (bytes : string) : string :=
  match bytes with
  | EmptyString => EmptyString
  | String b0 rest =>
      let lead := N_of_ascii b0 in
      if (lead <=? 127)%N then String b0 (utf8Decode rest)
      else if ((194 <=? lead) && (lead <=? 223))%N then
        match rest with
        | EmptyString => replacement EmptyString
        | String b1 rest1 =>
            if inRange 128 191 b1
            then String b0 (String b1 (utf8Decode rest1))
            else replacement (utf8Decode rest)
        end
      else if ((224 <=? lead) && (lead <=? 239))%N then
        match rest with
        | EmptyString => replacement EmptyString
        | String b1 rest1 =>
            if inRange (lowerBoundary lead) (upperBoundary lead) b1 then
              match rest1 with
              | EmptyString => replacement EmptyString
              | String b2 rest2 =>
                  if inRange 128 191 b2
                  then String b0 (String b1 (String b2 (utf8Decode rest2)))
                  else replacement (utf8Decode rest1)
              end
            else replacement (utf8Decode rest)
        end
      else if ((240 <=? lead) && (lead <=? 244))%N then
        match rest with
        | EmptyString => replacement EmptyString
        | String b1 rest1 =>
            if inRange (lowerBoundary lead) (upperBoundary lead) b1 then
              match rest1 with
              | EmptyString => replacement EmptyString
              | String b2 rest2 =>
                  if inRange 128 191 b2 then
                    match rest2 with
                    | EmptyString => replacement EmptyString
                    | String b3 rest3 =>
                        if inRange 128 191 b3
                        then String b0 (String b1 (String b2 (String b3
                               (utf8Decode rest3))))
                        else replacement (utf8Decode rest2)
                    end
                  else replacement (utf8Decode rest1)
              end
            else replacement (utf8Decode rest)
        end
      else replacement (utf8Decode rest)
  end.

(** Modelled from the spec: the byte order mark U+FEFF in UTF-8 is EF BB
    BF; [TextDecoder] drops one at the start of its input. *)
Definition startsWithBOM (bytes : string) : bool :=
  match bytes with
  | String b0 (String b1 (String b2 _)) =>
      ((N_of_ascii b0 =? 239) && (N_of_ascii b1 =? 187) && (N_of_ascii b2 =? 191))%N
  | _ => false
  end.

Definition stripBOM (bytes : string) : string :=
  if startsWithBOM bytes then
    match bytes with
    | String _ (String _ (String _ rest)) => rest
    | _ => bytes
    end
  else bytes.

(** Modelled from the spec: [new TextDecoder().decode(bytes)]. *)
Definition textDecode (bytes : string) : string :=
  utf8Decode (stripBOM bytes).

(** Well-formed UTF-8, the encodings of the strings without a lone
    surrogate (table 3-7 of the Unicode standard). *)
Fixpoint validUtf8 (bytes : string) : bool :=
  match bytes with
  | EmptyString => true
  | String b0 rest =>
      let lead := N_of_ascii b0 in
      if (lead <=? 127)%N then validUtf8 rest
      else if ((194 <=? lead) && (lead <=? 223))%N then
        match rest with
        | String b1 rest1 => inRange 128 191 b1 && validUtf8 rest1
        | _ => false
        end
      else if ((224 <=? lead) && (lead <=? 239))%N then
        match rest with
        | String b1 (String b2 rest2) =>
            inRange (lowerBoundary lead) (upperBoundary lead) b1
            && inRange 128 191 b2 && validUtf8 rest2
        | _ => false
        end
      else if ((240 <=? lead) && (lead <=? 244))%N then
        match rest with
        | String b1 (String b2 (String b3 rest3)) =>
            inRange (lowerBoundary lead) (upperBoundary lead) b1
            && inRange 128 191 b2 && inRange 128 191 b3 && validUtf8 rest3
        | _ => false
        end
      else false
  end.

(** Modelled from the spec: [textToPayload]; the encoder is the identity on
    the UTF-8 representation. *)
Definition stringToHex (value : string) : string :=
  bytesToHex value.

(** Modelled from the spec: [payloadToText], the decoder on the bytes of
    the payload; [None] when the payload is not a hex string (the library
    throws). *)
Definition hexToString (hex : string) : option string :=
  option_map textDecode (hexToBytes hex).

End Viem.

(* ================================================================== *)
(** * src/utils.ts (as given in the READMEs) *)

Module Utils.

(** [value.startsWith('0x') ? value : `0x${value}`] *)
Definition ensureHexString (value : string) : string :=
  if String.prefix "0x" value then value else "0x" ++ value.

(** [generateRandomBytes32], given the 32 bytes drawn by
    [crypto.getRandomValues]: the marker followed by two hex digits per byte. *)
Definition generateRandomBytes32 (bytes : string) : string :=
  "0x" ++ Viem.hexOfBytes bytes.

End Utils.

(* ================================================================== *)
(** * src/api.ts (declarations given in the READMEs) *)

Module Api.

(** [export const DECRYPTION_DELAY = 120; // 2 minutes] *)
Definition DECRYPTION_DELAY : Z := 120.

(** Response of [fetchShutterData]. *)
Record ShutterData := { eon_key : string; identity : string }.

(** Response of [fetchDecryptionKey]. *)
Record DecryptionKeyData := { decryption_key : string }.

End Api.

(* ================================================================== *)
(** * External collaborators and the task monad *)

(** What a handler obtains from outside during one run: the wall clock
    (milliseconds), the two network operations, the two primitives of the
    Shutter SDK, the entropy source and the browser's [atob].  A left
    injection is a thrown error (a rejected promise). *)
Record Env := {
  Date_now : Z;
  fetchShutterData : Z -> Exn + Api.ShutterData;
  fetchDecryptionKey : string -> Exn + Api.DecryptionKeyData;
  encryptData : string -> string -> string -> string -> Exn + string;
  shutterDecrypt : string -> string -> Exn + string;
  getRandomValues : nat -> string;
  atob : string -> Exn + string
}.

(** The awaited calls, with their arguments, in the order they are issued. *)
Inductive Call : Type :=
| CallFetchShutterData (decryptionTimestamp : Z)
| CallFetchDecryptionKey (identity : string)
| CallEncryptData (msgHex identityHex eonKeyHex sigmaHex : string)
| CallShutterDecrypt (encrypted decryptionKey : string).

(** The registration call. *)
Definition is_registration (c : Call) : bool :=
  match c with
  | CallFetchShutterData _ => true
  | _ => false
  end.

(** The [(identity, eonKey)] pair an encryption call is made under. *)
Definition encryption_pair (c : Call) : option (string * string) :=
  match c with
  | CallEncryptData _ identityHex eonKeyHex _ => Some (identityHex, eonKeyHex)
  | _ => None
  end.

(** The number of registration calls in a trace. *)
Definition registrations (tr : list Call) : nat :=
  List.length (filter is_registration tr).

(** A call that, if it is an encryption, is made under the given
    [(identity, eonKey)] pair. *)
Definition encrypts_under (pair : string * string) (c : Call) : Prop :=
  forall p, encryption_pair c = Some p -> p = pair.

(** Calls that neither register an identity nor encrypt. *)
Definition reveal_call (c : Call) : Prop :=
  is_registration c = false /\ encryption_pair c = None.

Section TaskMonad.

Context {St : Type}.

(** A task transforms the component store and the trace of calls, and
    settles with a value or an error. *)
Definition Task (A : Type) : Type :=
  Env -> St * list Call -> Result A * (St * list Call).

Definition ret {A} (a : A) : Task A :=
  fun _ w => (Resolved a, w).

Definition bind {A B} (m : Task A) (k : A -> Task B) : Task B :=
  fun env w =>
    match m env w with
    | (Resolved a, w') => k a env w'
    | (Rejected e, w') => (Rejected e, w')
    end.

(** [throw] *)
Definition throw {A} (e : Exn) : Task A :=
  fun _ w => (Rejected e, w).

(** [try { body } catch (err) { handler }] *)
Definition try_catch {A} (body : Task A) (handler : Exn -> Task A) : Task A :=
  fun env w =>
    match body env w with
    | (Resolved a, w') => (Resolved a, w')
    | (Rejected e, w') => handler e env w'
    end.

(** A state setter, and a setter called with an updater function. *)
Definition setState (f : St -> St) : Task unit :=
  fun _ w => (Resolved tt, (f (fst w), snd w)).

(** The state of the latest render. *)
Definition getState : Task St :=
  fun _ w => (Resolved (fst w), w).

(** Reading from the environment without a call ([Date.now()], entropy). *)
Definition ask {A} (f : Env -> A) : Task A :=
  fun env w => (Resolved (f env), w).

(** [await f(args)]: the call is recorded, then its promise settles. *)
Definition await {A} (c : Call) (response : Env -> Exn + A) : Task A :=
  fun env w =>
    let w' := (fst w, (snd w ++ [c])%list) in
    match response env with
    | inr a => (Resolved a, w')
    | inl e => (Rejected e, w')
    end.

(** A synchronous library function that may throw. *)
Definition orThrow {A} (e : Exn) (o : option A) : Task A :=
  match o with
  | Some a => ret a
  | None => throw e
  end.

(** An event handler whose promise nobody awaits: a rejection is dropped. *)
Definition detached (m : Task unit) : Task unit :=
  fun env w => (Resolved tt, snd (m env w)).

(** Final store, issued calls and result of a task started on store [s]
    with an empty trace. *)
Definition exec {A} (m : Task A) (env : Env) (s : St) : St :=
  fst (snd (m env (s, []))).

Definition calls {A} (m : Task A) (env : Env) (s : St) : list Call :=
  snd (snd (m env (s, []))).

Definition outcome {A} (m : Task A) (env : Env) (s : St) : Result A :=
  fst (m env (s, [])).

End TaskMonad.

Arguments Task St A : clear implicits.

Declare Scope task_scope.
Delimit Scope task_scope with task.
Notation "x <- m ;; k" := (bind m (fun x => k))
  (at level 61, m at next level, right associativity) : task_scope.
Notation "m ;; k" := (bind m (fun _ => k))
  (at level 61, right associativity) : task_scope.
Local Open Scope task_scope.

(** [Math.floor(Date.now() / 1000)] *)
Definition currentSeconds {St} : Task St Z :=
  ask (fun env => Date_now env / 1000).

(** The guard of the reveal handlers,
    [!timestamp || currentTime < timestamp + 5]. *)
Definition revealBlocked (timestamp : option Z) (currentTime : Z) : bool :=
  negb (truthy_number timestamp)
  || match timestamp with
     | Some t => currentTime <? t + 5
     | None => false
     end.

(** The readiness test as the spec words it:
    [isReady(releaseTimestamp, marginSeconds)] is
    [now >= releaseTimestamp + marginSeconds]. *)
Definition spec_isReady (releaseTimestamp marginSeconds now : Z) : bool :=
  releaseTimestamp + marginSeconds <=? now.

(** The countdown as the spec words it: [max(0, ReleaseTimestamp - now)]. *)
Definition spec_countdown (releaseTimestamp now : Z) : Z :=
  Z.max 0 (releaseTimestamp - now).

(* ================================================================== *)
(** * The single-party application *)

Module Message.

(** The component state: one field per [useState]. *)
Record State := {
  input : string;
  encryptedMessage : string;
  decryptedMessage : string;
  countdown : option Z;
  decryptionTimestamp : option Z;
  identity : string;
  error : string
}.

Definition initial : State :=
  {| input := ""; encryptedMessage := ""; decryptedMessage := "";
     countdown := None; decryptionTimestamp := None;
     identity := ""; error := "" |}.

Definition set_input (v : string) (s : State) : State :=
  {| input := v; encryptedMessage := encryptedMessage s;
     decryptedMessage := decryptedMessage s; countdown := countdown s;
     decryptionTimestamp := decryptionTimestamp s;
     identity := identity s; error := error s |}.

Definition set_encryptedMessage (v : string) (s : State) : State :=
  {| input := input s; encryptedMessage := v;
     decryptedMessage := decryptedMessage s; countdown := countdown s;
     decryptionTimestamp := decryptionTimestamp s;
     identity := identity s; error := error s |}.

Definition set_decryptedMessage (v : string) (s : State) : State :=
  {| input := input s; encryptedMessage := encryptedMessage s;
     decryptedMessage := v; countdown := countdown s;
     decryptionTimestamp := decryptionTimestamp s;
     identity := identity s; error := error s |}.

Definition set_countdown (v : option Z) (s : State) : State :=
  {| input := input s; encryptedMessage := encryptedMessage s;
     decryptedMessage := decryptedMessage s; countdown := v;
     decryptionTimestamp := decryptionTimestamp s;
     identity := identity s; error := error s |}.

Definition set_decryptionTimestamp (v : option Z) (s : State) : State :=
  {| input := input s; encryptedMessage := encryptedMessage s;
     decryptedMessage := decryptedMessage s; countdown := countdown s;
     decryptionTimestamp := v;
     identity := identity s; error := error s |}.

Definition set_identity (v : string) (s : State) : State :=
  {| input := input s; encryptedMessage := encryptedMessage s;
     decryptedMessage := decryptedMessage s; countdown := countdown s;
     decryptionTimestamp := decryptionTimestamp s;
     identity := v; error := error s |}.

Definition set_error (v : string) (s : State) : State :=
  {| input := input s; encryptedMessage := encryptedMessage s;
     decryptedMessage := decryptedMessage s; countdown := countdown s;
     decryptionTimestamp := decryptionTimestamp s;
     identity := identity s; error := v |}.

(** The interval of the countdown effect exists while
    [countdown !== null && countdown > 0]. *)
Definition timerRunning (snap : State) : bool :=
  match countdown snap with
  | Some c => 0 <? c
  | None => false
  end.

(** One firing of the interval:
    [setCountdown(prev => prev !== null ? prev - 1 : null)]. *)
Definition tick (snap : State) : Task State unit :=
  if timerRunning snap then
    setState (fun prev =>
      set_countdown
        (match countdown prev with
         | Some c => Some (c - 1)
         | None => None
         end) prev)
  else ret tt.

Definition encrypt (snap : State) : Task State unit :=
  setState (set_error "") ;;
  currentTime <- currentSeconds ;;
  let decryptionTimestamp := currentTime + Api.DECRYPTION_DELAY in
  setState (set_decryptionTimestamp (Some decryptionTimestamp)) ;;
  setState (set_countdown (Some (Api.DECRYPTION_DELAY + 2))) ;;
  shutterData <- await (CallFetchShutterData decryptionTimestamp)
                   (fun env => fetchShutterData env decryptionTimestamp) ;;
  let eonKeyHex := Utils.ensureHexString (Api.eon_key shutterData) in
  let identityHex := Utils.ensureHexString (Api.identity shutterData) in
  setState (set_identity identityHex) ;;
  let msgHex := Viem.stringToHex (input snap) in
  sigmaHex <- ask (fun env => Utils.generateRandomBytes32 (getRandomValues env 32)) ;;
  encryptedCommitment <-
    await (CallEncryptData msgHex identityHex eonKeyHex sigmaHex)
      (fun env => encryptData env msgHex identityHex eonKeyHex sigmaHex) ;;
  setState (set_encryptedMessage encryptedCommitment).

Definition decrypt (snap : State) : Task State unit :=
  setState (set_error "") ;;
  if negb (truthy_string (identity snap)) then
    setState (set_error "No identity available. Please encrypt a message first.")
  else
    currentTime <- currentSeconds ;;
    if revealBlocked (decryptionTimestamp snap) currentTime then
      setState (set_error "Please wait before decryption key is available")
    else
      try_catch
        (decryptionKeyData <-
           await (CallFetchDecryptionKey (identity snap))
             (fun env => fetchDecryptionKey env (identity snap)) ;;
         let decryptionKey :=
           Utils.ensureHexString (Api.decryption_key decryptionKeyData) in
         decryptedHexMessage <-
           await (CallShutterDecrypt (encryptedMessage snap) decryptionKey)
             (fun env => shutterDecrypt env (encryptedMessage snap) decryptionKey) ;;
         text <- orThrow "Invalid byte sequence" (Viem.hexToString decryptedHexMessage) ;;
         setState (set_decryptedMessage text))
        (fun err =>
           setState (set_error "Failed to decrypt message. Please try again.")).

(** What the user and the timer can do. *)
Inductive Event : Type :=
| TypeInput (text : string)
| ClickEncrypt
| ClickDecrypt
| Tick.

(** Processing of one event on the latest render. *)
Definition dispatch (ev : Event) : Task State unit :=
  snap <- getState ;;
  match ev with
  | TypeInput text => setState (set_input text)
  | ClickEncrypt => detached (encrypt snap)
  | ClickDecrypt => detached (decrypt snap)
  | Tick => tick snap
  end.

End Message.

(* ================================================================== *)
(** * The Rock-Paper-Scissors game *)

Module Game.

(** [type Move = 'rock' | 'paper' | 'scissors'] *)
Inductive Move : Type := rock | paper | scissors.

(** [type Player = 'player1' | 'player2'] *)
Inductive Player : Type := player1 | player2.

(** The string behind a move and behind a player. *)
Definition moveString (m : Move) : string :=
  match m with
  | rock => "rock"
  | paper => "paper"
  | scissors => "scissors"
  end.

Definition playerString (p : Player) : string :=
  match p with
  | player1 => "player1"
  | player2 => "player2"
  end.

(** [interface PlayerState]; the move [''] of a slot is [None]. *)
Record PlayerState := {
  move : option Move;
  encryptedMove : string;
  submitted : bool
}.

(** [Record<Player, PlayerState>] *)
Record Players := {
  slot1 : PlayerState;
  slot2 : PlayerState
}.

(** [players[player]] *)
Definition slot (player : Player) (ps : Players) : PlayerState :=
  match player with
  | player1 => slot1 ps
  | player2 => slot2 ps
  end.

(** [{ ...prev, [player]: v }] *)
Definition with_slot (player : Player) (v : PlayerState) (prev : Players) : Players :=
  match player with
  | player1 => {| slot1 := v; slot2 := slot2 prev |}
  | player2 => {| slot1 := slot1 prev; slot2 := v |}
  end.

(** The component state: one field per [useState]. *)
Record State := {
  players : Players;
  countdown : option Z;
  encryptionTimestamp : option Z;
  identity : string;
  eonKey : string;
  error : string;
  result : string
}.

Definition emptySlot : PlayerState :=
  {| move := None; encryptedMove := ""; submitted := false |}.

Definition initial : State :=
  {| players := {| slot1 := emptySlot; slot2 := emptySlot |};
     countdown := None; encryptionTimestamp := None;
     identity := "0x"; eonKey := "0x"; error := ""; result := "" |}.

Definition set_players (v : Players) (s : State) : State :=
  {| players := v; countdown := countdown s;
     encryptionTimestamp := encryptionTimestamp s; identity := identity s;
     eonKey := eonKey s; error := error s; result := result s |}.

Definition set_countdown (v : option Z) (s : State) : State :=
  {| players := players s; countdown := v;
     encryptionTimestamp := encryptionTimestamp s; identity := identity s;
     eonKey := eonKey s; error := error s; result := result s |}.

Definition set_encryptionTimestamp (v : option Z) (s : State) : State :=
  {| players := players s; countdown := countdown s;
     encryptionTimestamp := v; identity := identity s;
     eonKey := eonKey s; error := error s; result := result s |}.

Definition set_identity (v : string) (s : State) : State :=
  {| players := players s; countdown := countdown s;
     encryptionTimestamp := encryptionTimestamp s; identity := v;
     eonKey := eonKey s; error := error s; result := result s |}.

Definition set_eonKey (v : string) (s : State) : State :=
  {| players := players s; countdown := countdown s;
     encryptionTimestamp := encryptionTimestamp s; identity := identity s;
     eonKey := v; error := error s; result := result s |}.

Definition set_error (v : string) (s : State) : State :=
  {| players := players s; countdown := countdown s;
     encryptionTimestamp := encryptionTimestamp s; identity := identity s;
     eonKey := eonKey s; error := v; result := result s |}.

Definition set_result (v : string) (s : State) : State :=
  {| players := players s; countdown := countdown s;
     encryptionTimestamp := encryptionTimestamp s; identity := identity s;
     eonKey := eonKey s; error := error s; result := v |}.

(** [handleMoveChange]: the value of the select, [''] included. *)
Definition handleMoveChange (player : Player) (move' : option Move) : Task State unit :=
  setState (fun s =>
    let prev := players s in
    set_players
      (with_slot player
         {| move := move';
            encryptedMove := encryptedMove (slot player prev);
            submitted := submitted (slot player prev) |} prev) s).

(** The object [winningCombinations] and its lookup by key. *)
Definition winningCombinations : list (string * string) :=
  [("rock", "scissors"); ("paper", "rock"); ("scissors", "paper")].

Fixpoint lookup (key : string) (obj : list (string * string)) : option string :=
  match obj with
  | [] => None
  | (k, v) :: rest => if String.eqb k key then Some v else lookup key rest
  end.

(** [determineWinner]; at run time its arguments are the decrypted strings. *)
Definition determineWinner (move1 move2 : string) : string :=
  if String.eqb move1 move2 then "It's a tie!"
  else
    match lookup move1 winningCombinations with
    | Some beaten =>
        if String.eqb beaten move2 then "Player 1 wins!" else "Player 2 wins!"
    | None => "Player 2 wins!"
    end.

(** The updater passed to [setPlayers] at the end of [submitMove]: the slot
    gets its commitment and the submitted flag, and the countdown starts
    when both slots are submitted. *)
Definition recordSubmission (player : Player) (encryptedMove' : string)
    (s : State) : State :=
  let prev := players s in
  let newState :=
    with_slot player
      {| move := move (slot player prev);
         encryptedMove := encryptedMove';
         submitted := true |} prev in
  let s' :=
    if submitted (slot1 newState) && submitted (slot2 newState)
    then set_countdown (Some (Api.DECRYPTION_DELAY + 2)) s
    else s in
  set_players newState s'.

Definition submitMove (snap : State) (player : Player) : Task State unit :=
  setState (set_error "") ;;
  match move (slot player (players snap)) with
  | None =>
      setState (set_error ("Please select a move for " ++ playerString player))
  | Some chosen =>
      holders <-
        (if negb (truthy_number (encryptionTimestamp snap)) then
           currentTime <- currentSeconds ;;
           let decryptionTimestamp := currentTime + Api.DECRYPTION_DELAY in
           setState (set_encryptionTimestamp (Some decryptionTimestamp)) ;;
           shutterData <- await (CallFetchShutterData decryptionTimestamp)
                            (fun env => fetchShutterData env decryptionTimestamp) ;;
           let identityHex := Utils.ensureHexString (Api.identity shutterData) in
           setState (set_identity identityHex) ;;
           let eonKeyHex := Utils.ensureHexString (Api.eon_key shutterData) in
           setState (set_eonKey eonKeyHex) ;;
           ret (identityHex, eonKeyHex)
         else ret (identity snap, eonKey snap)) ;;
      let identityHexHolder := fst holders in
      let eonKeyHexHolder := snd holders in
      let msgHex := Viem.stringToHex (moveString chosen) in
      sigmaHex <- ask (fun env => Utils.generateRandomBytes32 (getRandomValues env 32)) ;;
      encryptedMove' <-
        await (CallEncryptData msgHex identityHexHolder eonKeyHexHolder sigmaHex)
          (fun env => encryptData env msgHex identityHexHolder eonKeyHexHolder sigmaHex) ;;
      setState (recordSubmission player encryptedMove')
  end.

Definition decryptMoves (snap : State) : Task State unit :=
  if negb (truthy_string (identity snap)) then
    setState (set_error "No identity available. Please try submitting moves again.")
  else
    currentTime <- currentSeconds ;;
    if revealBlocked (encryptionTimestamp snap) currentTime then
      setState (set_error "Please wait before decryption key is available")
    else
      try_catch
        (decryptionKeyData <-
           await (CallFetchDecryptionKey (identity snap))
             (fun env => fetchDecryptionKey env (identity snap)) ;;
         let decryptionKey :=
           Utils.ensureHexString (Api.decryption_key decryptionKeyData) in
         hex1 <-
           await (CallShutterDecrypt (encryptedMove (slot1 (players snap))) decryptionKey)
             (fun env => shutterDecrypt env (encryptedMove (slot1 (players snap))) decryptionKey) ;;
         decryptedMove1 <- orThrow "Invalid byte sequence" (Viem.hexToString hex1) ;;
         hex2 <-
           await (CallShutterDecrypt (encryptedMove (slot2 (players snap))) decryptionKey)
             (fun env => shutterDecrypt env (encryptedMove (slot2 (players snap))) decryptionKey) ;;
         decryptedMove2 <- orThrow "Invalid byte sequence" (Viem.hexToString hex2) ;;
         let gameResult := determineWinner decryptedMove1 decryptedMove2 in
         setState (set_result gameResult))
        (fun err =>
           setState (set_error "Failed to decrypt moves. Please try again.")).

(** The interval of the countdown effect exists while
    [countdown !== null && countdown > 0]. *)
Definition timerRunning (snap : State) : bool :=
  match countdown snap with
  | Some c => 0 <? c
  | None => false
  end.

(** One firing of the interval. *)
Definition tick (snap : State) : Task State unit :=
  if timerRunning snap then
    setState (fun prev =>
      set_countdown
        (match countdown prev with
         | Some c => Some (c - 1)
         | None => None
         end) prev)
  else ret tt.

(** The effect with dependency [[countdown]], run after a render in which
    the countdown differs from the one of the render before: on
    [countdown === 0] it calls [decryptMoves] of the new render. *)
Definition countdownEffect (before : option Z) : Task State unit :=
  snap <- getState ;;
  match countdown snap, before with
  | Some 0, Some 0 => ret tt
  | Some 0, _ => detached (decryptMoves snap)
  | _, _ => ret tt
  end.

(** What the users and the timer can do. *)
Inductive Event : Type :=
| SelectMove (player : Player) (value : option Move)
| ClickSubmit (player : Player)
| Tick.

(** The handler the render [snap] attaches to an event.  The submit
    button of a slot is rendered with
    [disabled={players[player].submitted}]. *)
Definition handler (snap : State) (ev : Event) : Task State unit :=
  match ev with
  | SelectMove player value => handleMoveChange player value
  | ClickSubmit player =>
      if submitted (slot player (players snap)) then ret tt
      else detached (submitMove snap player)
  | Tick => tick snap
  end.

(** Processing of one event on the latest render, followed by the effect
    of the next render. *)
Definition dispatch (ev : Event) : Task State unit :=
  snap <- getState ;;
  handler snap ev ;;
  countdownEffect (countdown snap).

(** A session: the events in order, each with the environment of its run. *)
Fixpoint session (evs : list (Env * Event)) (w : State * list Call)
    : State * list Call :=
  match evs with
  | [] => w
  | (env, ev) :: rest => session rest (snd (dispatch ev env w))
  end.

(** The beats-relation as the spec words it: rock beats scissors, scissors
    beats paper, paper beats rock. *)
Definition spec_beats (a b : Move) : bool :=
  match a, b with
  | rock, scissors | scissors, paper | paper, rock => true
  | _, _ => false
  end.

Definition move_eqb (a b : Move) : bool :=
  match a, b with
  | rock, rock | paper, paper | scissors, scissors => true
  | _, _ => false
  end.

(** The invariant behind the shared identity: at most one registration
    was issued, every encryption so far was made under the pair now in the
    state, and as long as no release timestamp exists nothing was
    registered or encrypted. *)
Definition sharedPair (w : State * list Call) : Prop :=
  (registrations (snd w) <= 1)%nat
  /\ Forall (encrypts_under (identity (fst w), eonKey (fst w))) (snd w)
  /\ (truthy_number (encryptionTimestamp (fst w)) = false ->
      Forall reveal_call (snd w)).

End Game.

(* ================================================================== *)
(** * The hello-world variant (src/hello-world/src/App.tsx) *)

Module HelloWorld.

Record State := {
  input : string;
  output : string
}.

Definition initial : State := {| input := ""; output := "" |}.

Definition set_input (v : string) (s : State) : State :=
  {| input := v; output := output s |}.

Definition set_output (v : string) (s : State) : State :=
  {| input := input s; output := v |}.

(** [encrypt] returns the commitment and writes no state. *)
Definition encrypt (snap : State) : Task State string :=
  currentTime <- currentSeconds ;;
  let decryptionTimestamp := currentTime + Api.DECRYPTION_DELAY in
  shutterData <- await (CallFetchShutterData decryptionTimestamp)
                   (fun env => fetchShutterData env decryptionTimestamp) ;;
  let eonKeyHex := Utils.ensureHexString (Api.eon_key shutterData) in
  let identityHex := Utils.ensureHexString (Api.identity shutterData) in
  let msgHex := Viem.stringToHex (input snap) in
  sigmaHex <- ask (fun env => Utils.generateRandomBytes32 (getRandomValues env 32)) ;;
  encryptedCommitment <-
    await (CallEncryptData msgHex identityHex eonKeyHex sigmaHex)
      (fun env => encryptData env msgHex identityHex eonKeyHex sigmaHex) ;;
  ret encryptedCommitment.

(** [atob(input)], a synchronous built-in that throws on invalid input;
    it is no awaited call and leaves no entry in the trace. *)
Definition atob_ (data : string) : Task State string :=
  fun env w =>
    match atob env data with
    | inr decoded => (Resolved decoded, w)
    | inl e => (Rejected e, w)
    end.

Definition decrypt (snap : State) : Task State unit :=
  try_catch
    (decrypted <- atob_ (input snap) ;;
     setState (set_output ("Decrypted: " ++ decrypted)))
    (fun e => setState (set_output "Decryption failed: Invalid input")).

End HelloWorld.

(* ================================================================== *)
(** * Sample environments and states for concrete runs *)

Module Sample.

(** A registry that answers every request and a transparent stand-in for
    the primitive (the commitment is the payload), at clock [now]. *)
Definition online (now : Z) : Env :=
  {| Date_now := now;
     fetchShutterData := fun _ =>
       inr {| Api.eon_key := "0xe0"; Api.identity := "0x1d" |};
     fetchDecryptionKey := fun _ => inr {| Api.decryption_key := "0xdk" |};
     encryptData := fun msgHex _ _ _ => inr msgHex;
     shutterDecrypt := fun encrypted _ => inr encrypted;
     getRandomValues := fun _ => "";
     atob := fun data => inr data |}.

(** The registration service is unreachable. *)
Definition registrationDown (now : Z) : Env :=
  {| Date_now := now;
     fetchShutterData := fun _ => inl "HTTP error! Status: 503";
     fetchDecryptionKey := fun _ => inr {| Api.decryption_key := "0xdk" |};
     encryptData := fun msgHex _ _ _ => inr msgHex;
     shutterDecrypt := fun encrypted _ => inr encrypted;
     getRandomValues := fun _ => "";
     atob := fun data => inr data |}.

(** The key of the identity is not published yet. *)
Definition keyNotYetAvailable (now : Z) : Env :=
  {| Date_now := now;
     fetchShutterData := fun _ =>
       inr {| Api.eon_key := "0xe0"; Api.identity := "0x1d" |};
     fetchDecryptionKey := fun _ => inl "decryption key not yet available";
     encryptData := fun msgHex _ _ _ => inr msgHex;
     shutterDecrypt := fun encrypted _ => inr encrypted;
     getRandomValues := fun _ => "";
     atob := fun data => inr data |}.

(** The single-party application after a successful [encrypt] of ["hello"]
    at second 1000. *)
Definition encrypted : Message.State :=
  exec (Message.encrypt (Message.set_input "hello" Message.initial))
    (online 1000000) (Message.set_input "hello" Message.initial).

(** The game after player 1 chose rock and submitted at second 1000. *)
Definition oneSubmitted : Game.State * list Call :=
  Game.session
    [(online 1000000, Game.SelectMove Game.player1 (Some Game.rock));
     (online 1000000, Game.ClickSubmit Game.player1)]
    (Game.initial, []).

(** The game after both players chose and submitted at second 1000. *)
Definition bothSubmitted : Game.State * list Call :=
  Game.session
    [(online 1000000, Game.SelectMove Game.player2 (Some Game.scissors));
     (online 1000000, Game.ClickSubmit Game.player2)]
    oneSubmitted.

End Sample.

(* ================================================================== *)
(** * Whole runs: sessions of the single-party application, measures on
      traces and the invariants of both applications *)

Module Run.

(** The key fetch, and the calls of the reveal (key fetch and decryption). *)
Definition is_key_fetch (c : Call) : bool :=
  match c with
  | CallFetchDecryptionKey _ => true
  | _ => false
  end.

Definition is_reveal (c : Call) : bool :=
  match c with
  | CallFetchDecryptionKey _ | CallShutterDecrypt _ _ => true
  | _ => false
  end.

(** The number of key fetches in a trace. *)
Definition keyFetches (tr : list Call) : nat :=
  List.length (filter is_key_fetch tr).

(** A trace without any call of the reveal. *)
Definition unrevealed (tr : list Call) : Prop :=
  Forall (fun c => is_reveal c = false) tr.

(** The same event, once per environment. *)
Definition repeated {Ev : Type} (ev : Ev) (envs : list Env) : list (Env * Ev) :=
  map (fun env => (env, ev)) envs.

(** A session of the single-party application: the events in order, each
    with the environment of its run. *)
Fixpoint messageSession (evs : list (Env * Message.Event))
    (w : Message.State * list Call) : Message.State * list Call :=
  match evs with
  | [] => w
  | (env, ev) :: rest => messageSession rest (snd (Message.dispatch ev env w))
  end.

(** The countdown is absent or between 0 and [DECRYPTION_DELAY + 2]. *)
Definition countdownInRange (countdown : option Z) : Prop :=
  match countdown with
  | None => True
  | Some c => 0 <= c <= Api.DECRYPTION_DELAY + 2
  end.

(** What every session of the single-party application keeps: the
    countdown is in range; an identity in the state comes with a release
    timestamp and a registration call; without an identity nothing of the
    reveal was called. *)
Definition messageInvariant (w : Message.State * list Call) : Prop :=
  countdownInRange (Message.countdown (fst w))
  /\ (truthy_string (Message.identity (fst w)) = true ->
      (1 <= registrations (snd w))%nat
      /\ Message.decryptionTimestamp (fst w) <> None)
  /\ (truthy_string (Message.identity (fst w)) = false -> unrevealed (snd w)).

(** [players.player1.submitted && players.player2.submitted] *)
Definition bothSubmitted (s : Game.State) : bool :=
  Game.submitted (Game.slot1 (Game.players s))
  && Game.submitted (Game.slot2 (Game.players s)).

(** What every session of the game keeps: the countdown exists exactly
    when both slots are submitted, and is in range; while it is absent or
    positive nothing of the reveal was called; at most one key fetch was
    issued. *)
Definition gameInvariant (w : Game.State * list Call) : Prop :=
  (bothSubmitted (fst w) = false -> Game.countdown (fst w) = None)
  /\ (bothSubmitted (fst w) = true -> Game.countdown (fst w) <> None)
  /\ countdownInRange (Game.countdown (fst w))
  /\ (Game.countdown (fst w) <> Some 0 -> unrevealed (snd w))
  /\ (keyFetches (snd w) <= 1)%nat.

(** The outcome of two moves, as the game announces it. *)
Definition outcome (a b : Game.Move) : string :=
  if Game.move_eqb a b then "It's a tie!"
  else if Game.spec_beats a b then "Player 1 wins!"
  else "Player 2 wins!".

End Run.

(* ================================================================== *)
(** * The game with handlers in flight

    The handlers of the game cut at their [await]s.  A click runs the
    handler of the latest render up to its first [await]; the call is
    recorded and the rest of the handler waits, with the values of its
    closure, among the pending promises; any other event can be processed
    before the promise settles.  State written after an [await] is written
    to the store as it is then; the updater of [setPlayers] reads the
    players as they are then. *)

Module Async.

(** What a suspended handler still holds: for [submitMove] the player and
    the move of its render (and the arguments of the call it waits for);
    for [decryptMoves] its render, the key and the first decrypted move. *)
Inductive Pending : Type :=
| AwaitRegistration (player : Game.Player) (chosen : Game.Move)
    (decryptionTimestamp : Z)
| AwaitEncryption (player : Game.Player)
    (msgHex identityHex eonKeyHex sigmaHex : string)
| AwaitKey (snap : Game.State)
| AwaitDecryption1 (snap : Game.State) (decryptionKey : string)
| AwaitDecryption2 (snap : Game.State) (decryptionKey decryptedMove1 : string).

Record World := {
  store : Game.State;
  trace : list Call;
  pending : list Pending
}.

Definition initial : World :=
  {| store := Game.initial; trace := []; pending := [] |}.

(** A state setter. *)
Definition write (f : Game.State -> Game.State) (w : World) : World :=
  {| store := f (store w); trace := trace w; pending := pending w |}.

(** A call is issued and the handler waits for it. *)
Definition issue (c : Call) (p : Pending) (w : World) : World :=
  {| store := store w;
     trace := (trace w ++ [c])%list;
     pending := (pending w ++ [p])%list |}.

(** [submitMove] from "Encrypt the move" to [await encryptData]. *)
Definition startEncryption (env : Env) (player : Game.Player)
    (chosen : Game.Move) (identityHexHolder eonKeyHexHolder : string)
    (w : World) : World :=
  let msgHex := Viem.stringToHex (Game.moveString chosen) in
  let sigmaHex := Utils.generateRandomBytes32 (getRandomValues env 32) in
  issue (CallEncryptData msgHex identityHexHolder eonKeyHexHolder sigmaHex)
    (AwaitEncryption player msgHex identityHexHolder eonKeyHexHolder sigmaHex) w.

(** [submitMove] up to its first [await]. *)
Definition submitMove (env : Env) (snap : Game.State) (player : Game.Player)
    (w : World) : World :=
  let w := write (Game.set_error "") w in
  match Game.move (Game.slot player (Game.players snap)) with
  | None =>
      write (Game.set_error ("Please select a move for " ++ Game.playerString player)) w
  | Some chosen =>
      if negb (truthy_number (Game.encryptionTimestamp snap)) then
        let decryptionTimestamp := Date_now env / 1000 + Api.DECRYPTION_DELAY in
        issue (CallFetchShutterData decryptionTimestamp)
          (AwaitRegistration player chosen decryptionTimestamp)
          (write (Game.set_encryptionTimestamp (Some decryptionTimestamp)) w)
      else
        startEncryption env player chosen (Game.identity snap) (Game.eonKey snap) w
  end.

(** [decryptMoves] up to its first [await]. *)
Definition decryptMoves (env : Env) (snap : Game.State) (w : World) : World :=
  if negb (truthy_string (Game.identity snap)) then
    write (Game.set_error "No identity available. Please try submitting moves again.") w
  else if revealBlocked (Game.encryptionTimestamp snap) (Date_now env / 1000) then
    write (Game.set_error "Please wait before decryption key is available") w
  else
    issue (CallFetchDecryptionKey (Game.identity snap)) (AwaitKey snap) w.

(** The [catch] of [decryptMoves]. *)
Definition revealFailed (w : World) : World :=
  write (Game.set_error "Failed to decrypt moves. Please try again.") w.

(** A promise settles with the response of the environment and its handler
    runs on to the next [await] or to its end.  A rejection ends
    [submitMove] there and sends [decryptMoves] to its [catch]. *)
Definition settle (env : Env) (p : Pending) (w : World) : World :=
  match p with
  | AwaitRegistration player chosen decryptionTimestamp =>
      match fetchShutterData env decryptionTimestamp with
      | inl _ => w
      | inr shutterData =>
          let identityHex := Utils.ensureHexString (Api.identity shutterData) in
          let eonKeyHex := Utils.ensureHexString (Api.eon_key shutterData) in
          startEncryption env player chosen identityHex eonKeyHex
            (write (Game.set_eonKey eonKeyHex)
               (write (Game.set_identity identityHex) w))
      end
  | AwaitEncryption player msgHex identityHex eonKeyHex sigmaHex =>
      match encryptData env msgHex identityHex eonKeyHex sigmaHex with
      | inl _ => w
      | inr encryptedMove => write (Game.recordSubmission player encryptedMove) w
      end
  | AwaitKey snap =>
      match fetchDecryptionKey env (Game.identity snap) with
      | inl _ => revealFailed w
      | inr decryptionKeyData =>
          let decryptionKey :=
            Utils.ensureHexString (Api.decryption_key decryptionKeyData) in
          issue (CallShutterDecrypt
                   (Game.encryptedMove (Game.slot1 (Game.players snap))) decryptionKey)
            (AwaitDecryption1 snap decryptionKey) w
      end
  | AwaitDecryption1 snap decryptionKey =>
      match shutterDecrypt env
              (Game.encryptedMove (Game.slot1 (Game.players snap))) decryptionKey with
      | inl _ => revealFailed w
      | inr hex1 =>
          match Viem.hexToString hex1 with
          | None => revealFailed w
          | Some decryptedMove1 =>
              issue (CallShutterDecrypt
                       (Game.encryptedMove (Game.slot2 (Game.players snap)))
                       decryptionKey)
                (AwaitDecryption2 snap decryptionKey decryptedMove1) w
          end
      end
  | AwaitDecryption2 snap decryptionKey decryptedMove1 =>
      match shutterDecrypt env
              (Game.encryptedMove (Game.slot2 (Game.players snap))) decryptionKey with
      | inl _ => revealFailed w
      | inr hex2 =>
          match Viem.hexToString hex2 with
          | None => revealFailed w
          | Some decryptedMove2 =>
              write (Game.set_result
                       (Game.determineWinner decryptedMove1 decryptedMove2)) w
          end
      end
  end.

(** The pending promise at a position, and the others. *)
Fixpoint take (index : nat) (l : list Pending) : option (Pending * list Pending) :=
  match l, index with
  | [], _ => None
  | p :: rest, O => Some (p, rest)
  | p :: rest, S index' =>
      match take index' rest with
      | Some (q, others) => Some (q, p :: others)
      | None => None
      end
  end.

(** What can happen next: an event of the users or the timer, or the
    settling of one of the pending promises. *)
Inductive Step : Type :=
| User (ev : Game.Event)
| Settle (index : nat).

(** A handler without [await], run on the store. *)
Definition sync (t : Task Game.State unit) (env : Env) (w : World) : World :=
  let r := snd (t env (store w, trace w)) in
  {| store := fst r; trace := snd r; pending := pending w |}.

Definition act (env : Env) (st : Step) (w : World) : World :=
  match st with
  | User (Game.SelectMove player value) =>
      sync (Game.handleMoveChange player value) env w
  | User (Game.ClickSubmit player) =>
      if Game.submitted (Game.slot player (Game.players (store w))) then w
      else submitMove env (store w) player w
  | User Game.Tick => sync (Game.tick (store w)) env w
  | Settle index =>
      match take index (pending w) with
      | Some (p, others) =>
          settle env p
            {| store := store w; trace := trace w; pending := others |}
      | None => w
      end
  end.

(** The countdown effect of the render that follows. *)
Definition effect (before : option Z) (env : Env) (w : World) : World :=
  match Game.countdown (store w), before with
  | Some 0, Some 0 => w
  | Some 0, _ => decryptMoves env (store w) w
  | _, _ => w
  end.

Definition step (env : Env) (st : Step) (w : World) : World :=
  effect (Game.countdown (store w)) env (act env st w).

(** A run: the steps in order, each with the environment it meets. *)
Fixpoint run (steps : list (Env * Step)) (w : World) : World :=
  match steps with
  | [] => w
  | (env, st) :: rest => run rest (step env st w)
  end.

(** The first pending promise settles. *)
Definition settleFirst (env : Env) (w : World) : World :=
  match pending w with
  | [] => w
  | p :: others =>
      settle env p {| store := store w; trace := trace w; pending := others |}
  end.

(** Pending registrations, pending encryptions, and the player a pending
    submission belongs to. *)
Definition isRegistrationPending (p : Pending) : bool :=
  match p with
  | AwaitRegistration _ _ _ => true
  | _ => false
  end.

Definition isEncryptionPending (p : Pending) : bool :=
  match p with
  | AwaitEncryption _ _ _ _ _ => true
  | _ => false
  end.

Definition submitter (p : Pending) : option Game.Player :=
  match p with
  | AwaitRegistration player _ _ => Some player
  | AwaitEncryption player _ _ _ _ => Some player
  | _ => None
  end.

Definition registering (l : list Pending) : nat :=
  List.length (filter isRegistrationPending l).

(** No submission of the player is in flight. *)
Definition settled (player : Game.Player) (l : list Pending) : Prop :=
  Forall (fun p => submitter p <> Some player) l.

Definition isSubmit (st : Step) : bool :=
  match st with
  | User (Game.ClickSubmit _) => true
  | _ => false
  end.

(** An orderly run: whenever a submit button is clicked, the release
    timestamp computed from the clock is not zero and no registration is
    in flight. *)
Fixpoint orderly (steps : list (Env * Step)) (w : World) : Prop :=
  match steps with
  | [] => True
  | (env, st) :: rest =>
      (isSubmit st = true ->
       Date_now env / 1000 + Api.DECRYPTION_DELAY <> 0
       /\ registering (pending w) = 0%nat)
      /\ orderly rest (step env st w)
  end.

(** A pending encryption waits for a call that was made under the pair. *)
Definition pendingUnder (pair : string * string) (tr : list Call)
    (p : Pending) : Prop :=
  match p with
  | AwaitEncryption _ msgHex identityHex eonKeyHex sigmaHex =>
      (identityHex, eonKeyHex) = pair
      /\ In (CallEncryptData msgHex identityHex eonKeyHex sigmaHex) tr
  | _ => True
  end.

(** The commitment of a submitted slot is what an encryption call of the
    trace, made under the pair of the state, returned in one of the
    environments of the run. *)
Definition backed (envs : list Env) (w : World) (player : Game.Player) : Prop :=
  Game.submitted (Game.slot player (Game.players (store w))) = true ->
  exists env msgHex sigmaHex,
    In env envs
    /\ In (CallEncryptData msgHex (Game.identity (store w))
             (Game.eonKey (store w)) sigmaHex) (trace w)
    /\ encryptData env msgHex (Game.identity (store w))
         (Game.eonKey (store w)) sigmaHex
       = inr (Game.encryptedMove (Game.slot player (Game.players (store w)))).

(** Nothing was encrypted or submitted yet. *)
Definition unencrypted (w : World) : Prop :=
  Forall (fun c => encryption_pair c = None) (trace w)
  /\ Forall (fun p => isEncryptionPending p = false) (pending w)
  /\ (forall player,
        Game.submitted (Game.slot player (Game.players (store w))) = false).

(** The three phases of an orderly run: before the registration, while it
    is in flight, and after it has settled. *)
Definition beforeRegistration (w : World) : Prop :=
  truthy_number (Game.encryptionTimestamp (store w)) = false
  /\ registrations (trace w) = 0%nat
  /\ registering (pending w) = 0%nat
  /\ unencrypted w.

Definition duringRegistration (w : World) : Prop :=
  truthy_number (Game.encryptionTimestamp (store w)) = true
  /\ registrations (trace w) = 1%nat
  /\ registering (pending w) = 1%nat
  /\ unencrypted w.

Definition afterRegistration (envs : list Env) (w : World) : Prop :=
  truthy_number (Game.encryptionTimestamp (store w)) = true
  /\ registrations (trace w) = 1%nat
  /\ registering (pending w) = 0%nat
  /\ Forall (encrypts_under (Game.identity (store w), Game.eonKey (store w)))
       (trace w)
  /\ Forall (pendingUnder (Game.identity (store w), Game.eonKey (store w))
               (trace w)) (pending w)
  /\ (forall player, backed envs w player).

Definition phased (envs : list Env) (w : World) : Prop :=
  beforeRegistration w \/ duringRegistration w \/ afterRegistration envs w.

(** From one world to a later one a submitted slot stays submitted and,
    when no submission of its player is in flight, keeps its commitment. *)
Definition keepsSlot (player : Game.Player) (w w' : World) : Prop :=
  Game.submitted (Game.slot player (Game.players (store w))) = true ->
  Game.submitted (Game.slot player (Game.players (store w'))) = true
  /\ (settled player (pending w) ->
      settled player (pending w')
      /\ Game.encryptedMove (Game.slot player (Game.players (store w')))
         = Game.encryptedMove (Game.slot player (Game.players (store w)))).

(** A registry that hands out a different pair for every timestamp. *)
Definition registryByTimestamp (now : Z) : Env :=
  {| Date_now := now;
     fetchShutterData := fun ts =>
       if ts =? 0 then inr {| Api.eon_key := "0xe0"; Api.identity := "0x1d" |}
       else inr {| Api.eon_key := "0xe1"; Api.identity := "0x2d" |};
     fetchDecryptionKey := fun _ => inr {| Api.decryption_key := "0xdk" |};
     encryptData := fun msgHex _ _ _ => inr msgHex;
     shutterDecrypt := fun encrypted _ => inr encrypted;
     getRandomValues := fun _ => "";
     atob := fun data => inr data |}.

(** A primitive whose commitment shows the identity it was made under. *)
Definition encrypted_under (msgHex identityHex : string) : string :=
  msgHex ++ identityHex.

Definition tagging (now : Z) : Env :=
  {| Date_now := now;
     fetchShutterData := fun _ =>
       inr {| Api.eon_key := "0xe0"; Api.identity := "0x1d" |};
     fetchDecryptionKey := fun _ => inr {| Api.decryption_key := "0xdk" |};
     encryptData := fun msgHex identityHex _ _ =>
       inr (encrypted_under msgHex identityHex);
     shutterDecrypt := fun encrypted _ => inr encrypted;
     getRandomValues := fun _ => "";
     atob := fun data => inr data |}.

End Async.

(* ================================================================== *)
(** * Properties of the codec *)

Section CodecFacts.

Import Viem.

Lemma nibble_high (b : ascii) :
  charCodeToBase16 (nibbleToChar (N_of_ascii b / 16)) = Some (N_of_ascii b / 16)%N.
Proof.
  destruct b as [[] [] [] [] [] [] [] []]; vm_compute; reflexivity.
Qed.

Lemma nibble_low (b : ascii) :
  charCodeToBase16 (nibbleToChar (N_of_ascii b mod 16)) = Some (N_of_ascii b mod 16)%N.
Proof.
  destruct b as [[] [] [] [] [] [] [] []]; vm_compute; reflexivity.
Qed.

Lemma byte_of_nibbles (b : ascii) :
  ascii_of_N (N_of_ascii b / 16 * 16 + N_of_ascii b mod 16) = b.
Proof.
  replace (N_of_ascii b / 16 * 16 + N_of_ascii b mod 16)%N with (N_of_ascii b).
  - apply ascii_N_embedding.
  - rewrite N.mul_comm. apply N.div_mod. discriminate.
Qed.

Lemma bytesOfHex_hexOfBytes (bytes : string) :
  bytesOfHex (hexOfBytes bytes) = Some bytes.
Proof.
  induction bytes as [|b rest IH]; simpl.
  - reflexivity.
  - rewrite nibble_high, nibble_low, IH, byte_of_nibbles. reflexivity.
Qed.

Lemma hexOfBytes_even (bytes : string) :
  Nat.odd (String.length (hexOfBytes bytes)) = false.
Proof.
  induction bytes as [|b rest IH]; simpl.
  - reflexivity.
  - exact IH.
Qed.

Lemma slice2_bytesToHex (bytes : string) :
  slice2 (bytesToHex bytes) = hexOfBytes bytes.
Proof. reflexivity. Qed.

Lemma hexToBytes_bytesToHex (bytes : string) :
  hexToBytes (bytesToHex bytes) = Some bytes.
Proof.
  unfold hexToBytes. rewrite slice2_bytesToHex, hexOfBytes_even.
  apply bytesOfHex_hexOfBytes.
Qed.

(** On well-formed UTF-8 the decoder copies its input. *)
Lemma utf8Decode_valid_bounded (n : nat) (T : string) :
  (String.length T <= n)%nat -> validUtf8 T = true -> utf8Decode T = T.
Proof.
  revert T. induction n as [| n IH]; intros T Hlen Hv.
  - destruct T; [reflexivity | simpl in Hlen; lia].
  - destruct T as [| b0 rest]; [reflexivity |].
    cbn [validUtf8 utf8Decode] in *. cbv zeta in *.
    simpl in Hlen.
    destruct (N_of_ascii b0 <=? 127)%N.
    { f_equal. apply IH; [lia | exact Hv]. }
    destruct ((194 <=? N_of_ascii b0) && (N_of_ascii b0 <=? 223))%N.
    { destruct rest as [| b1 rest1]; [discriminate |].
      apply andb_true_iff in Hv. destruct Hv as [H1 Hv]. rewrite H1.
      simpl in Hlen. do 2 f_equal. apply IH; [lia | exact Hv]. }
    destruct ((224 <=? N_of_ascii b0) && (N_of_ascii b0 <=? 239))%N.
    { destruct rest as [| b1 [| b2 rest2]]; try discriminate.
      apply andb_true_iff in Hv. destruct Hv as [Hv H3].
      apply andb_true_iff in Hv. destruct Hv as [H1 H2].
      rewrite H1, H2. simpl in Hlen. do 3 f_equal. apply IH; [lia | exact H3]. }
    destruct ((240 <=? N_of_ascii b0) && (N_of_ascii b0 <=? 244))%N;
      [| discriminate].
    destruct rest as [| b1 [| b2 [| b3 rest3]]]; try discriminate.
    apply andb_true_iff in Hv. destruct Hv as [Hv H4].
    apply andb_true_iff in Hv. destruct Hv as [Hv H3].
    apply andb_true_iff in Hv. destruct Hv as [H1 H2].
    rewrite H1, H2, H3. simpl in Hlen. do 4 f_equal. apply IH; [lia | exact H4].
Qed.

Lemma utf8Decode_valid (T : string) :
  validUtf8 T = true -> utf8Decode T = T.
Proof. apply (utf8Decode_valid_bounded (String.length T)). lia. Qed.

(** A byte order mark is a well-formed character: behind it the rest is
    well-formed when the whole is. *)
Lemma validUtf8_stripBOM (T : string) :
  validUtf8 T = true -> validUtf8 (stripBOM T) = true.
Proof.
  unfold stripBOM. destruct (startsWithBOM T) eqn:Hb; [| auto].
  destruct T as [| b0 [| b1 [| b2 rest]]]; try discriminate Hb.
  cbn [startsWithBOM] in Hb.
  apply andb_true_iff in Hb. destruct Hb as [Hb H2].
  apply andb_true_iff in Hb. destruct Hb as [H0 H1].
  apply N.eqb_eq in H0, H1, H2.
  cbn [validUtf8]. cbv zeta. unfold inRange. rewrite H0, H1, H2.
  cbn. auto.
Qed.

(** The decoder on well-formed text: only a leading byte order mark goes. *)
Lemma textDecode_valid (T : string) :
  validUtf8 T = true -> textDecode T = stripBOM T.
Proof.
  intros Hv. unfold textDecode. apply utf8Decode_valid.
  apply validUtf8_stripBOM. exact Hv.
Qed.

Lemma hexToString_stringToHex (T : string) :
  hexToString (stringToHex T) = Some (textDecode T).
Proof.
  unfold hexToString, stringToHex. rewrite hexToBytes_bytesToHex. reflexivity.
Qed.

(** C9, as stated, fails for a text that starts with U+FEFF: the payload
    of U+FEFF followed by "hi" decodes to "hi". *)
Lemma codec_drops_byte_order_mark :
  let T := String (ascii_of_N 239) (String (ascii_of_N 187)
             (String (ascii_of_N 191) "hi")) in
  validUtf8 T = true
  /\ hexToString (stringToHex T) = Some "hi"
  /\ ~ (hexToString (stringToHex T) = Some T).
Proof.
  split; [reflexivity |]. split; [reflexivity |].
  vm_compute. discriminate.
Qed.

(** C9 (amended). For every well-formed text [T], decoding the encoded
    payload returns [T] without a leading U+FEFF, so it returns [T] for
    every well-formed text that does not start with U+FEFF. *)
Theorem codec_round_trip (T : string) :
  validUtf8 T = true ->
  hexToString (stringToHex T) = Some (stripBOM T)
  /\ (startsWithBOM T = false -> hexToString (stringToHex T) = Some T).
Proof.
  intros Hv. rewrite hexToString_stringToHex, (textDecode_valid T Hv).
  split; [reflexivity |].
  intros Hb. unfold stripBOM. rewrite Hb. reflexivity.
Qed.

Lemma codec_round_trip_witness :
  validUtf8 "hello" = true
  /\ hexToString (stringToHex "hello") = Some (stripBOM "hello")
  /\ (startsWithBOM "hello" = false ->
      hexToString (stringToHex "hello") = Some "hello").
Proof.
  split; [reflexivity |]. apply (codec_round_trip "hello"). reflexivity.
Defined.

(** The payload always carries the marker, so [ensureHexString] leaves it as it is. *)
Lemma ensureHexString_stringToHex (T : string) :
  Utils.ensureHexString (stringToHex T) = stringToHex T.
Proof.
  unfold Utils.ensureHexString, stringToHex, bytesToHex. simpl.
  repeat (destruct (ascii_dec _ _); [| congruence]).
  destruct (hexOfBytes T); reflexivity.
Qed.

(** [ensureHexString] is idempotent. *)
Lemma ensureHexString_idempotent (value : string) :
  Utils.ensureHexString (Utils.ensureHexString value) = Utils.ensureHexString value.
Proof.
  unfold Utils.ensureHexString.
  destruct (String.prefix "0x" value) eqn:E.
  - rewrite E. reflexivity.
  - simpl. repeat (destruct (ascii_dec _ _); [| congruence]).
    destruct value; reflexivity.
Qed.

End CodecFacts.

(* ================================================================== *)
(** * Properties of the outcome resolver *)

Section ResolverFacts.

Import Game.

Lemma move_eqb_eq (a b : Move) : move_eqb a b = true <-> a = b.
Proof. destruct a, b; simpl; split; congruence. Qed.

(** The resolver on the nine pairs of moves, by cases. *)
Lemma determineWinner_cases (a b : Move) :
  determineWinner (moveString a) (moveString b) =
    if move_eqb a b then "It's a tie!"
    else if spec_beats a b then "Player 1 wins!"
    else "Player 2 wins!".
Proof. destruct a, b; reflexivity. Qed.

(** C4. [determineWinner] is total over the nine pairs of moves, returns a
    tie exactly when the moves are equal, otherwise declares the winner by
    the beats-relation, and swapping the moves swaps the declared winner
    while ties remain ties; rock against scissors is won by player 1 and
    scissors against rock by player 2. *)
Theorem determineWinner_total_symmetric :
  (forall a b : Move,
      (determineWinner (moveString a) (moveString b) = "It's a tie!"
       \/ determineWinner (moveString a) (moveString b) = "Player 1 wins!"
       \/ determineWinner (moveString a) (moveString b) = "Player 2 wins!")
      /\ (determineWinner (moveString a) (moveString b) = "It's a tie!" <-> a = b)
      /\ (determineWinner (moveString a) (moveString b) = "Player 1 wins!"
          <-> spec_beats a b = true)
      /\ (determineWinner (moveString a) (moveString b) = "Player 2 wins!"
          <-> spec_beats b a = true)
      /\ (determineWinner (moveString a) (moveString b) = "Player 1 wins!"
          -> determineWinner (moveString b) (moveString a) = "Player 2 wins!")
      /\ (determineWinner (moveString a) (moveString b) = "Player 2 wins!"
          -> determineWinner (moveString b) (moveString a) = "Player 1 wins!")
      /\ (determineWinner (moveString a) (moveString b) = "It's a tie!"
          -> determineWinner (moveString b) (moveString a) = "It's a tie!"))
  /\ determineWinner (moveString rock) (moveString scissors) = "Player 1 wins!"
  /\ determineWinner (moveString scissors) (moveString rock) = "Player 2 wins!"
  /\ determineWinner (moveString paper) (moveString paper) = "It's a tie!".
Proof.
  split; [| repeat split].
  intros a b.
  rewrite (determineWinner_cases a b), (determineWinner_cases b a).
  destruct a, b; simpl;
    repeat split; intros; try discriminate; try reflexivity; auto.
Qed.

End ResolverFacts.

(* ================================================================== *)
(** * The readiness guard *)

Ltac task_unfold :=
  unfold exec, calls, outcome, currentSeconds, orThrow in *;
  unfold bind, ret, setState, getState, ask, await, try_catch, throw,
    detached in *.

Lemma truthy_number_Some (R : Z) :
  truthy_number (Some R) = true <-> R <> 0.
Proof.
  simpl. destruct (Z.eqb_spec R 0); simpl; split; intros; congruence.
Qed.

(** Before the release time plus five seconds the guard blocks, whatever
    the timestamp. *)
Lemma revealBlocked_early (R now : Z) :
  now < R + 5 -> revealBlocked (Some R) now = true.
Proof.
  intros H. unfold revealBlocked.
  apply orb_true_iff. right. apply Z.ltb_lt. exact H.
Qed.

(** Without a timestamp the guard blocks. *)
Lemma revealBlocked_None (now : Z) : revealBlocked None now = true.
Proof. reflexivity. Qed.

(** When the guard lets the handler pass, a nonzero timestamp exists and
    the margin has elapsed. *)
Lemma revealBlocked_false (ts : option Z) (now : Z) :
  revealBlocked ts now = false ->
  exists R, ts = Some R /\ R <> 0 /\ R + 5 <= now.
Proof.
  destruct ts as [R|]; [| discriminate].
  unfold revealBlocked. intros H.
  apply orb_false_iff in H. destruct H as [H1 H2].
  apply negb_false_iff in H1. apply truthy_number_Some in H1.
  apply Z.ltb_ge in H2. exists R. auto.
Qed.

(** C2, as stated, fails at release timestamp 0: at second 5 the margin has
    elapsed, and the guard still blocks. *)
Lemma revealBlocked_zero_timestamp :
  ~ (revealBlocked (Some 0) 5 = false <-> 0 + 5 <= 5).
Proof.
  intros [_ H]. specialize (H ltac:(lia)). discriminate H.
Qed.

(** C2 (amended). For every nonzero release timestamp [R] and every current
    time [now], the guard blocks exactly when [now < R + 5] and passes
    exactly when [now >= R + 5]: it is the negation of the spec's
    [isReady] with margin 5. *)
Theorem revealBlocked_matches_isReady (R now : Z) :
  R <> 0 ->
  (revealBlocked (Some R) now = true <-> now < R + 5)
  /\ (revealBlocked (Some R) now = false <-> R + 5 <= now)
  /\ negb (revealBlocked (Some R) now) = spec_isReady R 5 now.
Proof.
  intros HR. unfold revealBlocked, spec_isReady.
  apply truthy_number_Some in HR. rewrite HR. simpl.
  destruct (Z.ltb_spec now (R + 5)); destruct (Z.leb_spec (R + 5) now);
    try lia; repeat split; intros; try lia; try congruence.
Qed.

Lemma revealBlocked_matches_isReady_witness :
  1120 <> 0
  /\ (revealBlocked (Some 1120) 1125 = true <-> 1125 < 1120 + 5)
  /\ (revealBlocked (Some 1120) 1125 = false <-> 1120 + 5 <= 1125)
  /\ negb (revealBlocked (Some 1120) 1125) = spec_isReady 1120 5 1125.
Proof.
  split; [lia | apply (revealBlocked_matches_isReady 1120 1125); lia].
Defined.

(* ================================================================== *)
(** * The reveal handlers behind the guard *)

(** The single-party handler, when the guard blocks. *)
Lemma message_decrypt_blocked (env : Env) (snap st : Message.State) (tr : list Call) :
  revealBlocked (Message.decryptionTimestamp snap) (Date_now env / 1000) = true ->
  exists msg, msg <> "" /\
    Message.decrypt snap env (st, tr)
    = (Resolved tt, (Message.set_error msg st, tr)).
Proof.
  intros Hb. unfold Message.decrypt. task_unfold. simpl.
  destruct (truthy_string (Message.identity snap)); simpl.
  - rewrite Hb. eexists. split; [| reflexivity]. discriminate.
  - eexists. split; [| reflexivity]. discriminate.
Qed.

(** The game handler, when the guard blocks. *)
Lemma game_decryptMoves_blocked (env : Env) (snap st : Game.State) (tr : list Call) :
  revealBlocked (Game.encryptionTimestamp snap) (Date_now env / 1000) = true ->
  exists msg, msg <> "" /\
    Game.decryptMoves snap env (st, tr)
    = (Resolved tt, (Game.set_error msg st, tr)).
Proof.
  intros Hb. unfold Game.decryptMoves. task_unfold. simpl.
  destruct (truthy_string (Game.identity snap)); simpl.
  - rewrite Hb. eexists. split; [| reflexivity]. discriminate.
  - eexists. split; [| reflexivity]. discriminate.
Qed.

(** C1. In the reveal flow of both applications, whenever the current time
    is below the release timestamp plus the margin of 5 seconds, the
    handler returns normally with a nonempty error message, issues no call
    at all (the trace is unchanged, so [fetchDecryptionKey] is not
    invoked), and leaves every state field except the error message
    unchanged. *)
Theorem reveal_blocked_before_release (env : Env) (R : Z) :
  Date_now env / 1000 < R + 5 ->
  (forall (snap st : Message.State) (tr : list Call),
      Message.decryptionTimestamp snap = Some R ->
      exists msg, msg <> "" /\
        Message.decrypt snap env (st, tr)
        = (Resolved tt, (Message.set_error msg st, tr)))
  /\ (forall (snap st : Game.State) (tr : list Call),
      Game.encryptionTimestamp snap = Some R ->
      exists msg, msg <> "" /\
        Game.decryptMoves snap env (st, tr)
        = (Resolved tt, (Game.set_error msg st, tr))).
Proof.
  intros Hnow. split; intros snap st tr Hts.
  - apply message_decrypt_blocked. rewrite Hts.
    apply revealBlocked_early. exact Hnow.
  - apply game_decryptMoves_blocked. rewrite Hts.
    apply revealBlocked_early. exact Hnow.
Qed.

Lemma reveal_blocked_before_release_witness :
  Date_now (Sample.online 1124000) / 1000 < 1120 + 5
  /\ (exists msg, msg <> "" /\
        Message.decrypt Sample.encrypted (Sample.online 1124000) (Sample.encrypted, [])
        = (Resolved tt, (Message.set_error msg Sample.encrypted, []))).
Proof.
  split; [vm_compute; reflexivity |].
  apply (reveal_blocked_before_release (Sample.online 1124000) 1120);
    [vm_compute; reflexivity | reflexivity].
Defined.

(** A key fetch appears in the trace of the single-party handler only when
    the guard has let it pass. *)
Lemma message_key_fetch_implies_ready (env : Env) (snap st : Message.State)
    (tr : list Call) (id : string) :
  In (CallFetchDecryptionKey id) (snd (snd (Message.decrypt snap env (st, tr)))) ->
  ~ In (CallFetchDecryptionKey id) tr ->
  exists R, Message.decryptionTimestamp snap = Some R /\ R <> 0
            /\ R + 5 <= Date_now env / 1000.
Proof.
  intros Hin Hnot.
  destruct (revealBlocked (Message.decryptionTimestamp snap) (Date_now env / 1000)) eqn:Hb.
  - destruct (message_decrypt_blocked env snap st tr Hb) as [msg [_ Heq]].
    rewrite Heq in Hin. simpl in Hin. contradiction.
  - apply revealBlocked_false. exact Hb.
Qed.

(** The same for the game handler. *)
Lemma game_key_fetch_implies_ready (env : Env) (snap st : Game.State)
    (tr : list Call) (id : string) :
  In (CallFetchDecryptionKey id) (snd (snd (Game.decryptMoves snap env (st, tr)))) ->
  ~ In (CallFetchDecryptionKey id) tr ->
  exists R, Game.encryptionTimestamp snap = Some R /\ R <> 0
            /\ R + 5 <= Date_now env / 1000.
Proof.
  intros Hin Hnot.
  destruct (revealBlocked (Game.encryptionTimestamp snap) (Date_now env / 1000)) eqn:Hb.
  - destruct (game_decryptMoves_blocked env snap st tr Hb) as [msg [_ Heq]].
    rewrite Heq in Hin. simpl in Hin. contradiction.
  - apply revealBlocked_false. exact Hb.
Qed.

Ltac break_match :=
  match goal with
  | |- context [match ?x with _ => _ end] =>
      lazymatch x with
      | context [match _ with _ => _ end] => fail
      | _ => destruct x eqn:?
      end
  end; cbn beta iota zeta delta [fst snd].

Ltac task_run := task_unfold; cbn beta iota zeta delta [fst snd].

(** [decryptMoves] writes only the error message and the result, and
    issues only the key fetch and decryptions. *)
Lemma game_decryptMoves_frame (env : Env) (snap st : Game.State) (tr : list Call) :
  exists st' extra,
    snd (Game.decryptMoves snap env (st, tr)) = (st', (tr ++ extra)%list)
    /\ Forall reveal_call extra
    /\ Game.players st' = Game.players st
    /\ Game.countdown st' = Game.countdown st
    /\ Game.encryptionTimestamp st' = Game.encryptionTimestamp st
    /\ Game.identity st' = Game.identity st
    /\ Game.eonKey st' = Game.eonKey st.
Proof.
  unfold Game.decryptMoves. task_run.
  repeat break_match; rewrite <- ?app_assoc;
    try (eexists; eexists; split; [reflexivity |];
         split; [repeat constructor | repeat split]).
  all: eexists; exists []; rewrite app_nil_r; repeat split; constructor.
Qed.

(* ================================================================== *)
(** * The countdown *)

(** The timer of the single-party application issues no call and writes
    only the countdown. *)
Lemma message_tick_countdown (env : Env) (s : Message.State) (tr : list Call) :
  Message.dispatch Message.Tick env (s, tr)
  = (Resolved tt,
     ((if Message.timerRunning s
       then Message.set_countdown (option_map Z.pred (Message.countdown s)) s
       else s), tr)).
Proof.
  unfold Message.dispatch, Message.tick. task_run.
  destruct (Message.timerRunning s); cbn beta iota zeta delta [fst snd].
  - destruct (Message.countdown s); reflexivity.
  - reflexivity.
Qed.

(** C5, as stated, fails on the first tick after an encryption at second
    1000: the release timestamp is 1120, the tick fires at second 1001,
    and the displayed value is not [max(0, 1120 - 1001)]. *)
Lemma countdown_differs_from_wall_clock :
  Message.decryptionTimestamp Sample.encrypted = Some 1120
  /\ Date_now (Sample.online 1001000) / 1000 = 1001
  /\ Message.countdown
       (exec (Message.dispatch Message.Tick) (Sample.online 1001000) Sample.encrypted)
     <> Some (spec_countdown 1120 1001).
Proof.
  split; [reflexivity |]. split; [reflexivity |].
  vm_compute. discriminate.
Qed.

(** The timer of the game: nothing happens unless the stored countdown is
    positive. *)
Lemma game_tick_idle (env : Env) (s : Game.State) (tr : list Call) :
  Game.timerRunning s = false ->
  Game.dispatch Game.Tick env (s, tr) = (Resolved tt, (s, tr)).
Proof.
  intros Hidle.
  unfold Game.dispatch, Game.handler, Game.tick, Game.countdownEffect.
  task_run. rewrite Hidle. cbn beta iota zeta delta [fst snd].
  destruct (Game.countdown s) as [[| |]|]; reflexivity.
Qed.

(** C5 (amended). A tick fires only while the stored countdown is positive,
    and then the displayed countdown is the previously stored value minus
    one, whatever the wall clock reads; in both applications.  While the
    stored countdown is null or not positive a tick changes nothing. *)
Theorem countdown_decrements_stored_value (env : Env) (c : Z) :
  0 < c ->
  (forall s : Message.State,
      Message.countdown s = Some c ->
      Message.countdown (exec (Message.dispatch Message.Tick) env s) = Some (c - 1))
  /\ (forall s : Game.State,
      Game.countdown s = Some c ->
      Game.countdown (exec (Game.dispatch Game.Tick) env s) = Some (c - 1))
  /\ (forall (s : Message.State) (tr : list Call),
      Message.timerRunning s = false ->
      Message.dispatch Message.Tick env (s, tr) = (Resolved tt, (s, tr)))
  /\ (forall (s : Game.State) (tr : list Call),
      Game.timerRunning s = false ->
      Game.dispatch Game.Tick env (s, tr) = (Resolved tt, (s, tr))).
Proof.
  intros Hc. split; [| split; [| split]].
  - intros s Hs. unfold exec. rewrite message_tick_countdown.
    unfold Message.timerRunning. rewrite Hs.
    apply Z.ltb_lt in Hc. rewrite Hc. reflexivity.
  - intros s Hs.
    unfold exec, Game.dispatch, Game.handler, Game.tick, Game.countdownEffect,
      Game.timerRunning.
    task_run. rewrite Hs. apply Z.ltb_lt in Hc. rewrite Hc.
    cbn beta iota zeta delta [fst snd]. rewrite Hs.
    cbn [Game.countdown Game.set_countdown].
    destruct (c - 1) eqn:Hc1; try reflexivity.
    destruct (game_decryptMoves_frame env
                (Game.set_countdown (Some 0) s)
                (Game.set_countdown (Some 0) s) [])
      as (st' & extra & Heq & _ & _ & Hcd & _).
    destruct c as [|c|c]; try reflexivity;
      cbn beta iota zeta delta [fst snd]; rewrite Heq; simpl;
      rewrite Hcd; reflexivity.
  - intros s tr Hidle. rewrite message_tick_countdown, Hidle. reflexivity.
  - intros s tr Hidle. apply game_tick_idle. exact Hidle.
Qed.

Lemma countdown_decrements_stored_value_witness :
  0 < 122
  /\ Message.countdown
       (exec (Message.dispatch Message.Tick) (Sample.online 1010000) Sample.encrypted)
     = Some (122 - 1).
Proof.
  split; [lia |].
  apply (countdown_decrements_stored_value (Sample.online 1010000) 122);
    [lia | reflexivity].
Defined.

(* ================================================================== *)
(** * A failed key fetch *)







(* ================================================================== *)
(** * A failed registration *)

(** [encrypt] when the registration fails: the promise is rejected after
    the error message, the release timestamp and the countdown are written. *)
Lemma message_encrypt_registration_fails (env : Env) (e : Exn)
    (snap st : Message.State) (tr : list Call) :
  fetchShutterData env (Date_now env / 1000 + Api.DECRYPTION_DELAY) = inl e ->
  Message.encrypt snap env (st, tr)
  = (Rejected e,
     (Message.set_countdown (Some (Api.DECRYPTION_DELAY + 2))
        (Message.set_decryptionTimestamp
           (Some (Date_now env / 1000 + Api.DECRYPTION_DELAY))
           (Message.set_error "" st)),
      (tr ++ [CallFetchShutterData (Date_now env / 1000 + Api.DECRYPTION_DELAY)])%list)).
Proof.
  intros Hf. unfold Message.encrypt. task_run. rewrite Hf. reflexivity.
Qed.

(** The first [submitMove] when the registration fails: the promise is
    rejected after the error message and the release timestamp are written. *)
Lemma game_submitMove_registration_fails (env : Env) (e : Exn)
    (snap st : Game.State) (tr : list Call) (player : Game.Player)
    (chosen : Game.Move) :
  Game.move (Game.slot player (Game.players snap)) = Some chosen ->
  truthy_number (Game.encryptionTimestamp snap) = false ->
  fetchShutterData env (Date_now env / 1000 + Api.DECRYPTION_DELAY) = inl e ->
  Game.submitMove snap player env (st, tr)
  = (Rejected e,
     (Game.set_encryptionTimestamp
        (Some (Date_now env / 1000 + Api.DECRYPTION_DELAY))
        (Game.set_error "" st),
      (tr ++ [CallFetchShutterData (Date_now env / 1000 + Api.DECRYPTION_DELAY)])%list)).
Proof.
  intros Hm Hts Hf. unfold Game.submitMove. task_run.
  rewrite Hm, Hts. cbn beta iota zeta delta [fst snd negb].
  rewrite Hf. reflexivity.
Qed.

(** C7, as stated, fails when the registration service is down: [encrypt]
    is rejected, and the state after the attempt differs from the state
    before it (the release timestamp and the countdown are set). *)
Lemma registration_failure_retains_state :
  let s0 := Message.set_input "hello" Message.initial in
  let env := Sample.registrationDown 1000000 in
  outcome (Message.encrypt s0) env s0 = Rejected "HTTP error! Status: 503"
  /\ ~ (exec (Message.encrypt s0) env s0 = s0).
Proof.
  split; [reflexivity |]. vm_compute. discriminate.
Qed.

(** C7 (amended). If the registration call fails, the commit operation
    fails with that error, makes no encryption call, produces no
    commitment (the encrypted message, in the game the players' slots, is
    not written) and does not write the identity or the eon key; of the
    state, only the fields written before the registration call (error
    message, release timestamp, single-party countdown) can differ from
    the state before the attempt. *)
Theorem registration_failure_no_commitment (env : Env) (e : Exn) :
  fetchShutterData env (Date_now env / 1000 + Api.DECRYPTION_DELAY) = inl e ->
  (forall (snap st : Message.State) (tr : list Call),
      let r := Message.encrypt snap env (st, tr) in
      fst r = Rejected e
      /\ snd (snd r)
         = (tr ++ [CallFetchShutterData (Date_now env / 1000 + Api.DECRYPTION_DELAY)])%list
      /\ Message.encryptedMessage (fst (snd r)) = Message.encryptedMessage st
      /\ Message.identity (fst (snd r)) = Message.identity st
      /\ Message.input (fst (snd r)) = Message.input st
      /\ Message.decryptedMessage (fst (snd r)) = Message.decryptedMessage st)
  /\ (forall (snap st : Game.State) (tr : list Call) (player : Game.Player)
             (chosen : Game.Move),
      Game.move (Game.slot player (Game.players snap)) = Some chosen ->
      truthy_number (Game.encryptionTimestamp snap) = false ->
      let r := Game.submitMove snap player env (st, tr) in
      fst r = Rejected e
      /\ snd (snd r)
         = (tr ++ [CallFetchShutterData (Date_now env / 1000 + Api.DECRYPTION_DELAY)])%list
      /\ Game.players (fst (snd r)) = Game.players st
      /\ Game.identity (fst (snd r)) = Game.identity st
      /\ Game.eonKey (fst (snd r)) = Game.eonKey st
      /\ Game.countdown (fst (snd r)) = Game.countdown st
      /\ Game.result (fst (snd r)) = Game.result st).
Proof.
  intros Hf. split.
  - intros snap st tr r. subst r.
    rewrite (message_encrypt_registration_fails env e snap st tr Hf).
    repeat split.
  - intros snap st tr player chosen Hm Hts r. subst r.
    rewrite (game_submitMove_registration_fails env e snap st tr player chosen Hm Hts Hf).
    repeat split.
Qed.

Lemma registration_failure_no_commitment_witness :
  fetchShutterData (Sample.registrationDown 1000000)
    (Date_now (Sample.registrationDown 1000000) / 1000 + Api.DECRYPTION_DELAY)
  = inl "HTTP error! Status: 503"
  /\ Message.encryptedMessage
       (fst (snd (Message.encrypt Message.initial (Sample.registrationDown 1000000)
                    (Message.initial, []))))
     = Message.encryptedMessage Message.initial.
Proof.
  split; [reflexivity |].
  apply (proj1 (registration_failure_no_commitment
                  (Sample.registrationDown 1000000) "HTTP error! Status: 503"
                  eq_refl) Message.initial Message.initial []).
Defined.

(* ================================================================== *)
(** * Sessions of the game *)

(** The effect of the countdown writes only the error message and the
    result and issues only reveal calls. *)
Lemma game_countdownEffect_frame (env : Env) (before : option Z)
    (st : Game.State) (tr : list Call) :
  exists st' extra,
    Game.countdownEffect before env (st, tr) = (Resolved tt, (st', (tr ++ extra)%list))
    /\ Forall reveal_call extra
    /\ Game.players st' = Game.players st
    /\ Game.countdown st' = Game.countdown st
    /\ Game.encryptionTimestamp st' = Game.encryptionTimestamp st
    /\ Game.identity st' = Game.identity st
    /\ Game.eonKey st' = Game.eonKey st.
Proof.
  assert (Hcases :
    Game.countdownEffect before env (st, tr) = (Resolved tt, (st, tr))
    \/ Game.countdownEffect before env (st, tr)
       = (Resolved tt, snd (Game.decryptMoves st env (st, tr)))).
  { unfold Game.countdownEffect. task_run.
    destruct (Game.countdown st) as [[| |]|]; try destruct before as [[| |]|];
      auto. }
  destruct Hcases as [H | H]; rewrite H.
  - exists st, []. rewrite app_nil_r. repeat split. constructor.
  - destruct (game_decryptMoves_frame env st st tr)
      as (st' & extra & Heq & Hfr).
    rewrite Heq. exists st', extra. split; [reflexivity | exact Hfr].
Qed.

(** The four ways a [submitMove] of the latest render can end: no move
    selected; encryption under the cached pair; failed registration;
    registration followed by encryption under the registered pair.  In the
    two cases with an encryption the slot is recorded when the encryption
    succeeds. *)
Lemma game_submitMove_cases (env : Env) (snap st : Game.State)
    (tr : list Call) (player : Game.Player) :
  let ts := Date_now env / 1000 + Api.DECRYPTION_DELAY in
  let w' := snd (Game.submitMove snap player env (st, tr)) in
  (exists msg, w' = (Game.set_error msg st, tr))
  \/ (truthy_number (Game.encryptionTimestamp snap) = true
      /\ exists msgHex sigmaHex,
          let c := CallEncryptData msgHex (Game.identity snap) (Game.eonKey snap) sigmaHex in
          let st1 := Game.set_error "" st in
          w' = (st1, (tr ++ [c])%list)
          \/ exists enc, w' = (Game.recordSubmission player enc st1, (tr ++ [c])%list))
  \/ (truthy_number (Game.encryptionTimestamp snap) = false
      /\ w' = (Game.set_encryptionTimestamp (Some ts) (Game.set_error "" st),
               (tr ++ [CallFetchShutterData ts])%list))
  \/ (truthy_number (Game.encryptionTimestamp snap) = false
      /\ exists identityHex eonKeyHex msgHex sigmaHex,
          let c := CallEncryptData msgHex identityHex eonKeyHex sigmaHex in
          let st1 :=
            Game.set_eonKey eonKeyHex
              (Game.set_identity identityHex
                 (Game.set_encryptionTimestamp (Some ts) (Game.set_error "" st))) in
          w' = (st1, (tr ++ [CallFetchShutterData ts; c])%list)
          \/ exists enc,
              w' = (Game.recordSubmission player enc st1,
                    (tr ++ [CallFetchShutterData ts; c])%list)).
Proof.
  unfold Game.submitMove. task_run.
  destruct (Game.move (Game.slot player (Game.players snap))) as [chosen|];
    cbn beta iota zeta delta [fst snd];
    [| left; eexists; reflexivity].
  destruct (truthy_number (Game.encryptionTimestamp snap)) eqn:Hts;
    cbn beta iota zeta delta [fst snd negb].
  - right; left. split; [reflexivity |].
    do 2 eexists.
    break_match; [left | right; eexists]; reflexivity.
  - break_match.
    + right; right; left. split; reflexivity.
    + right; right; right. split; [reflexivity |].
      do 4 eexists. rewrite <- ?app_assoc.
      break_match; rewrite <- ?app_assoc; [left | right; eexists]; reflexivity.
Qed.

Lemma with_slot_same (p : Game.Player) (v : Game.PlayerState) (ps : Game.Players) :
  Game.slot p (Game.with_slot p v ps) = v.
Proof. destruct p; reflexivity. Qed.

Lemma with_slot_other (p q : Game.Player) (v : Game.PlayerState) (ps : Game.Players) :
  p <> q -> Game.slot p (Game.with_slot q v ps) = Game.slot p ps.
Proof. destruct p, q; intros H; try reflexivity; congruence. Qed.

(** A recorded submission touches only the slot of its player. *)
Lemma recordSubmission_other (p q : Game.Player) (enc : string) (s : Game.State) :
  p <> q ->
  Game.slot p (Game.players (Game.recordSubmission q enc s))
  = Game.slot p (Game.players s).
Proof.
  intros H. unfold Game.recordSubmission.
  cbn [Game.players Game.set_players]. apply with_slot_other. exact H.
Qed.

(** A recorded submission leaves the registration fields alone. *)
Lemma recordSubmission_registration (q : Game.Player) (enc : string) (s : Game.State) :
  Game.encryptionTimestamp (Game.recordSubmission q enc s) = Game.encryptionTimestamp s
  /\ Game.identity (Game.recordSubmission q enc s) = Game.identity s
  /\ Game.eonKey (Game.recordSubmission q enc s) = Game.eonKey s.
Proof.
  unfold Game.recordSubmission.
  destruct (Game.submitted _ && Game.submitted _); repeat split.
Qed.

(** Every handler resolves: the promise of a click is dropped. *)
Lemma game_handler_resolves (env : Env) (snap : Game.State) (ev : Game.Event)
    (w : Game.State * list Call) :
  fst (Game.handler snap ev env w) = Resolved tt.
Proof.
  destruct ev as [q v | q |]; unfold Game.handler, Game.handleMoveChange, Game.tick;
    task_run; repeat break_match; reflexivity.
Qed.

Lemma game_dispatch_eq (env : Env) (ev : Game.Event) (s : Game.State)
    (tr : list Call) :
  Game.dispatch ev env (s, tr)
  = Game.countdownEffect (Game.countdown s) env
      (snd (Game.handler s ev env (s, tr))).
Proof.
  unfold Game.dispatch. unfold bind at 1 2. unfold getState.
  cbn beta iota zeta delta [fst snd].
  pose proof (game_handler_resolves env s ev (s, tr)) as Hr.
  destruct (Game.handler s ev env (s, tr)) as [r w']. simpl in Hr. subst r.
  reflexivity.
Qed.

(** One event leaves a submitted slot submitted and its commitment as it is. *)
Lemma game_dispatch_keeps_commitment (env : Env) (ev : Game.Event)
    (s : Game.State) (tr : list Call) (p : Game.Player) :
  Game.submitted (Game.slot p (Game.players s)) = true ->
  let s' := fst (snd (Game.dispatch ev env (s, tr))) in
  Game.submitted (Game.slot p (Game.players s')) = true
  /\ Game.encryptedMove (Game.slot p (Game.players s'))
     = Game.encryptedMove (Game.slot p (Game.players s)).
Proof.
  intros Hsub s'. subst s'. rewrite game_dispatch_eq.
  destruct (Game.handler s ev env (s, tr)) as [r [s1 tr1]] eqn:Hh.
  destruct (game_countdownEffect_frame env (Game.countdown s) s1 tr1)
    as (s2 & extra & Heq & _ & Hpl & _).
  cbn [snd]. rewrite Heq. cbn [fst snd]. rewrite Hpl.
  assert (Hslot : Game.slot p (Game.players s1) = Game.slot p (Game.players s)
                  \/ exists v, Game.slot p (Game.players s1)
                     = {| Game.move := v;
                          Game.encryptedMove := Game.encryptedMove (Game.slot p (Game.players s));
                          Game.submitted := Game.submitted (Game.slot p (Game.players s)) |}).
  { destruct ev as [q v | q |]; unfold Game.handler in Hh.
    - unfold Game.handleMoveChange in Hh. task_run.
      inversion Hh; subst; clear Hh. cbn [Game.players Game.set_players].
      destruct p, q; cbn; eauto.
    - destruct (Game.submitted (Game.slot q (Game.players s))) eqn:Hq.
      + task_run. inversion Hh; subst. left; reflexivity.
      + assert (Hpq : p <> q) by (intros ->; congruence).
        unfold detached in Hh. injection Hh as _ Hw.
        left.
        destruct (game_submitMove_cases env s s tr q)
          as [[msg Hc] | [[_ (m & sg & [Hc | [enc Hc]])]
             | [[_ Hc] | [_ (i & k & m & sg & [Hc | [enc Hc]])]]]];
          cbv zeta in Hc; rewrite Hc in Hw; inversion Hw; subst;
          try reflexivity; rewrite recordSubmission_other by exact Hpq;
          reflexivity.
    - unfold Game.tick in Hh. task_run.
      destruct (Game.timerRunning s); inversion Hh; subst; left; reflexivity. }
  destruct Hslot as [-> | [v ->]]; cbn; auto.
Qed.

(** C8, as stated, fails for the chosen move: after player 1 has submitted
    rock, selecting paper changes the move of the submitted slot. *)
Lemma submitted_move_still_changes :
  let s := fst Sample.oneSubmitted in
  let s' := exec (Game.dispatch (Game.SelectMove Game.player1 (Some Game.paper)))
              (Sample.online 1001000) s in
  Game.submitted (Game.slot Game.player1 (Game.players s)) = true
  /\ ~ (Game.move (Game.slot Game.player1 (Game.players s'))
        = Game.move (Game.slot Game.player1 (Game.players s))).
Proof.
  split; [reflexivity |]. vm_compute. discriminate.
Qed.

(** When every handler runs to its end before the next event, a submitted
    slot stays submitted and keeps its encrypted commitment. *)
Lemma game_session_keeps_commitment (evs : list (Env * Game.Event))
    (s : Game.State) (tr : list Call) (p : Game.Player) :
  Game.submitted (Game.slot p (Game.players s)) = true ->
  let s' := fst (Game.session evs (s, tr)) in
  Game.submitted (Game.slot p (Game.players s')) = true
  /\ Game.encryptedMove (Game.slot p (Game.players s'))
     = Game.encryptedMove (Game.slot p (Game.players s)).
Proof.
  revert s tr. induction evs as [| [env ev] rest IH]; intros s tr Hsub.
  - simpl. auto.
  - cbn [Game.session].
    destruct (game_dispatch_keeps_commitment env ev s tr p Hsub) as [H1 H2].
    destruct (snd (Game.dispatch ev env (s, tr))) as [s1 tr1] eqn:Hd.
    cbn [fst] in H1, H2.
    destruct (IH s1 tr1 H1) as [H3 H4].
    split; [exact H3 | congruence].
Qed.

(* ================================================================== *)
(** * One registration, one pair *)

Lemma registrations_app (tr extra : list Call) :
  registrations (tr ++ extra) = (registrations tr + registrations extra)%nat.
Proof.
  unfold registrations. rewrite filter_app, length_app. reflexivity.
Qed.

Lemma registrations_reveal (tr : list Call) :
  Forall reveal_call tr -> registrations tr = 0%nat.
Proof.
  unfold registrations. induction 1 as [| c rest [Hc _] _ IH]; simpl.
  - reflexivity.
  - rewrite Hc. exact IH.
Qed.

Lemma reveal_call_encrypts_under (pair : string * string) (c : Call) :
  reveal_call c -> encrypts_under pair c.
Proof. intros [_ H] p Hp. congruence. Qed.

Lemma reveal_calls_encrypt_under (pair : string * string) (tr : list Call) :
  Forall reveal_call tr -> Forall (encrypts_under pair) tr.
Proof.
  intros H. eapply Forall_impl; [| exact H].
  intros c. apply reveal_call_encrypts_under.
Qed.

Lemma registration_encrypts_under (pair : string * string) (ts : Z) :
  encrypts_under pair (CallFetchShutterData ts).
Proof. intros p Hp. discriminate Hp. Qed.

Lemma encryption_encrypts_under (m i k sg : string) :
  encrypts_under (i, k) (CallEncryptData m i k sg).
Proof. intros p Hp. simpl in Hp. congruence. Qed.

(** A release timestamp computed from a clock that is not before the epoch
    is truthy. *)
Lemma fresh_timestamp_truthy (env : Env) :
  0 <= Date_now env ->
  truthy_number (Some (Date_now env / 1000 + Api.DECRYPTION_DELAY)) = true.
Proof.
  intros H. apply truthy_number_Some. unfold Api.DECRYPTION_DELAY.
  assert (0 <= Date_now env / 1000) by (apply Z.div_pos; lia). lia.
Qed.

(** The invariant survives any trace extension by reveal calls that leaves
    the registration fields alone. *)
Lemma sharedPair_reveal (s s' : Game.State) (tr extra : list Call) :
  Game.sharedPair (s, tr) ->
  Forall reveal_call extra ->
  Game.encryptionTimestamp s' = Game.encryptionTimestamp s ->
  Game.identity s' = Game.identity s ->
  Game.eonKey s' = Game.eonKey s ->
  Game.sharedPair (s', (tr ++ extra)%list).
Proof.
  unfold Game.sharedPair. cbn [fst snd].
  intros (Hreg & Henc & Hnone) Hex Hts Hid Hk.
  rewrite Hts, Hid, Hk. repeat split.
  - rewrite registrations_app, (registrations_reveal extra Hex). lia.
  - apply Forall_app. split; [exact Henc |].
    apply reveal_calls_encrypt_under. exact Hex.
  - intros Hn. apply Forall_app. split; [apply Hnone; exact Hn | exact Hex].
Qed.

(** An encryption under the cached pair, once a release timestamp exists. *)
Lemma sharedPair_cached (s s' : Game.State) (tr : list Call) (m sg : string) :
  Game.sharedPair (s, tr) ->
  truthy_number (Game.encryptionTimestamp s) = true ->
  Game.encryptionTimestamp s' = Game.encryptionTimestamp s ->
  Game.identity s' = Game.identity s ->
  Game.eonKey s' = Game.eonKey s ->
  Game.sharedPair
    (s', (tr ++ [CallEncryptData m (Game.identity s) (Game.eonKey s) sg])%list).
Proof.
  unfold Game.sharedPair. cbn [fst snd].
  intros (Hreg & Henc & Hnone) Htr Hts Hid Hk.
  rewrite Hts, Hid, Hk. repeat split.
  - rewrite registrations_app. cbn. lia.
  - apply Forall_app. split; [exact Henc |].
    repeat constructor. apply encryption_encrypts_under.
  - congruence.
Qed.

(** The first registration, with or without the encryption behind it. *)
Lemma sharedPair_registered (s s' : Game.State) (tr extra : list Call) (ts : Z) :
  Game.sharedPair (s, tr) ->
  truthy_number (Game.encryptionTimestamp s) = false ->
  truthy_number (Game.encryptionTimestamp s') = true ->
  Forall (encrypts_under (Game.identity s', Game.eonKey s')) extra ->
  registrations extra = 0%nat ->
  Game.sharedPair (s', (tr ++ CallFetchShutterData ts :: extra)%list).
Proof.
  unfold Game.sharedPair. cbn [fst snd].
  intros (Hreg & Henc & Hnone) Hf Ht Hex Hr.
  specialize (Hnone Hf). repeat split.
  - rewrite registrations_app, (registrations_reveal tr Hnone).
    change (registrations (CallFetchShutterData ts :: extra))
      with (S (registrations extra)).
    rewrite Hr. lia.
  - apply Forall_app. split.
    + apply reveal_calls_encrypt_under. exact Hnone.
    + constructor; [apply registration_encrypts_under | exact Hex].
  - congruence.
Qed.

(** Every handler of the latest render preserves the invariant. *)
Lemma game_handler_sharedPair (env : Env) (ev : Game.Event) (s : Game.State)
    (tr : list Call) :
  0 <= Date_now env ->
  Game.sharedPair (s, tr) ->
  Game.sharedPair (snd (Game.handler s ev env (s, tr))).
Proof.
  intros Hclock Hinv.
  assert (Hsame : forall s', Game.encryptionTimestamp s' = Game.encryptionTimestamp s ->
                    Game.identity s' = Game.identity s ->
                    Game.eonKey s' = Game.eonKey s ->
                    Game.sharedPair (s', tr)).
  { intros s' H1 H2 H3.
    rewrite <- (app_nil_r tr). apply (sharedPair_reveal s s'); auto. }
  destruct ev as [q v | q |]; unfold Game.handler.
  - unfold Game.handleMoveChange. task_run. apply Hsame; reflexivity.
  - destruct (Game.submitted (Game.slot q (Game.players s))).
    + task_run. exact Hinv.
    + unfold detached. cbn [snd].
      pose proof (fresh_timestamp_truthy env Hclock) as Hfresh.
      destruct (game_submitMove_cases env s s tr q)
        as [[msg Hc] | [[Ht (m & sg & [Hc | [enc Hc]])]
           | [[Hf Hc] | [Hf (i & k & m & sg & [Hc | [enc Hc]])]]]];
        cbv zeta in Hc; rewrite Hc.
      * apply Hsame; reflexivity.
      * apply sharedPair_cached; auto.
      * destruct (recordSubmission_registration q enc (Game.set_error "" s))
          as (H1 & H2 & H3).
        apply sharedPair_cached; auto.
      * apply (sharedPair_registered s); auto.
      * apply (sharedPair_registered s); auto.
        repeat constructor. apply encryption_encrypts_under.
      * match goal with
        | |- Game.sharedPair (Game.recordSubmission _ _ ?st, _) =>
            destruct (recordSubmission_registration q enc st) as (H1 & H2 & H3)
        end.
        apply (sharedPair_registered s); auto.
        -- rewrite H1. exact Hfresh.
        -- rewrite H2, H3. repeat constructor. apply encryption_encrypts_under.
  - unfold Game.tick. task_run.
    destruct (Game.timerRunning s); cbn [snd]; [| exact Hinv].
    apply Hsame; reflexivity.
Qed.

(** One event preserves the invariant. *)
Lemma game_dispatch_sharedPair (env : Env) (ev : Game.Event)
    (w : Game.State * list Call) :
  0 <= Date_now env ->
  Game.sharedPair w ->
  Game.sharedPair (snd (Game.dispatch ev env w)).
Proof.
  destruct w as [s tr]. intros Hclock Hinv.
  rewrite game_dispatch_eq.
  pose proof (game_handler_sharedPair env ev s tr Hclock Hinv) as H1.
  destruct (snd (Game.handler s ev env (s, tr))) as [s1 tr1].
  destruct (game_countdownEffect_frame env (Game.countdown s) s1 tr1)
    as (s2 & extra & Heq & Hex & _ & _ & Hts & Hid & Hk).
  rewrite Heq. cbn [snd]. apply (sharedPair_reveal s1); assumption.
Qed.

(** A session preserves the invariant. *)
Lemma game_session_sharedPair (evs : list (Env * Game.Event))
    (w : Game.State * list Call) :
  Forall (fun e => 0 <= Date_now (fst e)) evs ->
  Game.sharedPair w ->
  Game.sharedPair (Game.session evs w).
Proof.
  revert w. induction evs as [| [env ev] rest IH]; intros w Hclock Hinv.
  - exact Hinv.
  - inversion Hclock as [| e l Hhd Htl]; subst. cbn [Game.session].
    apply IH; [exact Htl |].
    apply game_dispatch_sharedPair; assumption.
Qed.

Lemma sharedPair_initial : Game.sharedPair (Game.initial, []).
Proof.
  unfold Game.sharedPair. cbn. repeat split; auto.
Qed.

(** Once a release timestamp exists, [submitMove] registers nothing,
    encrypts under the pair of its render, and leaves the registration
    fields of the store alone. *)
Lemma game_submitMove_reuses_pair (env : Env) (snap st : Game.State)
    (tr : list Call) (player : Game.Player) :
  truthy_number (Game.encryptionTimestamp snap) = true ->
  let w' := snd (Game.submitMove snap player env (st, tr)) in
  exists extra,
    snd w' = (tr ++ extra)%list
    /\ registrations extra = 0%nat
    /\ Forall (encrypts_under (Game.identity snap, Game.eonKey snap)) extra
    /\ Game.encryptionTimestamp (fst w') = Game.encryptionTimestamp st
    /\ Game.identity (fst w') = Game.identity st
    /\ Game.eonKey (fst w') = Game.eonKey st.
Proof.
  intros Ht w'. subst w'.
  destruct (game_submitMove_cases env snap st tr player)
    as [[msg Hc] | [[_ (m & sg & [Hc | [enc Hc]])]
       | [[Hf _] | [Hf _]]]];
    try congruence; cbv zeta in Hc; rewrite Hc; cbn [fst snd].
  - exists []. rewrite app_nil_r. repeat split. constructor.
  - eexists. split; [reflexivity |]. repeat split.
    repeat constructor. apply encryption_encrypts_under.
  - destruct (recordSubmission_registration player enc (Game.set_error "" st))
      as (H1 & H2 & H3).
    eexists. split; [reflexivity |]. rewrite H1, H2, H3. repeat split.
    repeat constructor. apply encryption_encrypts_under.
Qed.

(** Without a release timestamp, [submitMove] of a selected move starts
    with the registration for the current time plus the delay. *)
Lemma game_submitMove_registers_first (env : Env) (snap st : Game.State)
    (tr : list Call) (player : Game.Player) (chosen : Game.Move) :
  Game.move (Game.slot player (Game.players snap)) = Some chosen ->
  truthy_number (Game.encryptionTimestamp snap) = false ->
  exists extra,
    snd (snd (Game.submitMove snap player env (st, tr)))
    = (tr ++ CallFetchShutterData (Date_now env / 1000 + Api.DECRYPTION_DELAY)
          :: extra)%list
    /\ registrations extra = 0%nat.
Proof.
  intros Hm Hf. unfold Game.submitMove. task_run. rewrite Hm, Hf.
  cbn beta iota zeta delta [fst snd negb].
  repeat break_match; rewrite <- ?app_assoc; eexists; split;
    try reflexivity; reflexivity.
Qed.

(** When every handler runs to its end before the next event and the
    clock is not before the epoch, at most one registration is issued and
    all encryptions are made under one and the same [(identity, eonKey)]
    pair: [submitMove] registers when no release timestamp exists yet, and
    once one exists every submission registers nothing and encrypts under
    the cached pair. *)
Lemma game_session_shared_identity (evs : list (Env * Game.Event)) :
  Forall (fun e => 0 <= Date_now (fst e)) evs ->
  let w := Game.session evs (Game.initial, []) in
  (registrations (snd w) <= 1)%nat
  /\ (forall c1 c2 p1 p2,
         In c1 (snd w) -> In c2 (snd w) ->
         encryption_pair c1 = Some p1 -> encryption_pair c2 = Some p2 ->
         p1 = p2)
  /\ (forall env snap st tr player chosen,
         Game.move (Game.slot player (Game.players snap)) = Some chosen ->
         truthy_number (Game.encryptionTimestamp snap) = false ->
         exists extra,
           snd (snd (Game.submitMove snap player env (st, tr)))
           = (tr ++ CallFetchShutterData (Date_now env / 1000 + Api.DECRYPTION_DELAY)
                 :: extra)%list
           /\ registrations extra = 0%nat)
  /\ (forall env snap st tr player,
         truthy_number (Game.encryptionTimestamp snap) = true ->
         let w' := snd (Game.submitMove snap player env (st, tr)) in
         exists extra,
           snd w' = (tr ++ extra)%list
           /\ registrations extra = 0%nat
           /\ Forall (encrypts_under (Game.identity snap, Game.eonKey snap)) extra
           /\ Game.encryptionTimestamp (fst w') = Game.encryptionTimestamp st
           /\ Game.identity (fst w') = Game.identity st
           /\ Game.eonKey (fst w') = Game.eonKey st).
Proof.
  intros Hclock w.
  destruct (game_session_sharedPair evs (Game.initial, []) Hclock sharedPair_initial)
    as (Hreg & Henc & _).
  fold w in Hreg, Henc.
  split; [exact Hreg |]. split; [| split].
  - intros c1 c2 p1 p2 Hin1 Hin2 Hp1 Hp2.
    rewrite Forall_forall in Henc.
    rewrite (Henc c1 Hin1 p1 Hp1), (Henc c2 Hin2 p2 Hp2). reflexivity.
  - intros. eapply game_submitMove_registers_first; eassumption.
  - intros. apply game_submitMove_reuses_pair. assumption.
Qed.

(* ================================================================== *)
(** * The hello-world variant *)

(** [encrypt] of the hello-world variant writes no state. *)
Lemma helloworld_encrypt_writes_nothing (env : Env) (snap st : HelloWorld.State)
    (tr : list Call) :
  fst (snd (HelloWorld.encrypt snap env (st, tr))) = st.
Proof.
  unfold HelloWorld.encrypt. task_run. repeat break_match; reflexivity.
Qed.

(** C10. In the hello-world variant [decrypt] issues no call (neither the
    key fetch nor the decryption primitive): if [atob] accepts the input
    field it sets the output to ["Decrypted: "] followed by the Base64
    decoding of the input, and otherwise to
    ["Decryption failed: Invalid input"]; the result depends on nothing
    but the input field and [atob], whatever registry, keys and primitives
    the environment holds and whatever was encrypted before. *)
Theorem helloworld_decrypt_is_base64 (env : Env) (snap st : HelloWorld.State)
    (tr : list Call) :
  HelloWorld.decrypt snap env (st, tr)
  = (Resolved tt,
     (HelloWorld.set_output
        (match atob env (HelloWorld.input snap) with
         | inr decoded => "Decrypted: " ++ decoded
         | inl _ => "Decryption failed: Invalid input"
         end) st,
      tr))
  /\ (forall now registry keys primitive decryption entropy,
         HelloWorld.decrypt snap
           {| Date_now := now; fetchShutterData := registry;
              fetchDecryptionKey := keys; encryptData := primitive;
              shutterDecrypt := decryption; getRandomValues := entropy;
              atob := atob env |} (st, tr)
         = HelloWorld.decrypt snap env (st, tr))
  /\ (forall env',
         fst (snd (HelloWorld.decrypt snap env
                     (fst (snd (HelloWorld.encrypt snap env' (st, tr))), tr)))
         = fst (snd (HelloWorld.decrypt snap env (st, tr)))).
Proof.
  split; [| split].
  - unfold HelloWorld.decrypt, HelloWorld.atob_. task_run.
    destruct (atob env (HelloWorld.input snap)); reflexivity.
  - intros. unfold HelloWorld.decrypt, HelloWorld.atob_. task_run.
    cbn [atob]. reflexivity.
  - intros env'. rewrite helloworld_encrypt_writes_nothing. reflexivity.
Qed.

(* ================================================================== *)
(** * End-to-end runs *)

(** The sample state of the single-party application, field by field. *)
Example sample_encrypted_state :
  Sample.encrypted
  = {| Message.input := "hello";
       Message.encryptedMessage := "0x68656c6c6f";
       Message.decryptedMessage := "";
       Message.countdown := Some 122;
       Message.decryptionTimestamp := Some 1120;
       Message.identity := "0x1d";
       Message.error := "" |}.
Proof. vm_compute. reflexivity. Qed.

(** The sample state of the game after the first submission, and the calls
    issued so far. *)
Example sample_oneSubmitted_state :
  Sample.oneSubmitted
  = ({| Game.players :=
          {| Game.slot1 := {| Game.move := Some Game.rock;
                              Game.encryptedMove := "0x726f636b";
                              Game.submitted := true |};
             Game.slot2 := Game.emptySlot |};
        Game.countdown := None;
        Game.encryptionTimestamp := Some 1120;
        Game.identity := "0x1d";
        Game.eonKey := "0xe0";
        Game.error := "";
        Game.result := "" |},
     [CallFetchShutterData 1120;
      CallEncryptData "0x726f636b" "0x1d" "0xe0" "0x"]).
Proof. vm_compute. reflexivity. Qed.

(** Player 1 submits rock at second 1000, player 2 scissors at second 1030;
    the countdown of 122 ticks ends at second 1152, past the margin, and
    the moves resolve to a win of player 1. *)
Example game_rock_scissors_run :
  Game.result
    (fst (Game.session
            (map (fun n => (Sample.online (1030000 + 1000 * Z.of_nat n), Game.Tick))
               (seq 1 122))
            (Game.session
               [(Sample.online 1030000, Game.SelectMove Game.player2 (Some Game.scissors));
                (Sample.online 1030000, Game.ClickSubmit Game.player2)]
               Sample.oneSubmitted)))
  = "Player 1 wins!".
Proof. vm_compute. reflexivity. Qed.

(** When both players submit in the same second, the countdown ends at
    second 1122, before the margin has elapsed: the reveal is blocked, and
    with the countdown at zero no further tick fires. *)
Example game_countdown_ends_early :
  let w := Game.session
             (map (fun n => (Sample.online (1000000 + 1000 * Z.of_nat n), Game.Tick))
                (seq 1 122))
             Sample.bothSubmitted in
  Game.countdown (fst w) = Some 0
  /\ Game.result (fst w) = ""
  /\ Game.error (fst w) = "Please wait before decryption key is available".
Proof. vm_compute. repeat split. Qed.

(** The single-party application: ["hello"] encrypted at second 1000 is
    decrypted at second 1125. *)
Example message_hello_run :
  Message.decryptedMessage
    (exec (Message.decrypt Sample.encrypted) (Sample.online 1125000) Sample.encrypted)
  = "hello".
Proof. vm_compute. reflexivity. Qed.

(* ================================================================== *)
(** * The helpers of src/utils.ts *)

Lemma prefix_0x_append (value : string) :
  String.prefix "0x" ("0x" ++ value) = true.
Proof.
  simpl. repeat (destruct (ascii_dec _ _); [| congruence]).
  destruct value; reflexivity.
Qed.

(** [ensureHexString] always yields a string that starts with [0x] (so a
    nonempty one), is idempotent, and changes its argument exactly when
    the argument does not start with [0x], by putting the marker in front. *)
Theorem ensureHexString_normalizes (value : string) :
  String.prefix "0x" (Utils.ensureHexString value) = true
  /\ truthy_string (Utils.ensureHexString value) = true
  /\ Utils.ensureHexString (Utils.ensureHexString value)
     = Utils.ensureHexString value
  /\ (Utils.ensureHexString value = value <-> String.prefix "0x" value = true)
  /\ (String.prefix "0x" value = false ->
      Utils.ensureHexString value = "0x" ++ value).
Proof.
  assert (Hp : String.prefix "0x" (Utils.ensureHexString value) = true).
  { unfold Utils.ensureHexString.
    destruct (String.prefix "0x" value) eqn:E; [exact E | apply prefix_0x_append]. }
  split; [exact Hp |]. split; [| split; [| split]].
  - destruct (Utils.ensureHexString value); [discriminate Hp | reflexivity].
  - unfold Utils.ensureHexString at 1. rewrite Hp. reflexivity.
  - split.
    + intros H. rewrite <- H. exact Hp.
    + intros H. unfold Utils.ensureHexString. rewrite H. reflexivity.
  - intros H. unfold Utils.ensureHexString. rewrite H. reflexivity.
Qed.

Lemma hexOfBytes_length (bytes : string) :
  String.length (Viem.hexOfBytes bytes) = (2 * String.length bytes)%nat.
Proof.
  induction bytes as [| b rest IH]; simpl; [reflexivity |].
  rewrite IH. lia.
Qed.

(** [generateRandomBytes32] writes two hex digits per drawn byte behind the
    marker: for 32 bytes a string of 66 characters that already starts
    with [0x], and different bytes give different strings. *)
Theorem generateRandomBytes32_shape (bytes : string) :
  String.length (Utils.generateRandomBytes32 bytes)
  = (2 + 2 * String.length bytes)%nat
  /\ (String.length bytes = 32%nat ->
      String.length (Utils.generateRandomBytes32 bytes) = 66%nat)
  /\ Utils.ensureHexString (Utils.generateRandomBytes32 bytes)
     = Utils.generateRandomBytes32 bytes
  /\ (forall other,
         Utils.generateRandomBytes32 bytes = Utils.generateRandomBytes32 other ->
         bytes = other).
Proof.
  assert (Hlen : String.length (Utils.generateRandomBytes32 bytes)
                 = (2 + 2 * String.length bytes)%nat).
  { unfold Utils.generateRandomBytes32. simpl. rewrite hexOfBytes_length. lia. }
  split; [exact Hlen |]. split; [| split].
  - intros H32. rewrite Hlen, H32. reflexivity.
  - unfold Utils.ensureHexString, Utils.generateRandomBytes32.
    rewrite prefix_0x_append. reflexivity.
  - intros other H. unfold Utils.generateRandomBytes32 in H. simpl in H.
    injection H as H.
    pose proof (bytesOfHex_hexOfBytes bytes) as H1.
    rewrite H, bytesOfHex_hexOfBytes in H1. congruence.
Qed.

Lemma generateRandomBytes32_shape_witness :
  String.length "abcdefghijklmnopqrstuvwxyz012345" = 32%nat
  /\ String.length (Utils.generateRandomBytes32 "abcdefghijklmnopqrstuvwxyz012345")
     = 66%nat.
Proof.
  split; [reflexivity |].
  apply (generateRandomBytes32_shape "abcdefghijklmnopqrstuvwxyz012345").
  reflexivity.
Defined.

(* ================================================================== *)
(** * The resolver on arbitrary strings *)

Lemma moveString_beats (m1 m2 : string) :
  Game.lookup m1 Game.winningCombinations = Some m2 <->
  exists a b, m1 = Game.moveString a /\ m2 = Game.moveString b
              /\ Game.spec_beats a b = true.
Proof.
  split.
  - unfold Game.winningCombinations. cbn [Game.lookup].
    destruct (String.eqb_spec "rock" m1) as [<- |];
      [intros H; injection H as <-; exists Game.rock, Game.scissors; auto |].
    destruct (String.eqb_spec "paper" m1) as [<- |];
      [intros H; injection H as <-; exists Game.paper, Game.rock; auto |].
    destruct (String.eqb_spec "scissors" m1) as [<- |];
      [intros H; injection H as <-; exists Game.scissors, Game.paper; auto |].
    discriminate.
  - intros (a & b & -> & -> & Hb). destruct a, b; try discriminate Hb; reflexivity.
Qed.

(** On the strings it really receives, [determineWinner] announces a tie
    exactly for equal strings, a win of player 1 exactly when both strings
    are moves and the first beats the second, and a win of player 2 in
    every other case: a string that is no move loses as the first argument
    and wins as the second. *)
Theorem determineWinner_on_strings (move1 move2 : string) :
  (Game.determineWinner move1 move2 = "It's a tie!" <-> move1 = move2)
  /\ (Game.determineWinner move1 move2 = "Player 1 wins!" <->
      exists a b, move1 = Game.moveString a /\ move2 = Game.moveString b
                  /\ Game.spec_beats a b = true)
  /\ (Game.determineWinner move1 move2 = "Player 2 wins!" <->
      move1 <> move2
      /\ ~ exists a b, move1 = Game.moveString a /\ move2 = Game.moveString b
                       /\ Game.spec_beats a b = true).
Proof.
  pose proof (moveString_beats move1 move2) as Hb.
  assert (Hirr : forall a b, Game.moveString a = Game.moveString b ->
                             Game.spec_beats a b = false).
  { intros a b. destruct a, b; simpl; congruence. }
  unfold Game.determineWinner.
  destruct (String.eqb_spec move1 move2) as [Heq | Hne].
  - repeat split; try discriminate; auto.
    + intros (a & b & H1 & H2 & H3). rewrite H1, H2 in Heq.
      rewrite (Hirr a b Heq) in H3. discriminate.
    + intros [H _]. contradiction.
  - destruct (Game.lookup move1 Game.winningCombinations) as [beaten |] eqn:Hl.
    + destruct (String.eqb_spec beaten move2) as [-> | Hnb].
      * apply proj1 in Hb. specialize (Hb eq_refl).
        repeat split; try discriminate; auto; try contradiction.
        intros [_ H]. contradiction.
      * assert (Hno : ~ exists a b, move1 = Game.moveString a
                        /\ move2 = Game.moveString b /\ Game.spec_beats a b = true).
        { intros H. apply Hb in H. congruence. }
        repeat split; try discriminate; auto; try contradiction.
    + assert (Hno : ~ exists a b, move1 = Game.moveString a
                      /\ move2 = Game.moveString b /\ Game.spec_beats a b = true).
      { intros H. apply Hb in H. discriminate. }
      repeat split; try discriminate; auto; try contradiction.
Qed.

(* ================================================================== *)
(** * The single-party application, end to end *)

Lemma message_dispatch_click (env : Env) (s : Message.State) (tr : list Call) :
  Message.dispatch Message.ClickEncrypt env (s, tr)
  = (Resolved tt, snd (Message.encrypt s env (s, tr)))
  /\ Message.dispatch Message.ClickDecrypt env (s, tr)
     = (Resolved tt, snd (Message.decrypt s env (s, tr)))
  /\ (forall text, Message.dispatch (Message.TypeInput text) env (s, tr)
                   = (Resolved tt, (Message.set_input text s, tr))).
Proof. repeat split. Qed.

(** [encrypt] when the registration and the encryption succeed. *)
Lemma message_encrypt_succeeds (env : Env) (snap st : Message.State)
    (tr : list Call) (sd : Api.ShutterData) (commitment : string) :
  let ts := Date_now env / 1000 + Api.DECRYPTION_DELAY in
  let identityHex := Utils.ensureHexString (Api.identity sd) in
  let eonKeyHex := Utils.ensureHexString (Api.eon_key sd) in
  let msgHex := Viem.stringToHex (Message.input snap) in
  let sigmaHex := Utils.generateRandomBytes32 (getRandomValues env 32) in
  fetchShutterData env ts = inr sd ->
  encryptData env msgHex identityHex eonKeyHex sigmaHex = inr commitment ->
  Message.encrypt snap env (st, tr)
  = (Resolved tt,
     (Message.set_encryptedMessage commitment
        (Message.set_identity identityHex
           (Message.set_countdown (Some (Api.DECRYPTION_DELAY + 2))
              (Message.set_decryptionTimestamp (Some ts)
                 (Message.set_error "" st)))),
      (tr ++ [CallFetchShutterData ts;
              CallEncryptData msgHex identityHex eonKeyHex sigmaHex])%list)).
Proof.
  intros ts identityHex eonKeyHex msgHex sigmaHex Hf He.
  unfold Message.encrypt. task_run. fold ts. rewrite Hf.
  cbn beta iota zeta delta [fst snd].
  fold identityHex eonKeyHex msgHex sigmaHex. rewrite He.
  cbn beta iota zeta delta [fst snd]. rewrite <- app_assoc. reflexivity.
Qed.

(** Decoding of the payload of a move, as the handlers use it. *)
Lemma hexToString_move (a : Game.Move) :
  Viem.hexToString (Viem.stringToHex (Game.moveString a))
  = Some (Game.moveString a).
Proof. destruct a; reflexivity. Qed.

(** [decrypt] when the guard passes, the key is fetched and the primitive
    returns the payload of a text: the decoded payload is stored. *)
Lemma message_decrypt_succeeds (env : Env) (snap st : Message.State)
    (tr : list Call) (kd : Api.DecryptionKeyData) (text : string) :
  let decryptionKey := Utils.ensureHexString (Api.decryption_key kd) in
  truthy_string (Message.identity snap) = true ->
  revealBlocked (Message.decryptionTimestamp snap) (Date_now env / 1000) = false ->
  fetchDecryptionKey env (Message.identity snap) = inr kd ->
  shutterDecrypt env (Message.encryptedMessage snap) decryptionKey
  = inr (Viem.stringToHex text) ->
  Message.decrypt snap env (st, tr)
  = (Resolved tt,
     (Message.set_decryptedMessage (Viem.textDecode text)
        (Message.set_error "" st),
      (tr ++ [CallFetchDecryptionKey (Message.identity snap);
              CallShutterDecrypt (Message.encryptedMessage snap) decryptionKey])%list)).
Proof.
  intros decryptionKey Hid Hb Hf Hd.
  unfold Message.decrypt. task_run. rewrite Hid.
  cbn beta iota zeta delta [fst snd negb]. rewrite Hb, Hf.
  cbn beta iota zeta delta [fst snd]. fold decryptionKey. rewrite Hd.
  cbn beta iota zeta delta [fst snd]. rewrite hexToString_stringToHex.
  cbn beta iota zeta delta [fst snd]. rewrite <- app_assoc. reflexivity.
Qed.

Lemma ensureHexString_truthy (value : string) :
  String.prefix "0x" (Utils.ensureHexString value) = true
  /\ truthy_string (Utils.ensureHexString value) = true
  /\ Utils.ensureHexString value <> "".
Proof.
  assert (Hp : String.prefix "0x" (Utils.ensureHexString value) = true).
  { unfold Utils.ensureHexString.
    destruct (String.prefix "0x" value) eqn:E; [exact E | apply prefix_0x_append]. }
  split; [exact Hp |].
  destruct (Utils.ensureHexString value); [discriminate Hp |].
  split; [reflexivity | discriminate].
Qed.

(** With a nonzero timestamp, a blocking guard means that the margin has
    not elapsed. *)
Lemma revealBlocked_true_inv (R now : Z) :
  R <> 0 -> revealBlocked (Some R) now = true -> now < R + 5.
Proof.
  intros HR. unfold revealBlocked.
  apply truthy_number_Some in HR. rewrite HR. simpl.
  apply Z.ltb_lt.
Qed.

(** Encrypting and then decrypting returns the text, up to a leading byte
    order mark.  When the typed text is well-formed, the clock of the
    encryption is not before the epoch, the registration and the
    encryption succeed, the key of the registered identity is fetched at or
    after the release time plus five seconds, and the primitive decrypts
    the commitment to the payload it was made from, a click on Encrypt
    followed by a click on Decrypt ends with the typed text without a
    leading U+FEFF as the decrypted message (the typed text itself when it
    does not start with U+FEFF) and without an error, after exactly four
    calls: registration, encryption, key fetch, decryption. *)
Theorem message_encrypt_then_decrypt (envE envD : Env) (s0 : Message.State)
    (sd : Api.ShutterData) (kd : Api.DecryptionKeyData) (commitment : string) :
  let ts := Date_now envE / 1000 + Api.DECRYPTION_DELAY in
  let identityHex := Utils.ensureHexString (Api.identity sd) in
  let eonKeyHex := Utils.ensureHexString (Api.eon_key sd) in
  let msgHex := Viem.stringToHex (Message.input s0) in
  let sigmaHex := Utils.generateRandomBytes32 (getRandomValues envE 32) in
  let decryptionKey := Utils.ensureHexString (Api.decryption_key kd) in
  Viem.validUtf8 (Message.input s0) = true ->
  0 <= Date_now envE ->
  fetchShutterData envE ts = inr sd ->
  encryptData envE msgHex identityHex eonKeyHex sigmaHex = inr commitment ->
  ts + 5 <= Date_now envD / 1000 ->
  fetchDecryptionKey envD identityHex = inr kd ->
  shutterDecrypt envD commitment decryptionKey = inr msgHex ->
  let w := Run.messageSession
             [(envE, Message.ClickEncrypt); (envD, Message.ClickDecrypt)]
             (s0, []) in
  Message.decryptedMessage (fst w) = Viem.stripBOM (Message.input s0)
  /\ (Viem.startsWithBOM (Message.input s0) = false ->
      Message.decryptedMessage (fst w) = Message.input s0)
  /\ Message.error (fst w) = ""
  /\ Message.encryptedMessage (fst w) = commitment
  /\ Message.identity (fst w) = identityHex
  /\ snd w = [CallFetchShutterData ts;
              CallEncryptData msgHex identityHex eonKeyHex sigmaHex;
              CallFetchDecryptionKey identityHex;
              CallShutterDecrypt commitment decryptionKey].
Proof.
  intros ts identityHex eonKeyHex msgHex sigmaHex decryptionKey
    Hvalid Hclock Hreg Henc Hready Hkey Hdec w.
  subst w. cbn [Run.messageSession].
  destruct (message_dispatch_click envE s0 []) as (-> & _ & _).
  cbn [snd].
  rewrite (message_encrypt_succeeds envE s0 s0 [] sd commitment Hreg Henc).
  cbn [snd]. fold ts identityHex eonKeyHex msgHex sigmaHex.
  match goal with
  | |- context [Message.dispatch Message.ClickDecrypt envD (?s, ?tr)] =>
      destruct (message_dispatch_click envD s tr) as (_ & -> & _);
      rewrite (message_decrypt_succeeds envD s s tr kd (Message.input s0))
  end.
  - cbn [fst snd Message.decryptedMessage Message.set_decryptedMessage].
    rewrite (textDecode_valid _ Hvalid).
    split; [reflexivity |]. split; [| repeat split].
    intros Hb. unfold Viem.stripBOM. rewrite Hb. reflexivity.
  - apply (proj1 (proj2 (ensureHexString_truthy (Api.identity sd)))).
  - cbn [Message.decryptionTimestamp Message.set_encryptedMessage
         Message.set_identity Message.set_countdown
         Message.set_decryptionTimestamp].
    destruct (revealBlocked (Some ts) (Date_now envD / 1000)) eqn:Hb;
      [| reflexivity].
    assert (Hts : ts <> 0).
    { apply truthy_number_Some. apply fresh_timestamp_truthy. exact Hclock. }
    apply (revealBlocked_true_inv ts _ Hts) in Hb. lia.
  - exact Hkey.
  - exact Hdec.
Qed.

Lemma message_encrypt_then_decrypt_witness :
  Viem.validUtf8 "hello" = true
  /\ Message.decryptedMessage
       (fst (Run.messageSession
               [(Sample.online 1000000, Message.ClickEncrypt);
                (Sample.online 1125000, Message.ClickDecrypt)]
               (Message.set_input "hello" Message.initial, [])))
     = Viem.stripBOM "hello".
Proof.
  split; [reflexivity |].
  apply (message_encrypt_then_decrypt
           (Sample.online 1000000) (Sample.online 1125000)
           (Message.set_input "hello" Message.initial)
           {| Api.eon_key := "0xe0"; Api.identity := "0x1d" |}
           {| Api.decryption_key := "0xdk" |}
           (Viem.stringToHex "hello"));
    try reflexivity; vm_compute; discriminate.
Defined.

(* ================================================================== *)
(** * Sessions of the single-party application *)

Lemma message_set_countdown_eta (s : Message.State) (c : option Z) :
  Message.countdown s = c -> Message.set_countdown c s = s.
Proof. destruct s. simpl. intros ->. reflexivity. Qed.

(** The timer counts down to zero and stops there: after any number of
    ticks the displayed countdown is the start value minus the number of
    ticks, but not below zero, whatever the clocks read; nothing else
    changes and no call is made. *)
Theorem message_ticks_count_down (envs : list Env) (s : Message.State)
    (tr : list Call) (c : Z) :
  Message.countdown s = Some c ->
  0 <= c ->
  Run.messageSession (Run.repeated Message.Tick envs) (s, tr)
  = (Message.set_countdown
       (Some (Z.max 0 (c - Z.of_nat (List.length envs)))) s, tr).
Proof.
  revert s c. induction envs as [| env rest IH]; intros s c Hs Hc.
  - cbn [Run.messageSession Run.repeated map List.length Z.of_nat].
    rewrite Z.sub_0_r, Z.max_r by lia.
    rewrite (message_set_countdown_eta s (Some c) Hs). reflexivity.
  - cbn [Run.messageSession Run.repeated map].
    rewrite message_tick_countdown. cbn [snd].
    unfold Message.timerRunning. rewrite Hs.
    destruct (Z.ltb_spec 0 c) as [Hpos | Hzero].
    + fold (Run.repeated Message.Tick rest).
      rewrite (IH _ (c - 1)); [| reflexivity | lia].
      cbn [List.length]. rewrite Nat2Z.inj_succ.
      replace (c - 1 - Z.of_nat (List.length rest))
        with (c - Z.succ (Z.of_nat (List.length rest))) by lia.
      reflexivity.
    + fold (Run.repeated Message.Tick rest).
      rewrite (IH s c Hs Hc).
      cbn [List.length]. rewrite Nat2Z.inj_succ.
      rewrite !Z.max_l by lia. reflexivity.
Qed.

Lemma message_ticks_count_down_witness :
  Run.messageSession
    (Run.repeated Message.Tick
       [Sample.online 1001000; Sample.online 1050000; Sample.online 1050001])
    (Sample.encrypted, [])
  = (Message.set_countdown (Some (Z.max 0 (122 - 3))) Sample.encrypted, []).
Proof.
  apply (message_ticks_count_down
           [Sample.online 1001000; Sample.online 1050000; Sample.online 1050001]
           Sample.encrypted [] 122); [reflexivity | lia].
Defined.

(** The three ways [encrypt] can end. *)
Lemma message_encrypt_cases (env : Env) (snap st : Message.State) (tr : list Call) :
  let ts := Date_now env / 1000 + Api.DECRYPTION_DELAY in
  let st1 := Message.set_countdown (Some (Api.DECRYPTION_DELAY + 2))
               (Message.set_decryptionTimestamp (Some ts)
                  (Message.set_error "" st)) in
  let w' := snd (Message.encrypt snap env (st, tr)) in
  w' = (st1, (tr ++ [CallFetchShutterData ts])%list)
  \/ exists sd msgHex sigmaHex,
      let identityHex := Utils.ensureHexString (Api.identity sd) in
      let c := CallEncryptData msgHex identityHex
                 (Utils.ensureHexString (Api.eon_key sd)) sigmaHex in
      let st2 := Message.set_identity identityHex st1 in
      w' = (st2, (tr ++ [CallFetchShutterData ts; c])%list)
      \/ exists commitment,
          w' = (Message.set_encryptedMessage commitment st2,
                (tr ++ [CallFetchShutterData ts; c])%list).
Proof.
  unfold Message.encrypt. task_run. break_match.
  - left. reflexivity.
  - right. do 3 eexists. rewrite <- ?app_assoc.
    break_match; rewrite <- ?app_assoc; [left | right; eexists]; reflexivity.
Qed.

(** [decrypt] writes only the error message and the decrypted message,
    issues only calls of the reveal, and none without an identity. *)
Lemma message_decrypt_frame (env : Env) (snap st : Message.State) (tr : list Call) :
  exists st' extra,
    snd (Message.decrypt snap env (st, tr)) = (st', (tr ++ extra)%list)
    /\ Forall reveal_call extra
    /\ (truthy_string (Message.identity snap) = false -> extra = [])
    /\ Message.countdown st' = Message.countdown st
    /\ Message.decryptionTimestamp st' = Message.decryptionTimestamp st
    /\ Message.identity st' = Message.identity st
    /\ Message.encryptedMessage st' = Message.encryptedMessage st
    /\ Message.input st' = Message.input st.
Proof.
  unfold Message.decrypt. task_run.
  destruct (truthy_string (Message.identity snap)) eqn:Hid;
    cbn beta iota zeta delta [fst snd negb].
  - repeat break_match; rewrite <- ?app_assoc;
      try (eexists; eexists; split; [reflexivity |];
           split; [repeat constructor | repeat split; discriminate]).
    all: eexists; exists []; rewrite app_nil_r; repeat split;
      try constructor; discriminate.
  - eexists; exists []; rewrite app_nil_r; repeat split; constructor.
Qed.

Lemma unrevealed_app (tr extra : list Call) :
  Run.unrevealed tr -> Run.unrevealed extra -> Run.unrevealed (tr ++ extra).
Proof. unfold Run.unrevealed. intros H1 H2. apply Forall_app. auto. Qed.

Lemma registrations_app_le (tr extra : list Call) :
  (registrations tr <= registrations (tr ++ extra))%nat.
Proof. rewrite registrations_app. lia. Qed.

Lemma registrations_after_registration (tr extra : list Call) (ts : Z) :
  (1 <= registrations (tr ++ CallFetchShutterData ts :: extra))%nat.
Proof.
  rewrite registrations_app.
  change (registrations (CallFetchShutterData ts :: extra))
    with (S (registrations extra)).
  lia.
Qed.

(** One event of the single-party application preserves the invariant. *)
Lemma message_dispatch_invariant (env : Env) (ev : Message.Event)
    (w : Message.State * list Call) :
  Run.messageInvariant w ->
  Run.messageInvariant (snd (Message.dispatch ev env w)).
Proof.
  destruct w as [s tr]. unfold Run.messageInvariant. cbn [fst snd].
  intros (Hcd & Hid & Hno).
  destruct ev as [text | | |].
  - destruct (message_dispatch_click env s tr) as (_ & _ & ->).
    cbn [fst snd]. auto.
  - destruct (message_dispatch_click env s tr) as (-> & _ & _). cbn [snd].
    destruct (message_encrypt_cases env s s tr)
      as [Hc | (sd & m & sg & [Hc | [commitment Hc]])];
      cbv zeta in Hc; rewrite Hc; cbn [fst snd];
      (split; [unfold Run.countdownInRange, Api.DECRYPTION_DELAY; simpl; lia |]).
    + split.
      * intros Ht. split; [apply registrations_after_registration | discriminate].
      * intros Hf. apply unrevealed_app; [apply Hno; exact Hf |].
        repeat constructor.
    + split.
      * intros _. split; [apply registrations_after_registration | discriminate].
      * intros Hf. cbn in Hf.
        rewrite (proj1 (proj2 (ensureHexString_truthy (Api.identity sd)))) in Hf.
        discriminate.
    + split.
      * intros _. split; [apply registrations_after_registration | discriminate].
      * intros Hf. cbn in Hf.
        rewrite (proj1 (proj2 (ensureHexString_truthy (Api.identity sd)))) in Hf.
        discriminate.
  - destruct (message_dispatch_click env s tr) as (_ & -> & _). cbn [snd].
    destruct (message_decrypt_frame env s s tr)
      as (st' & extra & Heq & Hex & Hnone & H1 & H2 & H3 & _).
    rewrite Heq. cbn [fst snd]. rewrite H1, H2, H3.
    split; [exact Hcd |]. split.
    + intros Ht. destruct (Hid Ht) as [Hr Hts]. split; [| exact Hts].
      pose proof (registrations_app_le tr extra). lia.
    + intros Hf. rewrite (Hnone Hf), app_nil_r. apply Hno. exact Hf.
  - rewrite message_tick_countdown. cbn [fst snd].
    unfold Message.timerRunning.
    destruct (Message.countdown s) as [c |] eqn:Hc; [| rewrite Hc; auto].
    destruct (Z.ltb_spec 0 c); [| rewrite Hc; auto].
    cbn. split; [| auto].
    unfold Run.countdownInRange, Api.DECRYPTION_DELAY in *. lia.
Qed.

Lemma message_session_invariant (evs : list (Env * Message.Event))
    (w : Message.State * list Call) :
  Run.messageInvariant w ->
  Run.messageInvariant (Run.messageSession evs w).
Proof.
  revert w. induction evs as [| [env ev] rest IH]; intros w Hinv.
  - exact Hinv.
  - cbn [Run.messageSession]. apply IH.
    apply message_dispatch_invariant. exact Hinv.
Qed.

(** In every session of the single-party application that starts from the
    initial state, the countdown is absent or between 0 and 122; an
    identity in the state comes with a release timestamp; and a key fetch
    or a decryption is called only in a session that has called the
    registration. *)
Theorem message_session_registers_before_reveal
    (evs : list (Env * Message.Event)) :
  let w := Run.messageSession evs (Message.initial, []) in
  Run.countdownInRange (Message.countdown (fst w))
  /\ (Message.identity (fst w) <> "" ->
      Message.decryptionTimestamp (fst w) <> None)
  /\ (forall c, In c (snd w) -> Run.is_reveal c = true ->
                (1 <= registrations (snd w))%nat).
Proof.
  intros w.
  assert (Hinit : Run.messageInvariant (Message.initial, [])).
  { unfold Run.messageInvariant. cbn. repeat split; try discriminate.
    constructor. }
  destruct (message_session_invariant evs _ Hinit) as (Hcd & Hid & Hno).
  fold w in Hcd, Hid, Hno.
  split; [exact Hcd |]. split.
  - intros Hne. apply Hid.
    destruct (Message.identity (fst w)); [congruence | reflexivity].
  - intros c Hin Hrev.
    destruct (truthy_string (Message.identity (fst w))) eqn:Ht.
    + apply Hid. reflexivity.
    + specialize (Hno eq_refl). unfold Run.unrevealed in Hno.
      rewrite Forall_forall in Hno. rewrite (Hno c Hin) in Hrev. discriminate.
Qed.

(* ================================================================== *)
(** * The order of commitment and reveal in the game *)

Lemma keyFetches_app (tr extra : list Call) :
  Run.keyFetches (tr ++ extra) = (Run.keyFetches tr + Run.keyFetches extra)%nat.
Proof. unfold Run.keyFetches. rewrite filter_app, length_app. reflexivity. Qed.

Lemma keyFetches_unrevealed (tr : list Call) :
  Run.unrevealed tr -> Run.keyFetches tr = 0%nat.
Proof.
  unfold Run.unrevealed, Run.keyFetches.
  induction 1 as [| c rest Hc _ IH]; [reflexivity |].
  simpl. destruct c; simpl in *; try exact IH; discriminate.
Qed.

(** The effect does nothing unless the countdown has just become zero. *)
Lemma game_countdownEffect_idle (env : Env) (before : option Z)
    (st : Game.State) (tr : list Call) :
  Game.countdown st = before \/ Game.countdown st <> Some 0 ->
  Game.countdownEffect before env (st, tr) = (Resolved tt, (st, tr)).
Proof.
  intros H. unfold Game.countdownEffect. task_run.
  destruct (Game.countdown st) as [[| |]|]; try reflexivity.
  destruct H as [<- | H]; [reflexivity | congruence].
Qed.

(** When the countdown has just become zero, the effect runs [decryptMoves]
    of the new render. *)
Lemma game_countdownEffect_fires (env : Env) (before : option Z)
    (st : Game.State) (tr : list Call) :
  Game.countdown st = Some 0 ->
  before <> Some 0 ->
  Game.countdownEffect before env (st, tr)
  = (Resolved tt, snd (Game.decryptMoves st env (st, tr))).
Proof.
  intros H0 Hb. unfold Game.countdownEffect. task_run. rewrite H0.
  destruct before as [[| |]|]; try reflexivity. congruence.
Qed.

(** [decryptMoves] fetches the key at most once and leaves the players and
    the countdown alone. *)
Lemma game_decryptMoves_one_fetch (env : Env) (snap st : Game.State)
    (tr : list Call) :
  exists st' extra,
    snd (Game.decryptMoves snap env (st, tr)) = (st', (tr ++ extra)%list)
    /\ (Run.keyFetches extra <= 1)%nat
    /\ Game.players st' = Game.players st
    /\ Game.countdown st' = Game.countdown st.
Proof.
  unfold Game.decryptMoves. task_run.
  repeat break_match; rewrite <- ?app_assoc;
    try (eexists; eexists; split; [reflexivity |];
         split; [cbn; lia | split; reflexivity]).
  all: eexists; exists []; rewrite app_nil_r; repeat split; cbn; lia.
Qed.

(** A submission from a render without a countdown calls nothing of the
    reveal, and starts the countdown at [DECRYPTION_DELAY + 2] exactly when
    it leaves both slots submitted. *)
Lemma game_submitMove_starts_countdown (env : Env) (s : Game.State)
    (tr : list Call) (q : Game.Player) :
  Game.submitted (Game.slot q (Game.players s)) = false ->
  Game.countdown s = None ->
  exists s1 extra,
    snd (Game.submitMove s q env (s, tr)) = (s1, (tr ++ extra)%list)
    /\ Run.unrevealed extra
    /\ ((Run.bothSubmitted s1 = false /\ Game.countdown s1 = None)
        \/ (Run.bothSubmitted s1 = true
            /\ Game.countdown s1 = Some (Api.DECRYPTION_DELAY + 2))).
Proof.
  intros Hq Hcd.
  assert (Hboth : Run.bothSubmitted s = false).
  { unfold Run.bothSubmitted. destruct q; cbn in Hq; rewrite Hq;
      [reflexivity | apply andb_false_r]. }
  assert (Hrec : forall enc st,
             Game.players st = Game.players s -> Game.countdown st = None ->
             (Run.bothSubmitted (Game.recordSubmission q enc st) = false
              /\ Game.countdown (Game.recordSubmission q enc st) = None)
             \/ (Run.bothSubmitted (Game.recordSubmission q enc st) = true
                 /\ Game.countdown (Game.recordSubmission q enc st)
                    = Some (Api.DECRYPTION_DELAY + 2))).
  { intros enc st Hp Hc. unfold Game.recordSubmission, Run.bothSubmitted.
    cbn [Game.players Game.set_players Game.countdown].
    destruct (Game.submitted (Game.slot1 _) && Game.submitted (Game.slot2 _));
      [right | left]; split; auto. }
  destruct (game_submitMove_cases env s s tr q)
    as [[msg Hc] | [[_ (m & sg & [Hc | [enc Hc]])]
       | [[_ Hc] | [_ (i & k & m & sg & [Hc | [enc Hc]])]]]];
    cbv zeta in Hc; rewrite Hc.
  - exists (Game.set_error msg s), []. rewrite app_nil_r.
    split; [reflexivity |]. split; [constructor | left; auto].
  - eexists; eexists. split; [reflexivity |].
    split; [repeat constructor | left; auto].
  - eexists; eexists. split; [reflexivity |].
    split; [repeat constructor | apply Hrec; auto].
  - eexists; eexists. split; [reflexivity |].
    split; [repeat constructor | left; auto].
  - eexists; eexists. split; [reflexivity |].
    split; [repeat constructor | left; auto].
  - eexists; eexists. split; [reflexivity |].
    split; [repeat constructor | apply Hrec; auto].
Qed.

Lemma countdownInRange_start :
  Run.countdownInRange (Some (Api.DECRYPTION_DELAY + 2)).
Proof. unfold Run.countdownInRange, Api.DECRYPTION_DELAY. lia. Qed.

(** One event of the game preserves the invariant. *)
Lemma game_dispatch_invariant (env : Env) (ev : Game.Event)
    (w : Game.State * list Call) :
  Run.gameInvariant w ->
  Run.gameInvariant (snd (Game.dispatch ev env w)).
Proof.
  destruct w as [s tr]. unfold Run.gameInvariant. cbn [fst snd].
  intros (Hnone & Hsome & Hrange & Hquiet & Hone).
  rewrite game_dispatch_eq.
  destruct ev as [q v | q |]; unfold Game.handler.
  - (* the select *)
    unfold Game.handleMoveChange. task_run.
    rewrite game_countdownEffect_idle by (left; reflexivity).
    cbn [fst snd].
    assert (Hb : Run.bothSubmitted
                   (Game.set_players
                      (Game.with_slot q
                         {| Game.move := v;
                            Game.encryptedMove :=
                              Game.encryptedMove (Game.slot q (Game.players s));
                            Game.submitted :=
                              Game.submitted (Game.slot q (Game.players s)) |}
                         (Game.players s)) s)
                 = Run.bothSubmitted s)
      by (destruct q; reflexivity).
    rewrite Hb. cbn [Game.countdown Game.set_players]. auto.
  - (* the submit button *)
    destruct (Game.submitted (Game.slot q (Game.players s))) eqn:Hq.
    + task_run. rewrite game_countdownEffect_idle by (left; reflexivity).
      cbn [fst snd]. auto.
    + assert (Hboth : Run.bothSubmitted s = false).
      { unfold Run.bothSubmitted. destruct q; cbn in Hq; rewrite Hq;
          [reflexivity | apply andb_false_r]. }
      pose proof (Hnone Hboth) as Hcd.
      assert (Htr : Run.unrevealed tr) by (apply Hquiet; congruence).
      destruct (game_submitMove_starts_countdown env s tr q Hq Hcd)
        as (s1 & extra & Heq & Hex & Hs1).
      unfold detached. cbn [snd]. rewrite Heq.
      assert (Hnz : Game.countdown s1 <> Some 0).
      { destruct Hs1 as [[_ ->] | [_ ->]]; discriminate. }
      rewrite game_countdownEffect_idle by (right; exact Hnz).
      cbn [fst snd].
      assert (Hun : Run.unrevealed (tr ++ extra))
        by (apply unrevealed_app; assumption).
      destruct Hs1 as [[Hb Hc] | [Hb Hc]]; rewrite Hb, Hc;
        repeat split; try congruence; try exact Hun;
        try apply countdownInRange_start;
        rewrite (keyFetches_unrevealed _ Hun); lia.
  - (* the timer *)
    unfold Game.tick. task_run. unfold Game.timerRunning.
    destruct (Game.countdown s) as [c |] eqn:Hc;
      [| cbn [snd]; rewrite game_countdownEffect_idle by (left; auto);
         cbn [fst snd]; rewrite Hc; auto].
    destruct (Z.ltb_spec 0 c) as [Hpos | Hle];
      [| cbn [snd]; rewrite game_countdownEffect_idle by (left; auto);
         cbn [fst snd]; rewrite Hc; auto].
    cbn [fst snd]. rewrite Hc.
    assert (Hboth : Run.bothSubmitted s = true).
    { destruct (Run.bothSubmitted s); [reflexivity |].
      specialize (Hnone eq_refl). congruence. }
    assert (Htr : Run.unrevealed tr).
    { apply Hquiet. intros H. injection H as ->. lia. }
    unfold Run.countdownInRange, Api.DECRYPTION_DELAY in Hrange.
    destruct (Z.eq_dec (c - 1) 0) as [Hz | Hnz].
    + rewrite game_countdownEffect_fires;
        [| cbn; rewrite Hz; reflexivity | intros H; injection H as ->; lia].
      destruct (game_decryptMoves_one_fetch env
                  (Game.set_countdown (Some (c - 1)) s)
                  (Game.set_countdown (Some (c - 1)) s) tr)
        as (s2 & extra & Heq & Hk & Hp & Hcd2).
      cbn [snd]. rewrite Heq. cbn [fst snd].
      unfold Run.bothSubmitted in *. rewrite Hp, Hcd2.
      cbn [Game.players Game.countdown Game.set_countdown].
      rewrite Hboth, Hz.
      repeat split; try discriminate; try congruence;
        unfold Run.countdownInRange, Api.DECRYPTION_DELAY; try lia.
      rewrite keyFetches_app, (keyFetches_unrevealed _ Htr). lia.
    + rewrite game_countdownEffect_idle
        by (right; cbn; intros H; injection H as H; contradiction).
      cbn [fst snd].
      unfold Run.bothSubmitted in *.
      cbn [Game.players Game.countdown Game.set_countdown].
      rewrite Hboth.
      repeat split; try discriminate; try congruence; try exact Htr;
        unfold Run.countdownInRange, Api.DECRYPTION_DELAY; try lia.
Qed.

Lemma game_session_invariant (evs : list (Env * Game.Event))
    (w : Game.State * list Call) :
  Run.gameInvariant w ->
  Run.gameInvariant (Game.session evs w).
Proof.
  revert w. induction evs as [| [env ev] rest IH]; intros w Hinv.
  - exact Hinv.
  - cbn [Game.session]. apply IH.
    apply game_dispatch_invariant. exact Hinv.
Qed.

Lemma gameInvariant_initial : Run.gameInvariant (Game.initial, []).
Proof.
  unfold Run.gameInvariant. cbn. repeat split; try discriminate; auto.
  constructor.
Qed.


(** The countdown of the game exists exactly when both slots are submitted
    and always lies between 0 and 122, in every session that starts from
    the initial state. *)
Theorem game_countdown_tracks_submissions (evs : list (Env * Game.Event)) :
  let w := Game.session evs (Game.initial, []) in
  (Run.bothSubmitted (fst w) = true <-> Game.countdown (fst w) <> None)
  /\ (forall c, Game.countdown (fst w) = Some c -> 0 <= c <= 122).
Proof.
  intros w.
  destruct (game_session_invariant evs _ gameInvariant_initial)
    as (Hnone & Hsome & Hrange & _ & _).
  fold w in Hnone, Hsome, Hrange.
  split.
  - split; [exact Hsome |].
    intros Hc. destruct (Run.bothSubmitted (fst w)); [reflexivity |].
    specialize (Hnone eq_refl). contradiction.
  - intros c Hc. rewrite Hc in Hrange.
    unfold Run.countdownInRange, Api.DECRYPTION_DELAY in Hrange. lia.
Qed.

(* ================================================================== *)
(** * After the reveal attempt *)





(* ================================================================== *)
(** * A whole round of the game *)

Lemma game_session_app (evs1 evs2 : list (Env * Game.Event))
    (w : Game.State * list Call) :
  Game.session (evs1 ++ evs2) w = Game.session evs2 (Game.session evs1 w).
Proof.
  revert w. induction evs1 as [| [env ev] rest IH]; intros w; [reflexivity |].
  cbn [Game.session app]. apply IH.
Qed.

Lemma revealBlocked_ready (R now : Z) :
  R <> 0 -> R + 5 <= now -> revealBlocked (Some R) now = false.
Proof.
  intros HR Hnow. unfold revealBlocked.
  apply truthy_number_Some in HR. rewrite HR. simpl.
  apply Z.ltb_ge. exact Hnow.
Qed.

(** A change of a select. *)
Lemma game_select (env : Env) (s : Game.State) (tr : list Call)
    (q : Game.Player) (v : option Game.Move) :
  snd (Game.dispatch (Game.SelectMove q v) env (s, tr))
  = (Game.set_players
       (Game.with_slot q
          {| Game.move := v;
             Game.encryptedMove := Game.encryptedMove (Game.slot q (Game.players s));
             Game.submitted := Game.submitted (Game.slot q (Game.players s)) |}
          (Game.players s)) s, tr).
Proof.
  rewrite game_dispatch_eq. unfold Game.handler, Game.handleMoveChange.
  task_run. rewrite game_countdownEffect_idle by (left; reflexivity).
  reflexivity.
Qed.

(** A click on Submit that registers and encrypts. *)
Lemma game_submit_registers (env : Env) (s : Game.State) (tr : list Call)
    (q : Game.Player) (chosen : Game.Move) (sd : Api.ShutterData)
    (commitment : string) :
  let ts := Date_now env / 1000 + Api.DECRYPTION_DELAY in
  let identityHex := Utils.ensureHexString (Api.identity sd) in
  let eonKeyHex := Utils.ensureHexString (Api.eon_key sd) in
  let msgHex := Viem.stringToHex (Game.moveString chosen) in
  let sigmaHex := Utils.generateRandomBytes32 (getRandomValues env 32) in
  Game.submitted (Game.slot q (Game.players s)) = false ->
  Game.move (Game.slot q (Game.players s)) = Some chosen ->
  truthy_number (Game.encryptionTimestamp s) = false ->
  Game.countdown s = None ->
  fetchShutterData env ts = inr sd ->
  encryptData env msgHex identityHex eonKeyHex sigmaHex = inr commitment ->
  snd (Game.dispatch (Game.ClickSubmit q) env (s, tr))
  = (Game.recordSubmission q commitment
       (Game.set_eonKey eonKeyHex
          (Game.set_identity identityHex
             (Game.set_encryptionTimestamp (Some ts) (Game.set_error "" s)))),
     (tr ++ [CallFetchShutterData ts;
             CallEncryptData msgHex identityHex eonKeyHex sigmaHex])%list).
Proof.
  intros ts identityHex eonKeyHex msgHex sigmaHex Hq Hm Hts Hcd Hreg Henc.
  rewrite game_dispatch_eq. unfold Game.handler. rewrite Hq.
  unfold detached. cbn [snd].
  assert (Hsub : snd (Game.submitMove s q env (s, tr))
                 = (Game.recordSubmission q commitment
                      (Game.set_eonKey eonKeyHex
                         (Game.set_identity identityHex
                            (Game.set_encryptionTimestamp (Some ts)
                               (Game.set_error "" s)))),
                    (tr ++ [CallFetchShutterData ts;
                            CallEncryptData msgHex identityHex eonKeyHex sigmaHex])%list)).
  { unfold Game.submitMove. task_run. rewrite Hm, Hts.
    cbn beta iota zeta delta [fst snd negb]. fold ts. rewrite Hreg.
    cbn beta iota zeta delta [fst snd].
    fold identityHex eonKeyHex msgHex sigmaHex. rewrite Henc.
    cbn beta iota zeta delta [fst snd]. rewrite <- app_assoc. reflexivity. }
  rewrite Hsub. rewrite game_countdownEffect_idle; [reflexivity |].
  right. unfold Game.recordSubmission.
  cbn [Game.countdown Game.set_players].
  break_match; cbn; rewrite ?Hcd; discriminate.
Qed.

(** A click on Submit that encrypts under the cached pair. *)
Lemma game_submit_cached (env : Env) (s : Game.State) (tr : list Call)
    (q : Game.Player) (chosen : Game.Move) (commitment : string) :
  let msgHex := Viem.stringToHex (Game.moveString chosen) in
  let sigmaHex := Utils.generateRandomBytes32 (getRandomValues env 32) in
  Game.submitted (Game.slot q (Game.players s)) = false ->
  Game.move (Game.slot q (Game.players s)) = Some chosen ->
  truthy_number (Game.encryptionTimestamp s) = true ->
  Game.countdown s = None ->
  encryptData env msgHex (Game.identity s) (Game.eonKey s) sigmaHex = inr commitment ->
  snd (Game.dispatch (Game.ClickSubmit q) env (s, tr))
  = (Game.recordSubmission q commitment (Game.set_error "" s),
     (tr ++ [CallEncryptData msgHex (Game.identity s) (Game.eonKey s) sigmaHex])%list).
Proof.
  intros msgHex sigmaHex Hq Hm Hts Hcd Henc.
  rewrite game_dispatch_eq. unfold Game.handler. rewrite Hq.
  unfold detached. cbn [snd].
  assert (Hsub : snd (Game.submitMove s q env (s, tr))
                 = (Game.recordSubmission q commitment (Game.set_error "" s),
                    (tr ++ [CallEncryptData msgHex (Game.identity s)
                              (Game.eonKey s) sigmaHex])%list)).
  { unfold Game.submitMove. task_run. rewrite Hm, Hts.
    cbn beta iota zeta delta [fst snd negb].
    fold msgHex sigmaHex. rewrite Henc. reflexivity. }
  rewrite Hsub. rewrite game_countdownEffect_idle; [reflexivity |].
  right. unfold Game.recordSubmission.
  cbn [Game.countdown Game.set_players].
  break_match; cbn; rewrite ?Hcd; discriminate.
Qed.

(** Ticks that leave the countdown positive only count down. *)
Lemma game_ticks_above_zero (envs : list Env) (s : Game.State)
    (tr : list Call) (c : Z) :
  Game.countdown s = Some c ->
  Z.of_nat (List.length envs) < c ->
  Game.session (Run.repeated Game.Tick envs) (s, tr)
  = (Game.set_countdown (Some (c - Z.of_nat (List.length envs))) s, tr).
Proof.
  revert s c. induction envs as [| env rest IH]; intros s c Hs Hlen.
  - cbn. rewrite Z.sub_0_r. destruct s. cbn in Hs. subst. reflexivity.
  - cbn [Run.repeated map Game.session]. fold (Run.repeated Game.Tick rest).
    cbn [List.length] in Hlen. rewrite Nat2Z.inj_succ in Hlen.
    assert (Hstep : snd (Game.dispatch Game.Tick env (s, tr))
                    = (Game.set_countdown (Some (c - 1)) s, tr)).
    { rewrite game_dispatch_eq. unfold Game.handler, Game.tick, Game.timerRunning.
      task_run. rewrite Hs.
      destruct (Z.ltb_spec 0 c); [| lia].
      cbn beta iota zeta delta [fst snd]. rewrite Hs.
      rewrite game_countdownEffect_idle; [reflexivity |].
      right. cbn. intros Hzero. injection Hzero as Hzero. lia. }
    rewrite Hstep. rewrite (IH _ (c - 1)); [| reflexivity | lia].
    cbn [List.length]. rewrite Nat2Z.inj_succ.
    replace (c - 1 - Z.of_nat (List.length rest))
      with (c - Z.succ (Z.of_nat (List.length rest))) by lia.
    reflexivity.
Qed.

(** [decryptMoves] when the guard passes, the key is fetched and the
    primitive returns the payloads of two moves. *)
Lemma game_decryptMoves_succeeds (env : Env) (snap st : Game.State)
    (tr : list Call) (kd : Api.DecryptionKeyData) (a b : Game.Move) :
  let decryptionKey := Utils.ensureHexString (Api.decryption_key kd) in
  let c1 := Game.encryptedMove (Game.slot1 (Game.players snap)) in
  let c2 := Game.encryptedMove (Game.slot2 (Game.players snap)) in
  truthy_string (Game.identity snap) = true ->
  revealBlocked (Game.encryptionTimestamp snap) (Date_now env / 1000) = false ->
  fetchDecryptionKey env (Game.identity snap) = inr kd ->
  shutterDecrypt env c1 decryptionKey = inr (Viem.stringToHex (Game.moveString a)) ->
  shutterDecrypt env c2 decryptionKey = inr (Viem.stringToHex (Game.moveString b)) ->
  Game.decryptMoves snap env (st, tr)
  = (Resolved tt,
     (Game.set_result
        (Game.determineWinner (Game.moveString a) (Game.moveString b)) st,
      (tr ++ [CallFetchDecryptionKey (Game.identity snap);
              CallShutterDecrypt c1 decryptionKey;
              CallShutterDecrypt c2 decryptionKey])%list)).
Proof.
  intros decryptionKey c1 c2 Hid Hb Hkey H1 H2.
  unfold Game.decryptMoves. task_run. rewrite Hid.
  cbn beta iota zeta delta [fst snd negb]. rewrite Hb, Hkey.
  cbn beta iota zeta delta [fst snd]. fold decryptionKey c1 c2. rewrite H1.
  cbn beta iota zeta delta [fst snd]. rewrite hexToString_move.
  cbn beta iota zeta delta [fst snd]. rewrite H2.
  cbn beta iota zeta delta [fst snd]. rewrite hexToString_move.
  cbn beta iota zeta delta [fst snd]. rewrite <- !app_assoc. reflexivity.
Qed.

(** The tick that brings the countdown from one to zero runs the reveal. *)
Lemma game_last_tick_reveals (env : Env) (s : Game.State) (tr : list Call)
    (kd : Api.DecryptionKeyData) (a b : Game.Move) :
  let decryptionKey := Utils.ensureHexString (Api.decryption_key kd) in
  let c1 := Game.encryptedMove (Game.slot1 (Game.players s)) in
  let c2 := Game.encryptedMove (Game.slot2 (Game.players s)) in
  Game.countdown s = Some 1 ->
  truthy_string (Game.identity s) = true ->
  revealBlocked (Game.encryptionTimestamp s) (Date_now env / 1000) = false ->
  fetchDecryptionKey env (Game.identity s) = inr kd ->
  shutterDecrypt env c1 decryptionKey = inr (Viem.stringToHex (Game.moveString a)) ->
  shutterDecrypt env c2 decryptionKey = inr (Viem.stringToHex (Game.moveString b)) ->
  snd (Game.dispatch Game.Tick env (s, tr))
  = (Game.set_result
       (Game.determineWinner (Game.moveString a) (Game.moveString b))
       (Game.set_countdown (Some 0) s),
     (tr ++ [CallFetchDecryptionKey (Game.identity s);
             CallShutterDecrypt c1 decryptionKey;
             CallShutterDecrypt c2 decryptionKey])%list).
Proof.
  intros decryptionKey c1 c2 Hcd Hid Hb Hkey H1 H2.
  rewrite game_dispatch_eq. unfold Game.handler, Game.tick, Game.timerRunning.
  task_run. rewrite Hcd. cbn beta iota zeta delta [fst snd Z.ltb Z.compare].
  rewrite Hcd. change (1 - 1) with 0.
  rewrite game_countdownEffect_fires; [| reflexivity | discriminate].
  rewrite (game_decryptMoves_succeeds env _ _ tr kd a b); try assumption.
  reflexivity.
Qed.

(** A whole round.  Player 1 selects and submits a move, player 2 selects
    and submits a move, 121 ticks pass and the 122nd tick fires at or after
    the release time plus five seconds.  When the clock of the first
    submission is not before the epoch, the registration and both
    encryptions succeed, the key of the registered identity is fetched and
    the primitive decrypts each commitment to the payload it was made
    from, the game announces the outcome of the two submitted moves,
    without an error message, after exactly six calls: one registration,
    two encryptions under the registered pair, one key fetch, two
    decryptions. *)
Theorem game_round_resolves (envA envB envR : Env) (waits : list Env)
    (a b : Game.Move) (sd : Api.ShutterData) (kd : Api.DecryptionKeyData)
    (commitmentA commitmentB : string) :
  let ts := Date_now envA / 1000 + Api.DECRYPTION_DELAY in
  let identityHex := Utils.ensureHexString (Api.identity sd) in
  let eonKeyHex := Utils.ensureHexString (Api.eon_key sd) in
  let msgA := Viem.stringToHex (Game.moveString a) in
  let msgB := Viem.stringToHex (Game.moveString b) in
  let sigmaA := Utils.generateRandomBytes32 (getRandomValues envA 32) in
  let sigmaB := Utils.generateRandomBytes32 (getRandomValues envB 32) in
  let decryptionKey := Utils.ensureHexString (Api.decryption_key kd) in
  0 <= Date_now envA ->
  fetchShutterData envA ts = inr sd ->
  encryptData envA msgA identityHex eonKeyHex sigmaA = inr commitmentA ->
  encryptData envB msgB identityHex eonKeyHex sigmaB = inr commitmentB ->
  List.length waits = 121%nat ->
  ts + 5 <= Date_now envR / 1000 ->
  fetchDecryptionKey envR identityHex = inr kd ->
  shutterDecrypt envR commitmentA decryptionKey = inr msgA ->
  shutterDecrypt envR commitmentB decryptionKey = inr msgB ->
  let w := Game.session
             ([(envA, Game.SelectMove Game.player1 (Some a));
               (envA, Game.ClickSubmit Game.player1);
               (envB, Game.SelectMove Game.player2 (Some b));
               (envB, Game.ClickSubmit Game.player2)]
              ++ Run.repeated Game.Tick waits
              ++ [(envR, Game.Tick)])
             (Game.initial, []) in
  Game.result (fst w) = Run.outcome a b
  /\ Game.error (fst w) = ""
  /\ Game.countdown (fst w) = Some 0
  /\ snd w = [CallFetchShutterData ts;
              CallEncryptData msgA identityHex eonKeyHex sigmaA;
              CallEncryptData msgB identityHex eonKeyHex sigmaB;
              CallFetchDecryptionKey identityHex;
              CallShutterDecrypt commitmentA decryptionKey;
              CallShutterDecrypt commitmentB decryptionKey].
Proof.
  intros ts identityHex eonKeyHex msgA msgB sigmaA sigmaB decryptionKey
    Hclock Hreg HencA HencB Hwaits Hready Hkey HdecA HdecB w.
  assert (Hts : ts <> 0).
  { apply truthy_number_Some. apply fresh_timestamp_truthy. exact Hclock. }
  subst w. rewrite !game_session_app. cbn [Game.session].
  (* player 1 *)
  rewrite game_select.
  rewrite (game_submit_registers envA _ [] Game.player1 a sd commitmentA);
    try reflexivity; try assumption.
  (* player 2 *)
  rewrite game_select.
  rewrite (game_submit_cached envB _ _ Game.player2 b commitmentB);
    [| reflexivity | reflexivity
     | apply truthy_number_Some; exact Hts | reflexivity | exact HencB].
  (* the countdown *)
  rewrite (game_ticks_above_zero waits _ _ 122);
    [| reflexivity | rewrite Hwaits; lia].
  rewrite Hwaits. change (122 - Z.of_nat 121) with 1.
  rewrite (game_last_tick_reveals envR _ _ kd a b);
    [| reflexivity
     | apply (proj1 (proj2 (ensureHexString_truthy (Api.identity sd))))
     | apply (revealBlocked_ready ts _ Hts Hready)
     | exact Hkey | exact HdecA | exact HdecB].
  cbn [fst snd]. split; [| repeat split].
  cbn [Game.result Game.set_result]. unfold Run.outcome.
  apply determineWinner_cases.
Qed.

Lemma game_round_resolves_witness :
  Game.result
    (fst (Game.session
            ([(Sample.online 1000000, Game.SelectMove Game.player1 (Some Game.rock));
              (Sample.online 1000000, Game.ClickSubmit Game.player1);
              (Sample.online 1030000, Game.SelectMove Game.player2 (Some Game.scissors));
              (Sample.online 1030000, Game.ClickSubmit Game.player2)]
             ++ Run.repeated Game.Tick (repeat (Sample.online 1100000) 121)
             ++ [(Sample.online 1152000, Game.Tick)])
            (Game.initial, [])))
  = Run.outcome Game.rock Game.scissors.
Proof.
  apply (game_round_resolves
           (Sample.online 1000000) (Sample.online 1030000) (Sample.online 1152000)
           (repeat (Sample.online 1100000) 121) Game.rock Game.scissors
           {| Api.eon_key := "0xe0"; Api.identity := "0x1d" |}
           {| Api.decryption_key := "0xdk" |}
           (Viem.stringToHex "rock") (Viem.stringToHex "scissors"));
    try reflexivity; vm_compute; discriminate.
Defined.




(* ================================================================== *)
(** * [encrypt] of the hello-world variant *)

(** [encrypt] of the hello-world variant never writes the state, so the
    output on the page does not change.  It first registers the current
    time plus the delay; when the registration fails it is rejected with
    that error and the primitive is not called; otherwise it calls the
    primitive once, on the payload of the input of its render under the
    normalized identity and eon key, and settles as the primitive does. *)
Theorem helloworld_encrypt_effects (env : Env) (snap st : HelloWorld.State)
    (tr : list Call) :
  let ts := Date_now env / 1000 + Api.DECRYPTION_DELAY in
  let r := HelloWorld.encrypt snap env (st, tr) in
  fst (snd r) = st
  /\ (forall e, fetchShutterData env ts = inl e ->
                r = (Rejected e, (st, (tr ++ [CallFetchShutterData ts])%list)))
  /\ (forall sd, fetchShutterData env ts = inr sd ->
        let identityHex := Utils.ensureHexString (Api.identity sd) in
        let eonKeyHex := Utils.ensureHexString (Api.eon_key sd) in
        let msgHex := Viem.stringToHex (HelloWorld.input snap) in
        let sigmaHex := Utils.generateRandomBytes32 (getRandomValues env 32) in
        snd (snd r)
        = (tr ++ [CallFetchShutterData ts;
                  CallEncryptData msgHex identityHex eonKeyHex sigmaHex])%list
        /\ fst r
           = match encryptData env msgHex identityHex eonKeyHex sigmaHex with
             | inr commitment => Resolved commitment
             | inl e => Rejected e
             end).
Proof.
  intros ts r. subst r. split; [| split].
  - unfold HelloWorld.encrypt. task_run. repeat break_match; reflexivity.
  - intros e He. unfold HelloWorld.encrypt. task_run. fold ts. rewrite He.
    reflexivity.
  - intros sd Hsd. unfold HelloWorld.encrypt. task_run. fold ts. rewrite Hsd.
    cbn beta iota zeta delta [fst snd].
    break_match; rewrite <- app_assoc; split; reflexivity.
Qed.

(* ================================================================== *)
(** * Repeated clicks on Decrypt *)

(** When the guard passes, [decrypt] starts with a key fetch for the
    identity of its render and fetches no second key; the identity and the
    release timestamp stay as they are. *)
Lemma message_decrypt_fetches_once (env : Env) (snap st : Message.State)
    (tr : list Call) :
  truthy_string (Message.identity snap) = true ->
  revealBlocked (Message.decryptionTimestamp snap) (Date_now env / 1000) = false ->
  exists st' extra,
    snd (Message.decrypt snap env (st, tr))
    = (st', (tr ++ CallFetchDecryptionKey (Message.identity snap) :: extra)%list)
    /\ Run.keyFetches extra = 0%nat
    /\ Message.identity st' = Message.identity st
    /\ Message.decryptionTimestamp st' = Message.decryptionTimestamp st.
Proof.
  intros Hid Hb. unfold Message.decrypt. task_run. rewrite Hid.
  cbn beta iota zeta delta [fst snd negb]. rewrite Hb.
  repeat break_match; rewrite <- ?app_assoc;
    eexists; eexists; (split; [reflexivity |]); repeat split.
Qed.

(** The key is not cached: every click on Decrypt that passes the guard
    fetches the key again.  From a state with an identity and a nonzero
    release timestamp, a series of clicks on Decrypt, each at or after the
    release time plus five seconds, adds exactly one key fetch per click,
    whether or not earlier clicks succeeded. *)
Theorem message_decrypt_fetches_every_time (envs : list Env)
    (s : Message.State) (tr : list Call) (R : Z) :
  Message.identity s <> "" ->
  Message.decryptionTimestamp s = Some R ->
  R <> 0 ->
  Forall (fun env => R + 5 <= Date_now env / 1000) envs ->
  Run.keyFetches (snd (Run.messageSession
                         (Run.repeated Message.ClickDecrypt envs) (s, tr)))
  = (Run.keyFetches tr + List.length envs)%nat.
Proof.
  intros Hne Hts HR Hall.
  assert (Hid : truthy_string (Message.identity s) = true)
    by (destruct (Message.identity s); [congruence | reflexivity]).
  clear Hne. revert s tr Hid Hts.
  induction Hall as [| env rest Hready _ IH]; intros s tr Hid Hts.
  - cbn [Run.repeated map Run.messageSession snd List.length]. lia.
  - cbn [Run.repeated map Run.messageSession].
    fold (Run.repeated Message.ClickDecrypt rest).
    destruct (message_dispatch_click env s tr) as (_ & -> & _). cbn [snd].
    assert (Hb : revealBlocked (Message.decryptionTimestamp s)
                   (Date_now env / 1000) = false)
      by (rewrite Hts; apply revealBlocked_ready; assumption).
    destruct (message_decrypt_fetches_once env s s tr Hid Hb)
      as (st' & extra & Heq & Hk & Hi & Ht).
    rewrite Heq. rewrite IH; [| congruence | congruence].
    rewrite keyFetches_app.
    change (Run.keyFetches (CallFetchDecryptionKey (Message.identity s) :: extra))
      with (S (Run.keyFetches extra)).
    rewrite Hk. cbn [List.length]. lia.
Qed.

Lemma message_decrypt_fetches_every_time_witness :
  Run.keyFetches
    (snd (Run.messageSession
            (Run.repeated Message.ClickDecrypt
               [Sample.keyNotYetAvailable 1125000; Sample.online 1126000;
                Sample.online 1127000])
            (Sample.encrypted, [])))
  = (Run.keyFetches [] + 3)%nat.
Proof.
  apply (message_decrypt_fetches_every_time
           [Sample.keyNotYetAvailable 1125000; Sample.online 1126000;
            Sample.online 1127000]
           Sample.encrypted [] 1120);
    [vm_compute; discriminate | reflexivity | lia |].
  repeat constructor; vm_compute; discriminate.
Defined.

(* ================================================================== *)
(** * Handlers in flight: the same code, cut at the awaits *)

(** Letting the promises of a [submitMove] settle at once, in the same
    environment, is the handler run to completion. *)
Lemma async_submitMove_atomic (env : Env) (snap s : Game.State)
    (tr : list Call) (player : Game.Player) :
  let w := Async.settleFirst env
             (Async.settleFirst env
                (Async.submitMove env snap player
                   {| Async.store := s; Async.trace := tr; Async.pending := [] |})) in
  (Async.store w, Async.trace w) = snd (Game.submitMove snap player env (s, tr))
  /\ Async.pending w = [].
Proof.
  unfold Game.submitMove, Async.submitMove, Async.startEncryption. task_run.
  destruct (Game.move (Game.slot player (Game.players snap))) as [chosen |];
    [| split; reflexivity].
  destruct (truthy_number (Game.encryptionTimestamp snap));
    cbn beta iota zeta delta [fst snd negb];
    unfold Async.settleFirst, Async.issue, Async.write;
    cbn [Async.pending Async.store Async.trace app Async.settle].
  - destruct (encryptData env _ _ _ _); split; reflexivity.
  - destruct (fetchShutterData env _) as [e | sd];
      cbn beta iota zeta delta [fst snd]; [split; reflexivity |].
    unfold Async.startEncryption, Async.issue, Async.write.
    cbn [Async.pending Async.store Async.trace app Async.settle].
    rewrite <- app_assoc.
    destruct (encryptData env _ _ _ _); split; reflexivity.
Qed.

(** The same for [decryptMoves] and its three awaits. *)
Lemma async_decryptMoves_atomic (env : Env) (snap s : Game.State)
    (tr : list Call) :
  let w := Async.settleFirst env
             (Async.settleFirst env
                (Async.settleFirst env
                   (Async.decryptMoves env snap
                      {| Async.store := s; Async.trace := tr;
                         Async.pending := [] |}))) in
  (Async.store w, Async.trace w) = snd (Game.decryptMoves snap env (s, tr))
  /\ Async.pending w = [].
Proof.
  unfold Game.decryptMoves, Async.decryptMoves. task_run.
  destruct (truthy_string (Game.identity snap));
    cbn beta iota zeta delta [fst snd negb]; [| split; reflexivity].
  destruct (revealBlocked _ _); [split; reflexivity |].
  unfold Async.settleFirst, Async.issue, Async.write, Async.revealFailed.
  cbn [Async.pending Async.store Async.trace app Async.settle].
  destruct (fetchDecryptionKey env _) as [e | kd];
    cbn beta iota zeta delta [fst snd]; [split; reflexivity |].
  unfold Async.issue, Async.write.
  cbn [Async.pending Async.store Async.trace app Async.settle].
  destruct (shutterDecrypt env _ _) as [e | hex1];
    cbn beta iota zeta delta [fst snd];
    [rewrite <- ?app_assoc; split; reflexivity |].
  destruct (Viem.hexToString hex1) as [m1 |];
    cbn beta iota zeta delta [fst snd];
    [| rewrite <- ?app_assoc; split; reflexivity].
  unfold Async.issue, Async.write.
  cbn [Async.pending Async.store Async.trace app Async.settle].
  destruct (shutterDecrypt env _ _) as [e | hex2];
    cbn beta iota zeta delta [fst snd];
    [rewrite <- ?app_assoc; split; reflexivity |].
  destruct (Viem.hexToString hex2) as [m2 |];
    cbn beta iota zeta delta [fst snd];
    rewrite <- ?app_assoc; split; reflexivity.
Qed.

(* ================================================================== *)
(** * Pending promises *)

Lemma take_spec (index : nat) (l others : list Async.Pending) (p : Async.Pending) :
  Async.take index l = Some (p, others) ->
  In p l
  /\ (forall q, In q others -> In q l)
  /\ Async.registering l
     = ((if Async.isRegistrationPending p then 1 else 0)
        + Async.registering others)%nat.
Proof.
  revert index others. induction l as [| a l IH]; intros index others H.
  - destruct index; discriminate H.
  - destruct index as [| index]; simpl in H.
    + injection H as -> ->. repeat split; [left; reflexivity | now right |].
      unfold Async.registering. cbn [filter].
      destruct (Async.isRegistrationPending p); reflexivity.
    + destruct (Async.take index l) as [[q rest] |] eqn:Ht; [| discriminate H].
      injection H as -> <-.
      destruct (IH index rest Ht) as (H1 & H2 & H3).
      repeat split.
      * right. exact H1.
      * intros x [-> | Hx]; [left; reflexivity | right; apply H2; exact Hx].
      * unfold Async.registering in *. cbn [filter].
        destruct (Async.isRegistrationPending a); cbn [List.length];
          rewrite H3; lia.
Qed.

Lemma registering_app (l extra : list Async.Pending) :
  Async.registering (l ++ extra)
  = (Async.registering l + Async.registering extra)%nat.
Proof. unfold Async.registering. rewrite filter_app, length_app. reflexivity. Qed.

Lemma registering_zero (l : list Async.Pending) :
  Async.registering l = 0%nat ->
  Forall (fun p => Async.isRegistrationPending p = false) l.
Proof.
  unfold Async.registering. induction l as [| a l IH]; intros H; [constructor |].
  cbn [filter] in H. destruct (Async.isRegistrationPending a) eqn:Ha;
    [discriminate H |].
  constructor; [exact Ha | apply IH; exact H].
Qed.

Lemma pendingUnder_grows (pair : string * string) (tr extra : list Call)
    (p : Async.Pending) :
  Async.pendingUnder pair tr p -> Async.pendingUnder pair (tr ++ extra) p.
Proof.
  destruct p; cbn; auto. intros [H1 H2]. split; [exact H1 |].
  apply in_or_app. left. exact H2.
Qed.

(** A change that touches neither the registration, nor the submissions,
    nor the pending submissions keeps the phase. *)
Lemma phased_neutral (envs : list Env) (w w' : Async.World) (extra : list Call) :
  (forall player,
      Game.submitted (Game.slot player (Game.players (Async.store w')))
      = Game.submitted (Game.slot player (Game.players (Async.store w)))
      /\ Game.encryptedMove (Game.slot player (Game.players (Async.store w')))
         = Game.encryptedMove (Game.slot player (Game.players (Async.store w)))) ->
  Game.encryptionTimestamp (Async.store w') = Game.encryptionTimestamp (Async.store w) ->
  Game.identity (Async.store w') = Game.identity (Async.store w) ->
  Game.eonKey (Async.store w') = Game.eonKey (Async.store w) ->
  Async.trace w' = (Async.trace w ++ extra)%list ->
  Forall reveal_call extra ->
  Async.registering (Async.pending w') = Async.registering (Async.pending w) ->
  (forall p, In p (Async.pending w') -> Async.submitter p <> None ->
             In p (Async.pending w)) ->
  Async.phased envs w -> Async.phased envs w'.
Proof.
  intros Hslots Hts Hid Hk Htr Hex Hreg Hpend Hph.
  assert (Hregs : registrations (Async.trace w') = registrations (Async.trace w)).
  { rewrite Htr, registrations_app, (registrations_reveal extra Hex). lia. }
  assert (Hun : Async.unencrypted w -> Async.unencrypted w').
  { intros (H1 & H2 & H3). repeat split.
    - rewrite Htr. apply Forall_app. split; [exact H1 |].
      eapply Forall_impl; [| exact Hex]. intros c [_ Hc]. exact Hc.
    - apply Forall_forall. intros p Hp.
      destruct (Async.isEncryptionPending p) eqn:He; [| reflexivity].
      assert (Hs : Async.submitter p <> None) by (destruct p; discriminate).
      rewrite Forall_forall in H2. rewrite (H2 p (Hpend p Hp Hs)) in He.
      discriminate He.
    - intros player. rewrite (proj1 (Hslots player)). apply H3. }
  destruct Hph as [(H1 & H2 & H3 & H4) | [(H1 & H2 & H3 & H4) | Hafter]].
  - left. unfold Async.beforeRegistration. rewrite Hts, Hregs, Hreg. auto.
  - right; left. unfold Async.duringRegistration. rewrite Hts, Hregs, Hreg. auto.
  - right; right. destruct Hafter as (H1 & H2 & H3 & H4 & H5 & H6).
    unfold Async.afterRegistration. rewrite Hts, Hregs, Hreg, Hid, Hk.
    repeat split; auto.
    + rewrite Htr. apply Forall_app. split; [exact H4 |].
      apply reveal_calls_encrypt_under. exact Hex.
    + apply Forall_forall. intros p Hp.
      destruct (Async.submitter p) eqn:Hs.
      * rewrite Htr. apply pendingUnder_grows.
        rewrite Forall_forall in H5. apply H5. apply Hpend; [exact Hp | congruence].
      * destruct p; try exact I. discriminate Hs.
    + intros player. unfold Async.backed.
      rewrite (proj1 (Hslots player)), (proj2 (Hslots player)), Hid, Hk, Htr.
      intros Hsub. destruct (H6 player Hsub) as (env & m & sg & Henv & Hin & Henc).
      exists env, m, sg.
      split; [exact Henv | split; [apply in_or_app; left; exact Hin | exact Henc]].
Qed.

Ltac async_unfold :=
  unfold Async.revealFailed, Async.startEncryption;
  unfold Async.issue, Async.write;
  cbn [Async.store Async.trace Async.pending].

Ltac neutral_with w extra :=
  apply (phased_neutral _ w _ extra);
  cbn [Async.store Async.trace Async.pending];
  [ intros; split; reflexivity | reflexivity | reflexivity | reflexivity
  | rewrite ?app_nil_r; reflexivity | repeat constructor | .. ].

(** The start of [decryptMoves] keeps the phase. *)
Lemma phased_decryptMoves (envs : list Env) (env : Env) (snap : Game.State) (w : Async.World) :
  Async.phased envs w -> Async.phased envs (Async.decryptMoves env snap w).
Proof.
  intros Hph. unfold Async.decryptMoves.
  destruct (negb (truthy_string (Game.identity snap)));
    [| destruct (revealBlocked _ _)]; async_unfold.
  - neutral_with w (@nil Call); auto.
  - neutral_with w (@nil Call); auto.
  - neutral_with w [CallFetchDecryptionKey (Game.identity snap)]; auto.
    + rewrite registering_app. cbn. lia.
    + intros p Hp Hs. apply in_app_or in Hp.
      destruct Hp as [Hp | [<- | []]]; [exact Hp | contradiction].
Qed.

(** The countdown effect keeps the phase. *)
Lemma phased_effect (envs : list Env) (before : option Z) (env : Env) (w : Async.World) :
  Async.phased envs w -> Async.phased envs (Async.effect before env w).
Proof.
  intros Hph. unfold Async.effect.
  destruct (Game.countdown (Async.store w)) as [[| |]|]; try exact Hph.
  destruct before as [[| |]|]; try exact Hph;
    apply phased_decryptMoves; exact Hph.
Qed.

(** A change of a select and a tick keep the phase. *)
Lemma phased_select (envs : list Env) (env : Env) (player : Game.Player) (value : option Game.Move)
    (w : Async.World) :
  Async.phased envs w ->
  Async.phased envs (Async.sync (Game.handleMoveChange player value) env w).
Proof.
  intros Hph. unfold Async.sync, Game.handleMoveChange. task_run.
  apply (phased_neutral _ w _ (@nil Call));
    cbn [Async.store Async.trace Async.pending fst snd];
    try reflexivity; auto; [| rewrite app_nil_r; reflexivity].
  intros q. destruct q, player; split; reflexivity.
Qed.

Lemma phased_tick (envs : list Env) (env : Env) (w : Async.World) :
  Async.phased envs w ->
  Async.phased envs (Async.sync (Game.tick (Async.store w)) env w).
Proof.
  intros Hph. unfold Async.sync, Game.tick. task_run.
  destruct (Game.timerRunning (Async.store w));
    cbn beta iota zeta delta [fst snd];
    apply (phased_neutral _ w _ (@nil Call));
    cbn [Async.store Async.trace Async.pending fst snd];
    try reflexivity; auto; try (rewrite app_nil_r; reflexivity);
    intros q; split; reflexivity.
Qed.


Lemma unencrypted_pendingUnder (pair : string * string) (tr : list Call)
    (l : list Async.Pending) :
  Forall (fun p => Async.isEncryptionPending p = false) l ->
  Forall (Async.pendingUnder pair tr) l.
Proof.
  intros H. eapply Forall_impl; [| exact H].
  intros p Hp. destruct p; try exact I. discriminate Hp.
Qed.

Lemma Forall_sublist {A : Type} (P : A -> Prop) (l others : list A) :
  (forall q, In q others -> In q l) -> Forall P l -> Forall P others.
Proof.
  intros Hsub H. rewrite Forall_forall in *. auto.
Qed.

(** More environments keep the phase. *)
Lemma phased_incl (envs envs' : list Env) (w : Async.World) :
  incl envs envs' -> Async.phased envs w -> Async.phased envs' w.
Proof.
  intros Hincl [Hb | [Hd | (H1 & H2 & H3 & H4 & H5 & H6)]];
    [left; exact Hb | right; left; exact Hd |].
  right; right. repeat split; auto.
  intros player Hs. destruct (H6 player Hs) as (env & m & sg & Henv & Hrest).
  exists env, m, sg. split; [apply Hincl; exact Henv | exact Hrest].
Qed.

(** The settling of a pending promise keeps the phase: a registration in
    flight ends the phase of the registration, with the registered pair in
    the state and the encryption of its handler issued under it; an
    encryption that succeeds records its commitment. *)
Lemma phased_settle (envs : list Env) (env : Env) (index : nat)
    (w : Async.World) :
  In env envs ->
  Async.phased envs w -> Async.phased envs (Async.act env (Async.Settle index) w).
Proof.
  intros Henv Hph. unfold Async.act.
  destruct (Async.take index (Async.pending w)) as [[p others] |] eqn:Ht;
    [| exact Hph].
  destruct (take_spec _ _ _ _ Ht) as (Hin & Hsub & Hcount).
  destruct p as [player chosen ts | player m i k sg | snap | snap key | snap key m1];
    cbn [Async.isRegistrationPending] in Hcount; cbn [Async.settle].
  - (* the registration settles *)
    destruct Hph as [(_ & _ & H3 & _) | [(H1 & H2 & H3 & H4 & H5 & H6) | (_ & _ & H3 & _)]];
      try (rewrite H3 in Hcount; discriminate Hcount).
    assert (Hothers : Async.registering others = 0%nat) by lia.
    cbn [Async.pending] in H5.
    pose proof (Forall_sublist _ _ _ Hsub H5) as H5'.
    right; right.
    destruct (fetchShutterData env ts) as [e | sd].
    + unfold Async.afterRegistration, Async.backed.
      cbn [Async.store Async.trace Async.pending].
      repeat split; auto.
      * eapply Forall_impl; [| exact H4]. intros c Hc q Hq. congruence.
      * apply unencrypted_pendingUnder. exact H5'.
      * intros player' Hs. rewrite H6 in Hs. discriminate Hs.
    + async_unfold. unfold Async.afterRegistration, Async.backed.
      cbn [Async.store Async.trace Async.pending Game.encryptionTimestamp
           Game.identity Game.eonKey Game.players Game.set_eonKey
           Game.set_identity].
      repeat split; auto.
      * rewrite registrations_app. cbn. lia.
      * rewrite registering_app, Hothers. reflexivity.
      * apply Forall_app. split.
        -- eapply Forall_impl; [| exact H4]. intros c Hc q Hq. congruence.
        -- repeat constructor. apply encryption_encrypts_under.
      * apply Forall_app. split.
        -- apply unencrypted_pendingUnder. exact H5'.
        -- constructor; [| constructor]. cbn. split; [reflexivity |].
           apply in_or_app. right. left. reflexivity.
      * intros player' Hs. rewrite H6 in Hs. discriminate Hs.
  - (* an encryption settles *)
    destruct Hph as [(_ & _ & _ & _ & H5 & _) | [(_ & _ & _ & _ & H5 & _) | Hafter]];
      try (rewrite Forall_forall in H5; specialize (H5 _ Hin); discriminate H5).
    destruct Hafter as (H1 & H2 & H3 & H4 & H5 & H6).
    assert (Hothers : Async.registering others = 0%nat) by lia.
    pose proof (Forall_sublist _ _ _ Hsub H5) as H5'.
    rewrite Forall_forall in H5. specialize (H5 _ Hin).
    cbn [Async.pendingUnder] in H5. destruct H5 as [Hpair Hcall].
    injection Hpair as Hi Hk.
    right; right.
    destruct (encryptData env m i k sg) as [e | enc] eqn:Henc.
    + unfold Async.afterRegistration, Async.backed in *.
      cbn [Async.store Async.trace Async.pending]. repeat split; auto.
    + async_unfold.
      destruct (recordSubmission_registration player enc (Async.store w))
        as (R1 & R2 & R3).
      unfold Async.afterRegistration, Async.backed in *.
      cbn [Async.store Async.trace Async.pending].
      rewrite R1, R2, R3. repeat split; auto.
      intros q Hs.
      assert (Hd : q = player \/ q <> player)
        by (destruct q, player;
            solve [left; reflexivity | right; discriminate]).
      destruct Hd as [-> | Hne].
      * exists env, m, sg. subst i k.
        split; [exact Henv | split; [exact Hcall |]].
        rewrite Henc. unfold Game.recordSubmission.
        cbn [Game.players Game.set_players]. rewrite with_slot_same.
        reflexivity.
      * rewrite recordSubmission_other in Hs |- * by exact Hne.
        apply H6. exact Hs.
  - (* the key fetch settles *)
    assert (Hreg : Async.registering others = Async.registering (Async.pending w))
      by lia.
    destruct (fetchDecryptionKey env (Game.identity snap)) as [e | kd];
      async_unfold.
    + neutral_with w (@nil Call); auto.
    + match goal with
      | |- context [(Async.trace w ++ [?c])%list] => neutral_with w [c]
      end; auto.
      * rewrite registering_app. cbn. lia.
      * intros p Hp Hs. apply in_app_or in Hp.
        destruct Hp as [Hp | [<- | []]]; [auto | contradiction].
  - (* the first decryption settles *)
    assert (Hreg : Async.registering others = Async.registering (Async.pending w))
      by lia.
    destruct (shutterDecrypt env _ key) as [e | hex1]; async_unfold;
      [neutral_with w (@nil Call); auto |].
    destruct (Viem.hexToString hex1) as [m1 |]; async_unfold;
      [| neutral_with w (@nil Call); auto].
    match goal with
    | |- context [(Async.trace w ++ [?c])%list] => neutral_with w [c]
    end; auto.
    + rewrite registering_app. cbn. lia.
    + intros p Hp Hs. apply in_app_or in Hp.
      destruct Hp as [Hp | [<- | []]]; [auto | contradiction].
  - (* the second decryption settles *)
    assert (Hreg : Async.registering others = Async.registering (Async.pending w))
      by lia.
    destruct (shutterDecrypt env _ key) as [e | hex2]; async_unfold;
      [neutral_with w (@nil Call); auto |].
    destruct (Viem.hexToString hex2) as [m2 |]; async_unfold;
      neutral_with w (@nil Call); auto.
Qed.

Ltac game_fields :=
  cbn [Game.players Game.countdown Game.encryptionTimestamp Game.identity
       Game.eonKey Game.error Game.result Game.set_error
       Game.set_encryptionTimestamp Game.set_identity Game.set_eonKey
       Game.set_result].

(** A click on a submit button, with no registration in flight, keeps the
    phase: the first submission starts the registration, a later one
    encrypts under the pair of the state. *)
Lemma phased_click (envs : list Env) (env : Env) (player : Game.Player)
    (w : Async.World) :
  Date_now env / 1000 + Api.DECRYPTION_DELAY <> 0 ->
  Async.registering (Async.pending w) = 0%nat ->
  Async.phased envs w ->
  Async.phased envs (Async.act env (Async.User (Game.ClickSubmit player)) w).
Proof.
  intros Hnow Hidle Hph. cbn [Async.act].
  destruct (Game.submitted (Game.slot player (Game.players (Async.store w))));
    [exact Hph |].
  unfold Async.submitMove.
  destruct (Game.move (Game.slot player (Game.players (Async.store w))))
    as [chosen |]; [| async_unfold; neutral_with w (@nil Call); auto].
  destruct (truthy_number (Game.encryptionTimestamp (Async.store w))) eqn:Hts;
    cbn [negb]; async_unfold.
  - (* the timestamp of the render is set: encrypt under the pair in state *)
    destruct Hph as [(H1 & _) | [(_ & _ & H3 & _) | Hafter]];
      [congruence | rewrite H3 in Hidle; discriminate Hidle |].
    destruct Hafter as (H1 & H2 & H3 & H4 & H5 & H6).
    right; right. unfold Async.afterRegistration, Async.backed in *.
    cbn [Async.store Async.trace Async.pending]. game_fields.
    repeat split; auto.
    + rewrite registrations_app. cbn. lia.
    + rewrite registering_app, H3. reflexivity.
    + apply Forall_app. split; [exact H4 |].
      repeat constructor. apply encryption_encrypts_under.
    + apply Forall_app. split.
      * eapply Forall_impl; [| exact H5].
        intros p Hp. apply pendingUnder_grows. exact Hp.
      * constructor; [| constructor]. cbn. split; [reflexivity |].
        apply in_or_app. right. left. reflexivity.
    + intros q Hs. destruct (H6 q Hs) as (env' & m & sg & Henv & Hin & Henc).
      exists env', m, sg.
      split; [exact Henv | split; [apply in_or_app; left; exact Hin | exact Henc]].
  - (* the timestamp of the render is unset: register *)
    destruct Hph as [(H1 & H2 & H3 & H4 & H5 & H6) | [(H1 & _) | (H1 & _)]];
      [| congruence | congruence].
    right; left. unfold Async.duringRegistration, Async.unencrypted.
    cbn [Async.store Async.trace Async.pending]. game_fields.
    repeat split; auto.
    + apply truthy_number_Some. exact Hnow.
    + rewrite registrations_app, H2. reflexivity.
    + rewrite registering_app, H3. reflexivity.
    + apply Forall_app. split; [exact H4 |]. repeat constructor.
    + apply Forall_app. split; [exact H5 |]. repeat constructor.
Qed.

(** Every step of an orderly run keeps the phase. *)
Lemma phased_step (envs : list Env) (env : Env) (st : Async.Step)
    (w : Async.World) :
  In env envs ->
  (Async.isSubmit st = true ->
   Date_now env / 1000 + Api.DECRYPTION_DELAY <> 0
   /\ Async.registering (Async.pending w) = 0%nat) ->
  Async.phased envs w -> Async.phased envs (Async.step env st w).
Proof.
  intros Henv Hidle Hph. unfold Async.step. apply phased_effect.
  destruct st as [[player value | player |] | index].
  - apply phased_select. exact Hph.
  - destruct (Hidle eq_refl) as [Hnow Hnone].
    apply phased_click; [exact Hnow | exact Hnone | exact Hph].
  - apply phased_tick. exact Hph.
  - apply phased_settle; [exact Henv | exact Hph].
Qed.

Lemma phased_run (envs : list Env) (steps : list (Env * Async.Step))
    (w : Async.World) :
  incl (map fst steps) envs ->
  Async.orderly steps w ->
  Async.phased envs w -> Async.phased envs (Async.run steps w).
Proof.
  revert w. induction steps as [| [env st] steps IH]; intros w Hincl Hord Hph;
    [exact Hph |].
  cbn [Async.run]. destruct Hord as (Hidle & Hrest).
  apply IH; [intros e He; apply Hincl; right; exact He | exact Hrest |].
  apply phased_step; [apply Hincl; left; reflexivity | exact Hidle | exact Hph].
Qed.

Lemma phased_initial (envs : list Env) : Async.phased envs Async.initial.
Proof.
  left. unfold Async.beforeRegistration, Async.unencrypted, Async.initial.
  cbn [Async.store Async.trace Async.pending].
  repeat split; try reflexivity; try constructor.
  intros player. destruct player; reflexivity.
Qed.

(* ================================================================== *)
(** * Submitted slots under interleaving *)

Lemma keepsSlot_refl (player : Game.Player) (w : Async.World) :
  Async.keepsSlot player w w.
Proof. intros Hs. split; [exact Hs |]. intros Hp. split; [exact Hp | reflexivity]. Qed.

Lemma keepsSlot_trans (player : Game.Player) (w1 w2 w3 : Async.World) :
  Async.keepsSlot player w1 w2 -> Async.keepsSlot player w2 w3 ->
  Async.keepsSlot player w1 w3.
Proof.
  intros H12 H23 Hs. destruct (H12 Hs) as [Hs2 Hc2].
  destruct (H23 Hs2) as [Hs3 Hc3]. split; [exact Hs3 |].
  intros Hp. destruct (Hc2 Hp) as [Hp2 He2]. destruct (Hc3 Hp2) as [Hp3 He3].
  split; [exact Hp3 | congruence].
Qed.

(** A change that leaves the flag and the commitment of the slot alone and
    adds no pending submission of its player keeps the slot. *)
Lemma keepsSlot_neutral (player : Game.Player) (w w' : Async.World) :
  Game.submitted (Game.slot player (Game.players (Async.store w')))
  = Game.submitted (Game.slot player (Game.players (Async.store w))) ->
  Game.encryptedMove (Game.slot player (Game.players (Async.store w')))
  = Game.encryptedMove (Game.slot player (Game.players (Async.store w))) ->
  (forall p, In p (Async.pending w') ->
             In p (Async.pending w) \/ Async.submitter p <> Some player) ->
  Async.keepsSlot player w w'.
Proof.
  intros Hflag Henc Hpend Hs. split; [congruence |].
  intros Hp. split; [| exact Henc].
  apply Forall_forall. intros p Hin.
  destruct (Hpend p Hin) as [Hold | Hne]; [| exact Hne].
  unfold Async.settled in Hp. rewrite Forall_forall in Hp. apply Hp. exact Hold.
Qed.

Lemma recordSubmission_same (player : Game.Player) (enc : string) (s : Game.State) :
  Game.submitted (Game.slot player (Game.players (Game.recordSubmission player enc s)))
  = true
  /\ Game.encryptedMove
       (Game.slot player (Game.players (Game.recordSubmission player enc s)))
     = enc.
Proof.
  unfold Game.recordSubmission. cbn [Game.players Game.set_players].
  rewrite with_slot_same. split; reflexivity.
Qed.

Lemma keepsSlot_decryptMoves (player : Game.Player) (env : Env)
    (snap : Game.State) (w : Async.World) :
  Async.keepsSlot player w (Async.decryptMoves env snap w).
Proof.
  unfold Async.decryptMoves.
  destruct (negb (truthy_string (Game.identity snap)));
    [| destruct (revealBlocked _ _)]; async_unfold;
    apply keepsSlot_neutral; cbn [Async.store Async.pending];
    try reflexivity; auto.
  intros p Hp. apply in_app_or in Hp.
  destruct Hp as [Hp | [<- | []]]; [left; exact Hp | right; discriminate].
Qed.

Lemma keepsSlot_effect (player : Game.Player) (before : option Z) (env : Env)
    (w : Async.World) :
  Async.keepsSlot player w (Async.effect before env w).
Proof.
  unfold Async.effect.
  destruct (Game.countdown (Async.store w)) as [[| |]|];
    try apply keepsSlot_refl.
  destruct before as [[| |]|]; try apply keepsSlot_refl;
    apply keepsSlot_decryptMoves.
Qed.

(** The settling of a promise keeps a submitted slot submitted; it keeps
    the commitment unless the promise is a submission of that player. *)
Lemma settle_keeps_slot (player : Game.Player) (env : Env) (p : Async.Pending)
    (w : Async.World) :
  Game.submitted (Game.slot player (Game.players (Async.store w))) = true ->
  Game.submitted
    (Game.slot player (Game.players (Async.store (Async.settle env p w)))) = true
  /\ (Async.submitter p <> Some player ->
      Async.settled player (Async.pending w) ->
      Async.settled player (Async.pending (Async.settle env p w))
      /\ Game.encryptedMove
           (Game.slot player (Game.players (Async.store (Async.settle env p w))))
         = Game.encryptedMove (Game.slot player (Game.players (Async.store w)))).
Proof.
  intros Hs.
  assert (Hgrow : forall q l, Async.submitter q <> Some player ->
                    Async.settled player l -> Async.settled player (l ++ [q])).
  { intros q l Hq Hl. apply Forall_app. split; [exact Hl |].
    constructor; [exact Hq | constructor]. }
  destruct p as [q chosen ts | q m i k sg | snap | snap key | snap key m1];
    cbn [Async.settle Async.submitter].
  - destruct (fetchShutterData env ts) as [e | sd]; [auto |].
    async_unfold. game_fields. split; [exact Hs |].
    intros Hq Hp. split; [| reflexivity]. apply Hgrow; [exact Hq | exact Hp].
  - destruct (encryptData env m i k sg) as [e | enc]; [auto |].
    async_unfold.
    assert (Hd : q = player \/ player <> q)
      by (destruct q, player;
          solve [left; reflexivity | right; discriminate]).
    destruct Hd as [-> | Hne].
    + split; [apply recordSubmission_same |]. intros Hq. congruence.
    + rewrite recordSubmission_other by exact Hne. auto.
  - destruct (fetchDecryptionKey env (Game.identity snap)) as [e | kd];
      async_unfold; game_fields; [auto |].
    split; [exact Hs |]. intros _ Hp. split; [| reflexivity].
    apply Hgrow; [discriminate | exact Hp].
  - destruct (shutterDecrypt env _ key) as [e | hex1]; async_unfold;
      game_fields; [auto |].
    destruct (Viem.hexToString hex1) as [d1 |]; async_unfold; game_fields;
      [| auto].
    split; [exact Hs |]. intros _ Hp. split; [| reflexivity].
    apply Hgrow; [discriminate | exact Hp].
  - destruct (shutterDecrypt env _ key) as [e | hex2]; async_unfold;
      game_fields; [auto |].
    destruct (Viem.hexToString hex2) as [d2 |]; async_unfold; game_fields;
      auto.
Qed.

Lemma keepsSlot_act (player : Game.Player) (env : Env) (st : Async.Step)
    (w : Async.World) :
  Async.keepsSlot player w (Async.act env st w).
Proof.
  destruct st as [[q value | q |] | index]; cbn [Async.act].
  - unfold Async.sync, Game.handleMoveChange. task_run.
    apply keepsSlot_neutral; cbn [Async.store Async.pending fst snd]; auto;
      destruct player, q; reflexivity.
  - intros Hs.
    destruct (Game.submitted (Game.slot q (Game.players (Async.store w))))
      eqn:Hq; [apply keepsSlot_refl; exact Hs |].
    assert (Hne : Some q <> Some player).
    { intros H. injection H as ->. congruence. }
    revert Hs. apply keepsSlot_neutral; unfold Async.submitMove;
      destruct (Game.move (Game.slot q (Game.players (Async.store w))));
      try destruct (negb (truthy_number _));
      async_unfold; game_fields; try reflexivity; auto;
      (intros p Hp; apply in_app_or in Hp;
       destruct Hp as [Hp | [<- | []]]; [left; exact Hp | right; exact Hne]).
  - unfold Async.sync, Game.tick. task_run.
    destruct (Game.timerRunning (Async.store w));
      cbn beta iota zeta delta [fst snd];
      apply keepsSlot_neutral; cbn [Async.store Async.pending fst snd]; auto.
  - destruct (Async.take index (Async.pending w)) as [[p others] |] eqn:Ht;
      [| apply keepsSlot_refl].
    destruct (take_spec _ _ _ _ Ht) as (Hin & Hsub & _).
    intros Hs.
    destruct (settle_keeps_slot player env p
                {| Async.store := Async.store w; Async.trace := Async.trace w;
                   Async.pending := others |} Hs) as [Hflag Hrest].
    split; [exact Hflag |]. intros Hp.
    unfold Async.settled in Hp.
    apply Hrest.
    + rewrite Forall_forall in Hp. apply Hp. exact Hin.
    + cbn [Async.pending]. apply (Forall_sublist _ _ _ Hsub Hp).
Qed.

Lemma keepsSlot_step (player : Game.Player) (env : Env) (st : Async.Step)
    (w : Async.World) :
  Async.keepsSlot player w (Async.step env st w).
Proof.
  unfold Async.step.
  eapply keepsSlot_trans; [apply keepsSlot_act | apply keepsSlot_effect].
Qed.

(** C8 (amended). Whatever the users and the timer do and in whatever order
    the pending promises settle: once the submitted flag of a slot is set,
    it stays set (so the slot goes from not submitted to submitted at most
    once), and when no submission of that player is still in flight, no
    later step changes the encrypted commitment of the slot and no
    submission of that player is started again. *)
Theorem submitted_slot_keeps_commitment (steps : list (Env * Async.Step))
    (w : Async.World) (player : Game.Player) :
  Game.submitted (Game.slot player (Game.players (Async.store w))) = true ->
  let w' := Async.run steps w in
  Game.submitted (Game.slot player (Game.players (Async.store w'))) = true
  /\ (Async.settled player (Async.pending w) ->
      Async.settled player (Async.pending w')
      /\ Game.encryptedMove (Game.slot player (Game.players (Async.store w')))
         = Game.encryptedMove (Game.slot player (Game.players (Async.store w)))).
Proof.
  revert w. induction steps as [| [env st] rest IH]; intros w Hs.
  - apply (keepsSlot_refl player w Hs).
  - cbn [Async.run].
    apply (keepsSlot_trans player w (Async.step env st w)
             (Async.run rest (Async.step env st w))).
    + apply keepsSlot_step.
    + intros Hs'. apply (IH _ Hs').
    + exact Hs.
Qed.

Lemma submitted_slot_keeps_commitment_witness :
  let w :=
    Async.run
      [(Sample.online 1000000, Async.User (Game.SelectMove Game.player1 (Some Game.rock)));
       (Sample.online 1000000, Async.User (Game.ClickSubmit Game.player1));
       (Sample.online 1000000, Async.Settle 0);
       (Sample.online 1000000, Async.Settle 0)] Async.initial in
  let steps :=
    [(Sample.online 1001000, Async.User (Game.SelectMove Game.player1 (Some Game.paper)));
     (Sample.online 1001000, Async.User (Game.ClickSubmit Game.player1));
     (Sample.online 1002000, Async.User (Game.SelectMove Game.player2 (Some Game.scissors)));
     (Sample.online 1002000, Async.User (Game.ClickSubmit Game.player2));
     (Sample.online 1003000, Async.Settle 0);
     (Sample.online 1004000, Async.User Game.Tick)] in
  Game.submitted (Game.slot Game.player1 (Game.players (Async.store w))) = true
  /\ Async.settled Game.player1 (Async.pending w)
  /\ Game.encryptedMove (Game.slot Game.player1 (Game.players (Async.store w)))
     = "0x726f636b"
  /\ Game.submitted
       (Game.slot Game.player2 (Game.players (Async.store (Async.run steps w))))
     = true
  /\ Game.encryptedMove
       (Game.slot Game.player1 (Game.players (Async.store (Async.run steps w))))
     = Game.encryptedMove (Game.slot Game.player1 (Game.players (Async.store w))).
Proof.
  intros w steps.
  assert (Hs : Game.submitted
                 (Game.slot Game.player1 (Game.players (Async.store w))) = true)
    by (vm_compute; reflexivity).
  assert (Hp : Async.settled Game.player1 (Async.pending w))
    by (unfold Async.settled; vm_compute; constructor).
  split; [exact Hs |]. split; [exact Hp |].
  split; [vm_compute; reflexivity |]. split; [vm_compute; reflexivity |].
  apply (submitted_slot_keeps_commitment steps w Game.player1 Hs). exact Hp.
Defined.

(** While an earlier submission of the same player is still in flight the
    commitment of a submitted slot can change: player 1 clicks twice before
    the first encryption has settled; the first encryption sets the flag
    and the commitment of rock, the second one then overwrites it with the
    commitment of paper. *)
Lemma submitted_commitment_overwritten_in_flight :
  let steps :=
    [(Sample.online 1000000, Async.User (Game.SelectMove Game.player1 (Some Game.rock)));
     (Sample.online 1000000, Async.User (Game.ClickSubmit Game.player1));
     (Sample.online 1000000, Async.Settle 0);
     (Sample.online 1001000, Async.User (Game.SelectMove Game.player1 (Some Game.paper)));
     (Sample.online 1001000, Async.User (Game.ClickSubmit Game.player1));
     (Sample.online 1002000, Async.Settle 0)] in
  let w := Async.run steps Async.initial in
  let w' := Async.run [(Sample.online 1002000, Async.Settle 0)] w in
  Game.submitted (Game.slot Game.player1 (Game.players (Async.store w))) = true
  /\ Async.pending w
     = [Async.AwaitEncryption Game.player1 "0x7061706572" "0x1d" "0xe0" "0x"]
  /\ Game.encryptedMove (Game.slot Game.player1 (Game.players (Async.store w)))
     = "0x726f636b"
  /\ Game.encryptedMove (Game.slot Game.player1 (Game.players (Async.store w')))
     = "0x7061706572".
Proof.
  repeat split; vm_compute; reflexivity.
Qed.

(* ================================================================== *)
(** * One registration, one pair, under interleaving *)

(** C3, as stated, fails in two ways.  A release timestamp of zero is
    taken for a missing one: when the first move is submitted at a clock
    for which the computed timestamp is 0, the second submission registers
    again and the two moves are encrypted under the pairs of two
    registrations.  And when the second player submits while the
    registration of the first is in flight, the render of the second click
    has the release timestamp but not yet the pair: no registration is
    made, the move of player 2 is encrypted under the initial
    [("0x", "0x")] and the move of player 1 under the registered pair. *)
Lemma shared_identity_broken_in_session :
  let atZero :=
    [(Async.registryByTimestamp (-120000),
      Async.User (Game.SelectMove Game.player1 (Some Game.rock)));
     (Async.registryByTimestamp (-120000), Async.User (Game.ClickSubmit Game.player1));
     (Async.registryByTimestamp (-120000), Async.Settle 0);
     (Async.registryByTimestamp (-120000), Async.Settle 0);
     (Async.registryByTimestamp 1000000,
      Async.User (Game.SelectMove Game.player2 (Some Game.paper)));
     (Async.registryByTimestamp 1000000, Async.User (Game.ClickSubmit Game.player2));
     (Async.registryByTimestamp 1000000, Async.Settle 0);
     (Async.registryByTimestamp 1000000, Async.Settle 0)] in
  let overlap :=
    [(Async.tagging 1000000, Async.User (Game.SelectMove Game.player1 (Some Game.rock)));
     (Async.tagging 1000000, Async.User (Game.ClickSubmit Game.player1));
     (Async.tagging 1001000, Async.User (Game.SelectMove Game.player2 (Some Game.paper)));
     (Async.tagging 1001000, Async.User (Game.ClickSubmit Game.player2));
     (Async.tagging 1002000, Async.Settle 0);
     (Async.tagging 1002000, Async.Settle 0);
     (Async.tagging 1002000, Async.Settle 0)] in
  let w0 := Async.run atZero Async.initial in
  let w := Async.run overlap Async.initial in
  (Game.submitted (Game.slot1 (Game.players (Async.store w0))) = true
   /\ Game.submitted (Game.slot2 (Game.players (Async.store w0))) = true
   /\ registrations (Async.trace w0) = 2%nat
   /\ Async.trace w0
      = [CallFetchShutterData 0;
         CallEncryptData "0x726f636b" "0x1d" "0xe0" "0x";
         CallFetchShutterData 1120;
         CallEncryptData "0x7061706572" "0x2d" "0xe1" "0x"])
  /\ (Game.submitted (Game.slot1 (Game.players (Async.store w))) = true
      /\ Game.submitted (Game.slot2 (Game.players (Async.store w))) = true
      /\ Async.trace w
         = [CallFetchShutterData 1120;
            CallEncryptData "0x7061706572" "0x" "0x" "0x";
            CallEncryptData "0x726f636b" "0x1d" "0xe0" "0x"]
      /\ Game.encryptedMove (Game.slot1 (Game.players (Async.store w)))
         = Async.encrypted_under "0x726f636b" "0x1d"
      /\ Game.encryptedMove (Game.slot2 (Game.players (Async.store w)))
         = Async.encrypted_under "0x7061706572" "0x")
  /\ ~ (forall c1 c2 p1 p2,
          In c1 (Async.trace w0) -> In c2 (Async.trace w0) ->
          encryption_pair c1 = Some p1 -> encryption_pair c2 = Some p2 ->
          p1 = p2)
  /\ ~ (forall c1 c2 p1 p2,
          In c1 (Async.trace w) -> In c2 (Async.trace w) ->
          encryption_pair c1 = Some p1 -> encryption_pair c2 = Some p2 ->
          p1 = p2).
Proof.
  intros atZero overlap w0 w.
  assert (Htr0 : Async.trace w0
                 = [CallFetchShutterData 0;
                    CallEncryptData "0x726f636b" "0x1d" "0xe0" "0x";
                    CallFetchShutterData 1120;
                    CallEncryptData "0x7061706572" "0x2d" "0xe1" "0x"])
    by (vm_compute; reflexivity).
  assert (Htr : Async.trace w
                = [CallFetchShutterData 1120;
                   CallEncryptData "0x7061706572" "0x" "0x" "0x";
                   CallEncryptData "0x726f636b" "0x1d" "0xe0" "0x"])
    by (vm_compute; reflexivity).
  split; [| split; [| split]].
  - repeat split; try exact Htr0; vm_compute; reflexivity.
  - repeat split; try exact Htr; vm_compute; reflexivity.
  - intros H.
    specialize (H (CallEncryptData "0x726f636b" "0x1d" "0xe0" "0x")
                  (CallEncryptData "0x7061706572" "0x2d" "0xe1" "0x")
                  ("0x1d", "0xe0") ("0x2d", "0xe1")).
    rewrite Htr0 in H.
    assert (Heq : ("0x1d", "0xe0") = ("0x2d", "0xe1"))
      by (apply H; simpl; auto).
    discriminate Heq.
  - intros H.
    specialize (H (CallEncryptData "0x7061706572" "0x" "0x" "0x")
                  (CallEncryptData "0x726f636b" "0x1d" "0xe0" "0x")
                  ("0x", "0x") ("0x1d", "0xe0")).
    rewrite Htr in H.
    assert (Heq : ("0x", "0x") = ("0x1d", "0xe0"))
      by (apply H; simpl; auto).
    discriminate Heq.
Qed.

(** C3 (amended). In every run of the game, whatever the users and the
    timer do and in whatever order the pending promises settle, in which
    no submit button is clicked while a registration is in flight or at a
    clock for which the computed release timestamp is zero: at most one
    registration is issued; all encryptions are made under one and the
    same [(identity, eonKey)] pair; a submitted slot means that exactly one
    registration was issued and that the commitment of the slot is what
    [encryptData] returned, in one of the environments of the run, for a
    call of the trace made under the pair of the state, so the commitments
    of both players are made under that one pair.  [submitMove] with a
    selected move issues the registration for the current time plus the
    delay exactly when the release timestamp of its render is falsy, and
    otherwise encrypts the move under the pair of its render. *)
Theorem shared_identity_in_session (steps : list (Env * Async.Step)) :
  Async.orderly steps Async.initial ->
  let w := Async.run steps Async.initial in
  (registrations (Async.trace w) <= 1)%nat
  /\ (forall c1 c2 p1 p2,
         In c1 (Async.trace w) -> In c2 (Async.trace w) ->
         encryption_pair c1 = Some p1 -> encryption_pair c2 = Some p2 ->
         p1 = p2)
  /\ (forall player,
         Game.submitted (Game.slot player (Game.players (Async.store w))) = true ->
         registrations (Async.trace w) = 1%nat
         /\ exists env msgHex sigmaHex,
              In env (map fst steps)
              /\ In (CallEncryptData msgHex (Game.identity (Async.store w))
                       (Game.eonKey (Async.store w)) sigmaHex) (Async.trace w)
              /\ encryptData env msgHex (Game.identity (Async.store w))
                   (Game.eonKey (Async.store w)) sigmaHex
                 = inr (Game.encryptedMove
                          (Game.slot player (Game.players (Async.store w)))))
  /\ (forall env snap player chosen w0,
         Game.move (Game.slot player (Game.players snap)) = Some chosen ->
         Async.trace (Async.submitMove env snap player w0)
         = (Async.trace w0
            ++ [if truthy_number (Game.encryptionTimestamp snap)
                then CallEncryptData (Viem.stringToHex (Game.moveString chosen))
                       (Game.identity snap) (Game.eonKey snap)
                       (Utils.generateRandomBytes32 (getRandomValues env 32))
                else CallFetchShutterData
                       (Date_now env / 1000 + Api.DECRYPTION_DELAY)])%list).
Proof.
  intros Hord w.
  pose proof (phased_run (map fst steps) steps Async.initial
                (incl_refl _) Hord (phased_initial _)) as Hph.
  fold w in Hph.
  split; [| split; [| split]].
  - destruct Hph as [(_ & H & _) | [(_ & H & _) | (_ & H & _)]]; rewrite H; lia.
  - intros c1 c2 p1 p2 Hin1 Hin2 Hp1 Hp2.
    destruct Hph as [(_ & _ & _ & H & _) | [(_ & _ & _ & H & _) | (_ & _ & _ & H & _)]];
      rewrite Forall_forall in H.
    + rewrite (H c1 Hin1) in Hp1. discriminate Hp1.
    + rewrite (H c1 Hin1) in Hp1. discriminate Hp1.
    + rewrite (H c1 Hin1 p1 Hp1), (H c2 Hin2 p2 Hp2). reflexivity.
  - intros player Hs.
    destruct Hph as [(_ & _ & _ & _ & _ & H) | [(_ & _ & _ & _ & _ & H) | (_ & H2 & _ & _ & _ & H)]].
    + rewrite H in Hs. discriminate Hs.
    + rewrite H in Hs. discriminate Hs.
    + split; [exact H2 |]. apply (H player Hs).
  - intros env snap player chosen w0 Hm.
    unfold Async.submitMove. rewrite Hm.
    destruct (truthy_number (Game.encryptionTimestamp snap)); cbn [negb];
      async_unfold; reflexivity.
Qed.

Lemma shared_identity_in_session_witness :
  let steps :=
    [(Sample.online 1000000, Async.User (Game.SelectMove Game.player1 (Some Game.rock)));
     (Sample.online 1000000, Async.User (Game.ClickSubmit Game.player1));
     (Sample.online 1000000, Async.Settle 0);
     (Sample.online 1000000, Async.Settle 0);
     (Sample.online 1030000, Async.User (Game.SelectMove Game.player2 (Some Game.scissors)));
     (Sample.online 1030000, Async.User (Game.ClickSubmit Game.player2));
     (Sample.online 1030000, Async.Settle 0)] in
  let w := Async.run steps Async.initial in
  Async.orderly steps Async.initial
  /\ Game.submitted (Game.slot1 (Game.players (Async.store w))) = true
  /\ Game.submitted (Game.slot2 (Game.players (Async.store w))) = true
  /\ Async.trace w
     = [CallFetchShutterData 1120;
        CallEncryptData "0x726f636b" "0x1d" "0xe0" "0x";
        CallEncryptData "0x73636973736f7273" "0x1d" "0xe0" "0x"]
  /\ registrations (Async.trace w) = 1%nat.
Proof.
  intros steps w.
  assert (Hord : Async.orderly steps Async.initial).
  { unfold steps. cbn [Async.orderly].
    repeat (split;
            [ intros Hsub;
              first [ simpl in Hsub; discriminate Hsub
                    | split; [vm_compute; discriminate | vm_compute; reflexivity] ]
            |]).
    exact I. }
  assert (Hs : Game.submitted
                 (Game.slot Game.player2 (Game.players (Async.store w))) = true)
    by (vm_compute; reflexivity).
  split; [exact Hord |]. split; [vm_compute; reflexivity |].
  split; [exact Hs |]. split; [vm_compute; reflexivity |].
  exact (proj1 (proj1 (proj2 (proj2 (shared_identity_in_session steps Hord)))
                  Game.player2 Hs)).
Defined.
